(** * InGrowwth Innovations backend ([Backend/app.py])

    A shallow embedding of the Flask application: the two form handlers
    [submit_contact] and [submit_application], the record store
    [save_application_data] and the two mail helpers, together with the
    parts of the Python runtime they rely on (text, [re], [json], the file
    system, the mail transport).

    Text is modelled by [string]: a sequence of characters with code points
    below 256.  JSON numbers are modelled as integers. *)

From Stdlib Require Import String Ascii ZArith NArith List Bool Lia.
From Stdlib Require Import DecimalString DecimalN DecimalFacts.
From stdpp Require Import base option gmap strings list.

Local Open Scope string_scope.
Local Open Scope list_scope.

(** ** Python text primitives *)

Module PyStr.

(** [str.isspace] on one character (and the class [\s] of [re]): the
    white space of Unicode below U+0100. *)
Definition is_space (c : ascii) : bool :=
  let n := N_of_ascii c in
  ((9 <=? n) && (n <=? 13) || (28 <=? n) && (n <=? 32)
   || (n =? 133) || (n =? 160))%N.

(** The class [\d]: the decimal digits below U+0100. *)
Definition is_digit (c : ascii) : bool :=
  let n := N_of_ascii c in ((48 <=? n) && (n <=? 57))%N.

Fixpoint lstrip (s : string) : string :=
  match s with
  | EmptyString => EmptyString
  | String c s' => if is_space c then lstrip s' else s
  end.

Fixpoint rstrip (s : string) : string :=
  match s with
  | EmptyString => EmptyString
  | String c s' =>
      match rstrip s' with
      | EmptyString => if is_space c then EmptyString else String c EmptyString
      | r => String c r
      end
  end.

(** [s.strip()] *)
Definition strip (s : string) : string := rstrip (lstrip s).

(** Truth value of a [str]: non-empty. *)
Definition str_truthy (s : string) : bool :=
  match s with EmptyString => false | String _ _ => true end.

Fixpoint all_space (s : string) : bool :=
  match s with
  | EmptyString => true
  | String c s' => is_space c && all_space s'
  end.

(** Every character of [s] is in the class [p]. *)
Fixpoint all_chars (p : ascii -> bool) (s : string) : bool :=
  match s with
  | EmptyString => true
  | String c s' => p c && all_chars p s'
  end.

Fixpoint starts_with (p s : string) : bool :=
  match p, s with
  | EmptyString, _ => true
  | String a p', String b s' => Ascii.eqb a b && starts_with p' s'
  | String _ _, EmptyString => false
  end.

(** [s.replace(old, new)] for a non-empty [old]: every occurrence, left to
    right, without overlap.  [skip] counts the characters of a matched
    occurrence that are still to be dropped. *)
Fixpoint replace_from (old new : string) (skip : nat) (s : string) : string :=
  match s with
  | EmptyString => EmptyString
  | String c s' =>
      match skip with
      | S k => replace_from old new k s'
      | O =>
          if starts_with old s
          then new +:+ replace_from old new (String.length old - 1) s'
          else String c (replace_from old new 0 s')
      end
  end.

Definition replace (old new s : string) : string := replace_from old new 0 s.

End PyStr.

(** ** The fragment of [re] used by the validators *)

Module Re.

Inductive regex : Type :=
| Void
| Eps
| Chr (p : ascii -> bool)
| Cat (r1 r2 : regex)
| Alt (r1 r2 : regex)
| Star (r : regex).

(** [r+], [r?], [r{n}] and [r{n,}] *)
Definition Plus (r : regex) : regex := Cat r (Star r).
Definition Opt (r : regex) : regex := Alt Eps r.

Fixpoint Rep (n : nat) (r : regex) : regex :=
  match n with
  | O => Eps
  | S k => Cat r (Rep k r)
  end.

Definition AtLeast (n : nat) (r : regex) : regex := Cat (Rep n r) (Star r).

Fixpoint nullable (r : regex) : bool :=
  match r with
  | Void => false
  | Eps => true
  | Chr _ => false
  | Cat r1 r2 => nullable r1 && nullable r2
  | Alt r1 r2 => nullable r1 || nullable r2
  | Star _ => true
  end.

Fixpoint deriv (c : ascii) (r : regex) : regex :=
  match r with
  | Void => Void
  | Eps => Void
  | Chr p => if p c then Eps else Void
  | Cat r1 r2 =>
      if nullable r1
      then Alt (Cat (deriv c r1) r2) (deriv c r2)
      else Cat (deriv c r1) r2
  | Alt r1 r2 => Alt (deriv c r1) (deriv c r2)
  | Star r1 => Cat (deriv c r1) (Star r1)
  end.

(** The whole of [s] is a word of [r]. *)
Fixpoint fullmatch (r : regex) (s : string) : bool :=
  match s with
  | EmptyString => nullable r
  | String c s' => fullmatch (deriv c r) s'
  end.

Definition newline : ascii := ascii_of_nat 10.

(** [re.match('^' body '$', s)] without flags: [re.match] anchors at the
    start, and [$] holds at the end of the text and also just before a
    line feed that ends the text. *)
Definition match_anchored (body : regex) (s : string) : bool :=
  fullmatch (Cat body (Opt (Chr (Ascii.eqb newline)))) s.

Definition line_feed : string := String newline EmptyString.

(** The words of a regular expression. *)
Inductive lang : regex -> string -> Prop :=
| lang_eps : lang Eps EmptyString
| lang_chr p c : p c = true -> lang (Chr p) (String c EmptyString)
| lang_cat r1 r2 s1 s2 : lang r1 s1 -> lang r2 s2 -> lang (Cat r1 r2) (s1 +:+ s2)
| lang_alt_l r1 r2 s : lang r1 s -> lang (Alt r1 r2) s
| lang_alt_r r1 r2 s : lang r2 s -> lang (Alt r1 r2) s
| lang_star_nil r : lang (Star r) EmptyString
| lang_star_cons r s1 s2 : lang r s1 -> lang (Star r) s2 -> lang (Star r) (s1 +:+ s2).

End Re.

(** ** Values decoded from JSON, as Python holds them *)

Module Json.

Unset Elimination Schemes.
(** [JObj] is a [dict]: its keys are in insertion order. *)
Inductive json : Type :=
| JNull
| JBool (b : bool)
| JNum (z : Z)
| JStr (s : string)
| JArr (l : list json)
| JObj (l : list (string * json)).
Set Elimination Schemes.

(** Induction on a value, with the items of an array and the values of an
    object as induction hypotheses. *)
Section JsonInd.

Variable P : json -> Prop.
Hypothesis Hnull : P JNull.
Hypothesis Hbool : forall b, P (JBool b).
Hypothesis Hnum : forall z, P (JNum z).
Hypothesis Hstr : forall s, P (JStr s).
Hypothesis Harr : forall l, Forall P l -> P (JArr l).
Hypothesis Hobj : forall d, Forall (fun kv => P (snd kv)) d -> P (JObj d).

Fixpoint json_ind (v : json) : P v :=
  match v with
  | JNull => Hnull
  | JBool b => Hbool b
  | JNum z => Hnum z
  | JStr s => Hstr s
  | JArr l =>
      Harr l ((fix items (l : list json) : Forall P l :=
                 match l with
                 | [] => @List.Forall_nil _ P
                 | e :: l' => @List.Forall_cons _ P e l' (json_ind e) (items l')
                 end) l)
  | JObj d =>
      Hobj d ((fix members (d : list (string * json)) : Forall (fun kv => P (snd kv)) d :=
                 match d with
                 | [] => @List.Forall_nil _ _
                 | kv :: d' => @List.Forall_cons _ _ kv d' (json_ind (snd kv)) (members d')
                 end) d)
  end.

End JsonInd.

(** A [dict] holds a key once: the values Python can hold. *)
Fixpoint distinct (l : list string) : bool :=
  match l with
  | [] => true
  | k :: l' => negb (existsb (String.eqb k) l') && distinct l'
  end.

Fixpoint well_formed (v : json) : bool :=
  match v with
  | JArr l => forallb well_formed l
  | JObj d => distinct (List.map fst d) && forallb (fun kv => well_formed (snd kv)) d
  | _ => true
  end.

(** [bool(v)] *)
Definition truthy (v : json) : bool :=
  match v with
  | JNull => false
  | JBool b => b
  | JNum z => negb (z =? 0)%Z
  | JStr s => PyStr.str_truthy s
  | JArr l => match l with [] => false | _ :: _ => true end
  | JObj l => match l with [] => false | _ :: _ => true end
  end.

(** [d.get(k)] is [None] for a missing key, which [opt_value] renders. *)
Fixpoint dict_get (k : string) (d : list (string * json)) : option json :=
  match d with
  | [] => None
  | (k', v) :: d' => if String.eqb k k' then Some v else dict_get k d'
  end.

Definition opt_value (o : option json) : json :=
  match o with Some v => v | None => JNull end.

(** The value under [key] when [v] is an object that has it. *)
Definition field (key : string) (v : json) : option json :=
  match v with
  | JObj d => dict_get key d
  | _ => None
  end.

(** [d[k] = v]: a key already present keeps its place. *)
Fixpoint dict_set (k : string) (v : json) (d : list (string * json))
  : list (string * json) :=
  match d with
  | [] => [(k, v)]
  | (k', v') :: d' =>
      if String.eqb k k' then (k, v) :: d' else (k', v') :: dict_set k v d'
  end.

(** *** [json.dump(obj, f, indent=4)] *)

Definition dquote : ascii := "034"%char.
Definition backslash : ascii := "\"%char.

Definition hex_char (n : N) : ascii :=
  if (n <? 10)%N then ascii_of_N (48 + n) else ascii_of_N (87 + n).

(** One character inside a string literal, with [ensure_ascii]. *)
Definition escape_char (c : ascii) : string :=
  let n := N_of_ascii c in
  if (n =? 34)%N then String backslash (String dquote EmptyString)
  else if (n =? 92)%N then String backslash (String backslash EmptyString)
  else if (n =? 10)%N then String backslash "n"
  else if (n =? 13)%N then String backslash "r"
  else if (n =? 9)%N then String backslash "t"
  else if (n =? 8)%N then String backslash "b"
  else if (n =? 12)%N then String backslash "f"
  else if ((32 <=? n) && (n <=? 126))%N then String c EmptyString
  else String backslash
         (String "u" (String "0" (String "0"
            (String (hex_char (n / 16)) (String (hex_char (n mod 16)) EmptyString))))).

Fixpoint escape (s : string) : string :=
  match s with
  | EmptyString => EmptyString
  | String c s' => escape_char c +:+ escape s'
  end.

Definition dump_str (s : string) : string :=
  String dquote (escape s +:+ String dquote EmptyString).

Definition dump_int (z : Z) : string :=
  if (z <? 0)%Z
  then String "-" (NilZero.string_of_uint (N.to_uint (Z.to_N (- z))))
  else NilZero.string_of_uint (N.to_uint (Z.to_N z)).

Fixpoint spaces (n : nat) : string :=
  match n with
  | O => EmptyString
  | S k => String " " (spaces k)
  end.

(** A line feed and the indentation of nesting level [lvl]. *)
Definition newline_indent (lvl : nat) : string :=
  String Re.newline (spaces (4 * lvl)).

Fixpoint join (sep : string) (l : list string) : string :=
  match l with
  | [] => EmptyString
  | [x] => x
  | x :: l' => x +:+ sep +:+ join sep l'
  end.

Fixpoint dump (lvl : nat) (v : json) : string :=
  match v with
  | JNull => "null"
  | JBool true => "true"
  | JBool false => "false"
  | JNum z => dump_int z
  | JStr s => dump_str s
  | JArr [] => "[]"
  | JArr l =>
      "[" +:+ newline_indent (S lvl)
      +:+ join ("," +:+ newline_indent (S lvl)) (List.map (dump (S lvl)) l)
      +:+ newline_indent lvl +:+ "]"
  | JObj [] => "{}"
  | JObj l =>
      "{" +:+ newline_indent (S lvl)
      +:+ join ("," +:+ newline_indent (S lvl))
            (List.map (fun kv => dump_str (fst kv) +:+ ": " +:+ dump (S lvl) (snd kv)) l)
      +:+ newline_indent lvl +:+ "}"
  end.

Definition dumps (v : json) : string := dump 0 v.

(** One [key: value] line of an object, as [dump] writes it. *)
Definition dump_member (lvl : nat) (kv : string * json) : string :=
  dump_str (fst kv) +:+ ": " +:+ dump lvl (snd kv).

(** *** [json.load]

    Numbers with a fraction or an exponent, the constants [NaN] and
    [Infinity], and [\u] escapes above U+00FF have no counterpart in this
    model: the decoder reports them as errors. *)

Definition is_ws (c : ascii) : bool :=
  let n := N_of_ascii c in
  ((n =? 32) || (n =? 9) || (n =? 10) || (n =? 13))%N.

Fixpoint skip_ws (s : string) : string :=
  match s with
  | EmptyString => EmptyString
  | String c s' => if is_ws c then skip_ws s' else s
  end.

Definition hex_value (c : ascii) : option N :=
  let n := N_of_ascii c in
  if ((48 <=? n) && (n <=? 57))%N then Some (n - 48)%N
  else if ((97 <=? n) && (n <=? 102))%N then Some (n - 87)%N
  else if ((65 <=? n) && (n <=? 70))%N then Some (n - 55)%N
  else None.

Definition hex4 (a b c d : ascii) : option N :=
  match hex_value a, hex_value b, hex_value c, hex_value d with
  | Some x, Some y, Some z, Some t => Some (((x * 16 + y) * 16 + z) * 16 + t)%N
  | _, _, _, _ => None
  end.

Definition unescape (c : ascii) : option ascii :=
  let n := N_of_ascii c in
  if (n =? 34)%N then Some dquote
  else if (n =? 92)%N then Some backslash
  else if (n =? 47)%N then Some "/"%char
  else if (n =? 98)%N then Some (ascii_of_N 8)
  else if (n =? 102)%N then Some (ascii_of_N 12)
  else if (n =? 110)%N then Some (ascii_of_N 10)
  else if (n =? 114)%N then Some (ascii_of_N 13)
  else if (n =? 116)%N then Some (ascii_of_N 9)
  else None.

(** The text after an opening quote: the decoded string and what follows
    the closing quote. *)
Fixpoint scan_chars (s : string) : option (string * string) :=
  match s with
  | EmptyString => None
  | String c s' =>
      let n := N_of_ascii c in
      if (n =? 34)%N then Some (EmptyString, s')
      else if (n =? 92)%N then
        match s' with
        | EmptyString => None
        | String e s'' =>
            if (N_of_ascii e =? 117)%N then
              match s'' with
              | String h1 (String h2 (String h3 (String h4 r))) =>
                  match hex4 h1 h2 h3 h4 with
                  | Some v =>
                      if (v <? 256)%N then
                        match scan_chars r with
                        | Some (t, rest) => Some (String (ascii_of_N v) t, rest)
                        | None => None
                        end
                      else None
                  | None => None
                  end
              | _ => None
              end
            else
              match unescape e with
              | Some ch =>
                  match scan_chars s'' with
                  | Some (t, rest) => Some (String ch t, rest)
                  | None => None
                  end
              | None => None
              end
        end
      else if (n <? 32)%N then None
      else
        match scan_chars s' with
        | Some (t, rest) => Some (String c t, rest)
        | None => None
        end
  end.

Definition digit_of (c : ascii) : option (Decimal.uint -> Decimal.uint) :=
  match N_of_ascii c with
  | 48%N => Some Decimal.D0 | 49%N => Some Decimal.D1 | 50%N => Some Decimal.D2
  | 51%N => Some Decimal.D3 | 52%N => Some Decimal.D4 | 53%N => Some Decimal.D5
  | 54%N => Some Decimal.D6 | 55%N => Some Decimal.D7 | 56%N => Some Decimal.D8
  | 57%N => Some Decimal.D9
  | _ => None
  end.

(** The longest prefix of digits. *)
Fixpoint take_digits (s : string) : Decimal.uint * string :=
  match s with
  | EmptyString => (Decimal.Nil, EmptyString)
  | String c s' =>
      match digit_of c with
      | Some d => let '(u, rest) := take_digits s' in (d u, rest)
      | None => (Decimal.Nil, s)
      end
  end.

Definition float_mark (s : string) : bool :=
  match s with
  | String c _ =>
      let n := N_of_ascii c in ((n =? 46) || (n =? 101) || (n =? 69))%N
  | EmptyString => false
  end.

(** An integer literal: an optional minus sign, then [0] or a non-zero
    digit followed by digits. *)
Definition code_is (n : N) (c : ascii) : bool := (N_of_ascii c =? n)%N.

Definition scan_number (s : string) : option (Z * string) :=
  let '(neg, s1) :=
    match s with
    | String c r => if code_is 45 c then (true, r) else (false, s)
    | EmptyString => (false, s)
    end in
  let '(u, rest) := take_digits s1 in
  let ok :=
    match u with
    | Decimal.Nil => false
    | Decimal.D0 Decimal.Nil => true
    | Decimal.D0 _ => false
    | _ => true
    end in
  if ok && negb (float_mark rest)
  then Some (if neg then (- Z.of_N (N.of_uint u))%Z else Z.of_N (N.of_uint u), rest)
  else None.

Fixpoint drop_prefix (p s : string) : option string :=
  match p, s with
  | EmptyString, _ => Some s
  | String a p', String b s' => if Ascii.eqb a b then drop_prefix p' s' else None
  | String _ _, EmptyString => None
  end.

Definition expect (lit : string) (v : json) (s : string) : option (json * string) :=
  match drop_prefix lit s with
  | Some rest => Some (v, rest)
  | None => None
  end.

(** The scanner proper.  White space is skipped between the tokens of an
    array and of an object; [fuel] bounds the nesting and the number of
    items, and [loads] supplies more than the text can use. *)
Fixpoint scan_value (fuel : nat) (s : string) : option (json * string) :=
  match fuel with
  | O => None
  | S f =>
      match s with
      | EmptyString => None
      | String c r =>
          if code_is 34 c then
            match scan_chars r with
            | Some (t, rest) => Some (JStr t, rest)
            | None => None
            end
          else if code_is 123 c then
            match skip_ws r with
            | EmptyString => None
            | String c1 rest =>
                if code_is 125 c1 then Some (JObj [], rest)
                else
                  match scan_members f (String c1 rest) with
                  | Some (d, rest') => Some (JObj d, rest')
                  | None => None
                  end
            end
          else if code_is 91 c then
            match skip_ws r with
            | EmptyString => None
            | String c1 rest =>
                if code_is 93 c1 then Some (JArr [], rest)
                else
                  match scan_elems f (String c1 rest) with
                  | Some (l, rest') => Some (JArr l, rest')
                  | None => None
                  end
            end
          else if code_is 110 c then expect "null" JNull s
          else if code_is 116 c then expect "true" (JBool true) s
          else if code_is 102 c then expect "false" (JBool false) s
          else
            match scan_number s with
            | Some (z, rest) => Some (JNum z, rest)
            | None => None
            end
      end
  end

with scan_elems (fuel : nat) (s : string) : option (list json * string) :=
  match fuel with
  | O => None
  | S f =>
      match scan_value f s with
      | Some (v, r) =>
          match skip_ws r with
          | EmptyString => None
          | String c r1 =>
              if code_is 44 c then
                match scan_elems f (skip_ws r1) with
                | Some (l, rest) => Some (v :: l, rest)
                | None => None
                end
              else if code_is 93 c then Some ([v], r1)
              else None
          end
      | None => None
      end
  end

with scan_members (fuel : nat) (s : string) : option (list (string * json) * string) :=
  match fuel with
  | O => None
  | S f =>
      match s with
      | EmptyString => None
      | String c r =>
          if code_is 34 c then
            match scan_chars r with
            | Some (k, r1) =>
                match skip_ws r1 with
                | EmptyString => None
                | String c2 r2 =>
                    if code_is 58 c2 then
                      match scan_value f (skip_ws r2) with
                      | Some (v, r3) =>
                          match skip_ws r3 with
                          | EmptyString => None
                          | String c4 r4 =>
                              if code_is 44 c4 then
                                match scan_members f (skip_ws r4) with
                                | Some (d, rest) => Some ((k, v) :: d, rest)
                                | None => None
                                end
                              else if code_is 125 c4 then Some ([(k, v)], r4)
                              else None
                          end
                      | None => None
                      end
                    else None
                end
            | None => None
            end
          else None
      end
  end.

(** The pairs as [dict] built them: a repeated key keeps its first place
    and takes the last value. *)
Fixpoint build_dict (acc pairs : list (string * json)) : list (string * json) :=
  match pairs with
  | [] => acc
  | (k, v) :: rest => build_dict (dict_set k v acc) rest
  end.

Fixpoint normalize (v : json) : json :=
  match v with
  | JArr l => JArr (List.map normalize l)
  | JObj d => JObj (build_dict [] (List.map (fun kv => (fst kv, normalize (snd kv))) d))
  | _ => v
  end.

(** [json.loads(s)]: one value with white space around it. *)
Definition loads (s : string) : option json :=
  match scan_value (S (String.length s)) (skip_ws s) with
  | Some (v, rest) =>
      match skip_ws rest with
      | EmptyString => Some (normalize v)
      | String _ _ => None
      end
  | None => None
  end.

(** The fuel [scan_value] needs for the text of a value, the characters
    a value can start with, and what may follow a value. *)
Fixpoint cost (v : json) : nat :=
  match v with
  | JArr l => S (list_sum (List.map (fun e => S (cost e)) l))
  | JObj d => S (list_sum (List.map (fun kv => S (cost (snd kv))) d))
  | _ => 1
  end.

Definition value_start (c : ascii) : bool :=
  negb (is_ws c) && negb (code_is 93 c) && negb (code_is 125 c) && negb (code_is 44 c).

Definition follow_ok (s : string) : bool :=
  match s with
  | EmptyString => true
  | String c _ =>
      match digit_of c with
      | Some _ => false
      | None => negb (float_mark s)
      end
  end.

Definition scans (v : json) : Prop :=
  forall lvl fuel rest,
    cost v <= fuel -> follow_ok rest = true ->
    scan_value fuel (dump lvl v +:+ rest) = Some (v, rest).

End Json.

(** ** The Python runtime the handlers run on *)

Module Py.
Import Json.

Inductive exn : Type :=
| FileNotFoundError (path : string)
| PermissionError (path : string)
| JSONDecodeError
| AttributeError (attr : string)
| KeyError (key : string)
| TypeError
| MailError
| BadRequest.

(** A [flask_mail.Message]. *)
Record Attachment : Type := {
  att_filename : string;
  att_content_type : string;
  att_data : string;
  att_headers : list (string * string)
}.

Record Message : Type := {
  msg_subject : string;
  msg_recipients : list json;
  msg_sender : option string;
  msg_body : option string;
  msg_html : option string;
  msg_attachments : list Attachment
}.

Inductive level : Type := INFO | ERROR.

Definition LogRecord : Type := (level * string)%type.

(** Everything a request can read or change.  [smtp_ok n] tells whether
    the [n]-th call of [mail.send] goes through, [uuid_source n] is the
    value of the [n]-th call of [uuid.uuid4] and [clock n] the text of the
    [n]-th [datetime.now().isoformat()]. *)
Record World : Type := {
  files : gmap string string;
  readable : string -> bool;
  writable : string -> bool;
  smtp_ok : nat -> bool;
  mail_calls : nat;
  outbox : list Message;
  uuid_source : nat -> N;
  uuid_calls : nat;
  clock : nat -> string;
  clock_calls : nat;
  log : list LogRecord
}.

Definition set_files (f : gmap string string) (w : World) : World :=
  {| files := f; readable := readable w; writable := writable w;
     smtp_ok := smtp_ok w; mail_calls := mail_calls w; outbox := outbox w;
     uuid_source := uuid_source w; uuid_calls := uuid_calls w;
     clock := clock w; clock_calls := clock_calls w; log := log w |}.

Definition set_mail (n : nat) (o : list Message) (w : World) : World :=
  {| files := files w; readable := readable w; writable := writable w;
     smtp_ok := smtp_ok w; mail_calls := n; outbox := o;
     uuid_source := uuid_source w; uuid_calls := uuid_calls w;
     clock := clock w; clock_calls := clock_calls w; log := log w |}.

Definition set_uuid_calls (n : nat) (w : World) : World :=
  {| files := files w; readable := readable w; writable := writable w;
     smtp_ok := smtp_ok w; mail_calls := mail_calls w; outbox := outbox w;
     uuid_source := uuid_source w; uuid_calls := n;
     clock := clock w; clock_calls := clock_calls w; log := log w |}.

Definition set_clock_calls (n : nat) (w : World) : World :=
  {| files := files w; readable := readable w; writable := writable w;
     smtp_ok := smtp_ok w; mail_calls := mail_calls w; outbox := outbox w;
     uuid_source := uuid_source w; uuid_calls := uuid_calls w;
     clock := clock w; clock_calls := n; log := log w |}.

Definition set_log (l : list LogRecord) (w : World) : World :=
  {| files := files w; readable := readable w; writable := writable w;
     smtp_ok := smtp_ok w; mail_calls := mail_calls w; outbox := outbox w;
     uuid_source := uuid_source w; uuid_calls := uuid_calls w;
     clock := clock w; clock_calls := clock_calls w; log := l |}.

(** Computations that read and change the world and may raise. *)
Inductive result (A : Type) : Type :=
| Ok (a : A)
| Raise (e : exn).
Arguments Ok {A} a.
Arguments Raise {A} e.

Definition M (A : Type) : Type := World -> result A * World.

Definition ret {A} (a : A) : M A := fun w => (Ok a, w).

Definition raise {A} (e : exn) : M A := fun w => (Raise e, w).

Definition bind {A B} (m : M A) (k : A -> M B) : M B :=
  fun w =>
    match m w with
    | (Ok a, w') => k a w'
    | (Raise e, w') => (Raise e, w')
    end.

(** [try: body  except Exception as e: handler(e)] *)
Definition try_except {A} (body : M A) (handler : exn -> M A) : M A :=
  fun w =>
    match body w with
    | (Ok a, w') => (Ok a, w')
    | (Raise e, w') => handler e w'
    end.

Notation "'let*' x ':=' m 'in' k" := (bind m (fun x => k))
  (at level 10, x name, m at level 100, k at level 200).
Notation "m '>>' k" := (bind m (fun _ => k))
  (at level 65, right associativity).

(** *** The file system *)

Definition path_exists (p : string) : M bool :=
  fun w => (Ok (bool_decide (is_Some (files w !! p))), w).

Definition getsize (p : string) : M nat :=
  fun w =>
    match files w !! p with
    | Some c => (Ok (String.length c), w)
    | None => (Raise (FileNotFoundError p), w)
    end.

(** [open(p, 'r').read()] and [open(p, 'rb').read()]: the content as it
    is on the disk.  For a text read this is what Python hands over when
    the file holds no carriage return, see [no_carriage_return] below;
    where the text goes to [json.load], a carriage return is white space
    between the values and refused inside text, like a line feed. *)
Definition read_file (p : string) : M string :=
  fun w =>
    match files w !! p with
    | Some c => if readable w p then (Ok c, w) else (Raise (PermissionError p), w)
    | None => (Raise (FileNotFoundError p), w)
    end.

(** Text that [open(p, 'r').read()] hands over as it is on the disk: it
    holds no carriage return, which reading as text turns into a line
    feed. *)
Definition no_carriage_return (s : string) : bool :=
  PyStr.all_chars (fun c => negb (Ascii.eqb c (ascii_of_nat 13))) s.

(** [open(p, 'w')] followed by writing [c] *)
Definition write_file (p c : string) : M unit :=
  fun w =>
    if writable w p
    then (Ok tt, set_files (<[p := c]> (files w)) w)
    else (Raise (PermissionError p), w).

(** [os.path.join(a, b)] *)
Fixpoint ends_with_slash (s : string) : bool :=
  match s with
  | EmptyString => false
  | String c EmptyString => Ascii.eqb c "/"
  | String _ s' => ends_with_slash s'
  end.

Definition path_join (a b : string) : string :=
  if PyStr.starts_with "/" b then b
  else if negb (PyStr.str_truthy a) || ends_with_slash a then a +:+ b
  else a +:+ "/" +:+ b.

(** What [path_join a] puts before a relative path. *)
Definition dir_prefix (a : string) : string :=
  if negb (PyStr.str_truthy a) || ends_with_slash a then a else a +:+ "/".

(** *** [logging], [uuid], [datetime], [flask_mail] *)

Definition log_info (text : string) : M unit :=
  fun w => (Ok tt, set_log (log w ++ [(INFO, text)]) w).

Definition log_error (text : string) : M unit :=
  fun w => (Ok tt, set_log (log w ++ [(ERROR, text)]) w).

(** The 128 bits of the [n]-th UUID. *)
Definition uuid_value (w : World) (n : nat) : N := (uuid_source w n mod 2 ^ 128)%N.

Definition uuid4 : M N :=
  fun w => (Ok (uuid_value w (uuid_calls w)), set_uuid_calls (S (uuid_calls w)) w).

Fixpoint hex_digits (n : nat) (v : N) : list ascii :=
  match n with
  | O => []
  | S k => hex_digits k (v / 16) ++ [hex_char (v mod 16)]
  end.

(** Thirty-two digits in groups of 8-4-4-4-12, and back. *)
Definition dashed (h : list ascii) : list ascii :=
  firstn 8 h ++ "-"%char :: firstn 4 (skipn 8 h) ++ "-"%char
    :: firstn 4 (skipn 12 h) ++ "-"%char :: firstn 4 (skipn 16 h)
    ++ "-"%char :: skipn 20 h.

Definition undashed (l : list ascii) : list ascii :=
  firstn 8 l ++ firstn 4 (skipn 9 l) ++ firstn 4 (skipn 14 l)
    ++ firstn 4 (skipn 19 l) ++ skipn 24 l.

(** [str(u)] for a UUID *)
Definition uuid_str (u : N) : string :=
  string_of_list_ascii (dashed (hex_digits 32 u)).

Definition now_isoformat : M string :=
  fun w => (Ok (clock w (clock_calls w)), set_clock_calls (S (clock_calls w)) w).

(** [mail.send(msg)] *)
Definition mail_send (msg : Message) : M unit :=
  fun w =>
    if smtp_ok w (mail_calls w)
    then (Ok tt, set_mail (S (mail_calls w)) (outbox w ++ [msg]) w)
    else (Raise MailError, set_mail (S (mail_calls w)) (outbox w) w).

(** What the mail helpers leave as it was: the disk and the sources of
    identifiers and time. *)
Definition same_disk (w w' : World) : Prop :=
  files w' = files w /\ readable w' = readable w /\ writable w' = writable w /\
  uuid_source w' = uuid_source w /\ uuid_calls w' = uuid_calls w /\
  clock w' = clock w /\ clock_calls w' = clock_calls w.

(** The next [n] values of [uuid4] are pairwise different. *)
Definition uuids_fresh (w : World) (n : nat) : Prop :=
  forall i j, uuid_calls w <= i -> i < j -> j < uuid_calls w + n ->
              uuid_value w i <> uuid_value w j.

(** The text of every second UUID after call [c]: the ones that become
    the [id] of a record. *)
Fixpoint ids_of (src : nat -> N) (c n : nat) : list string :=
  match n with
  | O => []
  | S k => uuid_str (src (S c) mod 2 ^ 128)%N :: ids_of src (S (S c)) k
  end.

End Py.

(** ** The application *)

Module App.
Import Json Py.

(** What the process is started with: the directory of [app.py], the
    environment, and the library routines reached through text
    ([werkzeug.utils.secure_filename], [str()] of a decoded value that is
    not text, [str()] of an exception). *)
Record Config : Type := {
  BASE_DIR : string;
  SENDER_EMAIL : option string;
  RECEIVER_EMAIL : option string;
  secure_filename : string -> string;
  str_value : json -> string;
  str_exn : exn -> string
}.

(** [jsonify(body), status] *)
Record Response : Type := {
  status : Z;
  body : list (string * json)
}.

(** An uploaded file ([werkzeug.datastructures.FileStorage]). *)
Record FileStorage : Type := {
  filename : option string;
  stream : string
}.

Section Application.

Variable cfg : Config.

Definition RESUMES_FOLDER : string := path_join (BASE_DIR cfg) "resumes".
Definition APPLICATIONS_DB : string := path_join (BASE_DIR cfg) "applications.json".
Definition TEMPLATES_FOLDER : string := path_join (BASE_DIR cfg) "templates".
Definition ASSETS_FOLDER : string := path_join (path_join (BASE_DIR cfg) "assets") "images".

Definition MAIL_DEFAULT_SENDER : option string := SENDER_EMAIL cfg.

(** A value inside an f-string. *)
Definition fmt (v : json) : string :=
  match v with
  | JStr s => s
  | _ => str_value cfg v
  end.

(** *** [save_application_data] *)

(** The array the store holds: empty for a missing or zero-byte file. *)
Definition load_applications : M json :=
  let* present := path_exists APPLICATIONS_DB in
  let* empty :=
    (if present
     then let* size := getsize APPLICATIONS_DB in ret (Nat.eqb size 0)
     else ret true) in
  if negb present || empty then ret (JArr [])
  else
    let* text := read_file APPLICATIONS_DB in
    match loads text with
    | Some v => ret v
    | None => raise JSONDecodeError
    end.

(** [applications.append(data)] *)
Definition list_append (applications data : json) : M json :=
  match applications with
  | JArr l => ret (JArr (l ++ [data]))
  | _ => raise (AttributeError "append")
  end.

Definition save_application_data (data : json) : M bool :=
  try_except
    (let* applications := load_applications in
     let* applications := list_append applications data in
     write_file APPLICATIONS_DB (dumps applications) >>
     ret true)
    (fun e =>
       log_error ("Failed to save application data: " +:+ str_exn cfg e) >>
       ret false).

(** What the store holds for [save_application_data]: the array that
    [load_applications] yields when the file can be read. *)
Definition stored_applications (w : World) : option (list json) :=
  match files w !! APPLICATIONS_DB with
  | None => Some []
  | Some text =>
      if Nat.eqb (String.length text) 0 then Some []
      else
        match loads text with
        | Some (JArr l) => Some l
        | _ => None
        end
  end.

(** *** [send_career_reply_email] *)

(** [html_body.replace(old, new)], where [new] has to be text. *)
Definition replace_with (old : string) (new : json) (html_body : string) : M string :=
  match new with
  | JStr s => ret (PyStr.replace old s html_body)
  | _ => raise TypeError
  end.

Definition logo_attachment (img_data : string) : Attachment :=
  {| att_filename := "company_logo.png";
     att_content_type := "image/png";
     att_data := img_data;
     att_headers := [("Content-ID", "<company_logo>"); ("Content-Disposition", "inline")] |}.

Definition career_message (recipient role_name : json) (html_body : string)
    (attachments : list Attachment) : Message :=
  {| msg_subject := "Application Received for " +:+ fmt role_name +:+ " - InGrowwth Innovations!";
     msg_recipients := [recipient];
     msg_sender := MAIL_DEFAULT_SENDER;
     msg_body := None;
     msg_html := Some html_body;
     msg_attachments := attachments |}.

Definition template_path : string := path_join TEMPLATES_FOLDER "reply_email.html".
Definition logo_path : string := path_join ASSETS_FOLDER "company_logo.png".

(** The template after the three substitutions, when the values are text. *)
Definition filled_template (html_body first_name last_name role_name : string) : string :=
  PyStr.replace "{role_name}" role_name
    (PyStr.replace "{last_name}" last_name
       (PyStr.replace "{first_name}" first_name html_body)).

Definition send_career_reply_email (recipient first_name last_name role_name : json) : M bool :=
  try_except
    (let* html_body := read_file template_path in
     let* html_body := replace_with "{first_name}" first_name html_body in
     let* html_body := replace_with "{last_name}" last_name html_body in
     let* html_body := replace_with "{role_name}" role_name html_body in
     let* present := path_exists logo_path in
     let* empty :=
       (if present
        then let* size := getsize logo_path in ret (Nat.eqb size 0)
        else ret true) in
     if negb present || empty then
       log_error ("Failed to find or read company logo at path: " +:+ logo_path
                  +:+ ". Sending email without logo.") >>
       mail_send (career_message recipient role_name html_body []) >>
       log_info ("Confirmation email for career sent to " +:+ fmt recipient +:+ " (no logo).") >>
       ret true
     else
       let* img_data := read_file logo_path in
       mail_send (career_message recipient role_name html_body [logo_attachment img_data]) >>
       log_info ("Confirmation email for career sent to " +:+ fmt recipient) >>
       ret true)
    (fun e =>
       log_error ("Failed to send career email to " +:+ fmt recipient +:+ ": " +:+ str_exn cfg e) >>
       ret false).

(** *** [send_contact_reply_email] *)

Definition contact_reply_body (name subject : json) : string :=
  "
Dear " +:+ fmt name +:+ ",

Thank you for contacting InGrowwth Innovations! We have successfully received your inquiry regarding: " +:+ fmt subject +:+ ".

We appreciate you reaching out and will review your message promptly. Our team will contact you very soon, typically within 24-48 business hours.

In the meantime, feel free to explore more about our services on our website.

Best regards,

The Team at InGrowwth Innovations
".

Definition contact_reply_message (recipient name subject : json) : Message :=
  {| msg_subject := "Inquiry Received: " +:+ fmt subject +:+ " - InGrowwth Innovations";
     msg_recipients := [recipient];
     msg_sender := MAIL_DEFAULT_SENDER;
     msg_body := Some (contact_reply_body name subject);
     msg_html := None;
     msg_attachments := [] |}.

Definition send_contact_reply_email (recipient name subject : json) : M bool :=
  try_except
    (mail_send (contact_reply_message recipient name subject) >>
     log_info ("Confirmation email for contact sent to " +:+ fmt recipient) >>
     ret true)
    (fun e =>
       log_error ("Failed to send contact email to " +:+ fmt recipient +:+ ": " +:+ str_exn cfg e) >>
       ret false).

(** *** [submit_contact] *)

(** [data.get(key)] *)
Definition data_get (data : json) (key : string) : M json :=
  match data with
  | JObj d => ret (opt_value (dict_get key d))
  | _ => raise (AttributeError "get")
  end.

Definition company_body (name email subject message : json) : string :=
  "
Hello InGrowwth Innovations Team,

You have received a new message from your website contact form:

Name: " +:+ fmt name +:+ "
Email: " +:+ fmt email +:+ "
Subject: " +:+ fmt subject +:+ "
Message:
" +:+ fmt message +:+ "

---
This message was sent from your website.
".

Definition company_message (receiver : string) (name email subject message : json) : Message :=
  {| msg_subject := "New Contact Form Submission: " +:+ fmt subject;
     msg_recipients := [JStr receiver];
     msg_sender := MAIL_DEFAULT_SENDER;
     msg_body := Some (company_body name email subject message);
     msg_html := None;
     msg_attachments := [] |}.

Definition json_response (code : Z) (fields : list (string * json)) : Response :=
  {| status := code; body := fields |}.

Definition contact_invalid : Response :=
  json_response 400
    [("success", JBool false);
     ("message", JStr "All required fields (Name, Email, Subject, Message) are missing.")].

(** The four values the contact handler reads. *)
Definition contact_fields : list string := ["name"; "email"; "subject"; "message"].

Definition contact_value (d : list (string * json)) (key : string) : json :=
  opt_value (dict_get key d).

(** [request_json] is [request.json]: [None] when the request carries no
    JSON that decodes, which Flask reports by raising. *)
Definition submit_contact (request_json : option json) : M Response :=
  try_except
    (let* data := (match request_json with
                   | Some v => ret v
                   | None => raise BadRequest
                   end) in
     let* name := data_get data "name" in
     let* email := data_get data "email" in
     let* subject := data_get data "subject" in
     let* message := data_get data "message" in
     if negb (forallb truthy [name; email; subject; message]) then ret contact_invalid
     else
       (match RECEIVER_EMAIL cfg with
        | Some (String c r) =>
            let receiver := String c r in
            try_except
              (mail_send (company_message receiver name email subject message) >>
               log_info ("Email sent to company (" +:+ receiver +:+ ") from " +:+ fmt email +:+ "."))
              (fun e => log_error ("Failed to send email to company: " +:+ str_exn cfg e))
        | _ => log_info "Company email sending skipped: RECEIVER_EMAIL not configured."
        end) >>
       let* client_email_sent := send_contact_reply_email email name subject in
       let response_message :=
         "Your inquiry has been submitted successfully!" +:+
         (if client_email_sent
          then " You'll receive a confirmation email shortly."
          else " There was an issue sending a confirmation email, but we received your message and will contact you soon.") in
       ret (json_response 200 [("success", JBool true); ("message", JStr response_message)]))
    (fun e =>
       log_error ("Error processing contact request: " +:+ str_exn cfg e) >>
       ret (json_response 500
              [("success", JBool false);
               ("message", JStr ("An unexpected error occurred on the server: " +:+ str_exn cfg e))])).

(** *** [submit_application] *)

Definition required_fields : list string :=
  ["firstName"; "lastName"; "email"; "phone"; "workExp"; "applyingFor"; "github"; "linkedin"].

(** [field in data and data[field].strip()] *)
Definition field_filled (data : gmap string string) (field : string) : bool :=
  match data !! field with
  | Some v => PyStr.str_truthy (PyStr.strip v)
  | None => false
  end.

(** The class [[^\s@]] *)
Definition not_space_at (c : ascii) : bool :=
  negb (PyStr.is_space c) && negb (Ascii.eqb c "@").

(** The class [[6-9]] *)
Definition six_to_nine (c : ascii) : bool :=
  let n := N_of_ascii c in ((54 <=? n) && (n <=? 57))%N.

(** The body of [r'^[^\s@]+@[^\s@]+\.[^\s@]{2,}$'] *)
Definition EMAIL_RE : Re.regex :=
  Re.Cat (Re.Plus (Re.Chr not_space_at))
    (Re.Cat (Re.Chr (Ascii.eqb "@"))
       (Re.Cat (Re.Plus (Re.Chr not_space_at))
          (Re.Cat (Re.Chr (Ascii.eqb "."))
             (Re.AtLeast 2 (Re.Chr not_space_at))))).

(** The body of [r'^[6-9]\d{9}$'] *)
Definition PHONE_RE : Re.regex :=
  Re.Cat (Re.Chr six_to_nine) (Re.Rep 9 (Re.Chr PyStr.is_digit)).

(** The two formats in the words of the specification, to be compared
    with the patterns: [local@domain.tld] with no white space and no
    further [@], and ten digits of which the first is 6, 7, 8 or 9. *)
Definition email_shape (s : string) : Prop :=
  exists local domain tld,
    s = local +:+ "@" +:+ domain +:+ "." +:+ tld /\
    local <> EmptyString /\ PyStr.all_chars not_space_at local = true /\
    domain <> EmptyString /\ PyStr.all_chars not_space_at domain = true /\
    2 <= String.length tld /\ PyStr.all_chars not_space_at tld = true.

Definition phone_shape (s : string) : Prop :=
  String.length s = 10 /\
  exists c t, s = String c t /\ six_to_nine c = true /\ PyStr.all_chars PyStr.is_digit t = true.

(** [data[key]] *)
Definition data_item (data : gmap string string) (key : string) : M string :=
  match data !! key with
  | Some v => ret v
  | None => raise (KeyError key)
  end.

(** [data.get(key)] as it is stored in a record. *)
Definition form_get (data : gmap string string) (key : string) : json :=
  match data !! key with
  | Some v => JStr v
  | None => JNull
  end.

(** [application_data[key]] *)
Definition record_item (application_data : json) (key : string) : M json :=
  match application_data with
  | JObj d =>
      match dict_get key d with
      | Some v => ret v
      | None => raise (KeyError key)
      end
  | _ => raise TypeError
  end.

Definition build_application_data (id date : string) (data : gmap string string)
    (resume_path : string) : json :=
  JObj [("id", JStr id);
        ("date", JStr date);
        ("firstName", form_get data "firstName");
        ("lastName", form_get data "lastName");
        ("email", form_get data "email");
        ("phone", form_get data "phone");
        ("workExp", form_get data "workExp");
        ("applyingFor", form_get data "applyingFor");
        ("github", form_get data "github");
        ("linkedin", form_get data "linkedin");
        ("intro", form_get data "intro");
        ("resume_path", JStr resume_path)].

(** [not resume_file or resume_file.filename == ''] *)
Definition resume_missing (resume_file : option FileStorage) : bool :=
  match resume_file with
  | None => true
  | Some f =>
      match filename f with
      | None => true
      | Some name => negb (PyStr.str_truthy name)
      end
  end.

(** The responses of the application handler. *)
Definition application_incomplete : Response :=
  json_response 400
    [("success", JBool false); ("message", JStr "All required fields must be filled.")].

Definition email_invalid : Response :=
  json_response 400 [("success", JBool false); ("message", JStr "Invalid email format.")].

Definition phone_invalid : Response :=
  json_response 400 [("success", JBool false); ("message", JStr "Invalid phone number format.")].

Definition resume_required : Response :=
  json_response 400 [("success", JBool false); ("message", JStr "Resume file is required.")].

Definition response_store_failed : Response :=
  json_response 500
    [("success", JBool false);
     ("message", JStr "Failed to save application. Please try again later.")].

Definition response_ok : Response :=
  json_response 200
    [("success", JBool true); ("status", JStr "ok");
     ("message", JStr "Thank you for your application! We will review it and get back to you soon.")].

Definition upload_name (f : FileStorage) : string :=
  match filename f with
  | Some name => name
  | None => EmptyString
  end.

(** [os.path.join(RESUMES_FOLDER, f"{u}-{name}")] *)
Definition resume_path_for (u : N) (name : string) : string :=
  path_join RESUMES_FOLDER (uuid_str u +:+ "-" +:+ name).

(** The path the next upload is written to in [w]. *)
Definition upload_path (w : World) (name : string) : string :=
  resume_path_for (uuid_value w (uuid_calls w)) (secure_filename cfg name).

(** From the form to the record that is about to be stored: validation,
    the format checks, and the upload written under its unique name.  The
    result is either the response that ends the request or the record. *)
Definition prepare_application (data : gmap string string)
    (resume_file : option FileStorage) : M (Response + json) :=
  if negb (forallb (field_filled data) required_fields) then ret (inl application_incomplete)
  else
    let* email := data_item data "email" in
    if negb (Re.match_anchored EMAIL_RE email) then ret (inl email_invalid)
    else
      let* phone := data_item data "phone" in
      if negb (Re.match_anchored PHONE_RE phone) then ret (inl phone_invalid)
      else if resume_missing resume_file then ret (inl resume_required)
      else
        match resume_file with
        | None => raise TypeError
        | Some f =>
            let name := secure_filename cfg (upload_name f) in
            let* u := uuid4 in
            let resume_path := resume_path_for u name in
            write_file resume_path (stream f) >>
            let* id := uuid4 in
            let* date := now_isoformat in
            ret (inr (build_application_data (uuid_str id) date data resume_path))
        end.

Definition submit_application (data : gmap string string)
    (resume_file : option FileStorage) : M Response :=
  try_except
    (let* prepared := prepare_application data resume_file in
     match prepared with
     | inl response => ret response
     | inr application_data =>
         let* saved := save_application_data application_data in
         if negb saved then ret response_store_failed
         else
           let* email := record_item application_data "email" in
           let* first_name := record_item application_data "firstName" in
           let* last_name := record_item application_data "lastName" in
           let* role_name := record_item application_data "applyingFor" in
           send_career_reply_email email first_name last_name role_name >>
           ret response_ok
     end)
    (fun e =>
       log_error ("Application submission failed: " +:+ str_exn cfg e) >>
       ret (json_response 500
              [("success", JBool false);
               ("message", JStr "An unexpected error occurred. Please try again later.")])).

(** A request to the application form, and a sequence of them served one
    after the other. *)
Record ApplicationRequest : Type := {
  form : gmap string string;
  resume : option FileStorage
}.

Fixpoint serve_applications (requests : list ApplicationRequest) : M (list Response) :=
  match requests with
  | [] => ret []
  | r :: rest =>
      let* response := submit_application (form r) (resume r) in
      let* responses := serve_applications rest in
      ret (response :: responses)
  end.

(** [record] names, under [resume_path], a file that is on the disk. *)
Definition has_resume (w : World) (record : json) : Prop :=
  exists path,
    field "resume_path" record = Some (JStr path) /\ path <> EmptyString /\
    is_Some (files w !! path).

(** [record] is the record of the submission [rq]. *)
Definition submitted (rq : ApplicationRequest) (record : json) : Prop :=
  exists id date path, record = build_application_data id date (form rq) path.

(** *** What the handlers answer and leave behind *)

(** [os.getenv('RECEIVER_EMAIL')] when it is set and not empty. *)
Definition company_receiver : option string :=
  match RECEIVER_EMAIL cfg with
  | Some (String c r) => Some (String c r)
  | _ => None
  end.

(** The 200 of the contact handler; [sent] is what
    [send_contact_reply_email] returned. *)
Definition contact_accepted (sent : bool) : Response :=
  json_response 200
    [("success", JBool true);
     ("message",
      JStr ("Your inquiry has been submitted successfully!" +:+
            (if sent
             then " You'll receive a confirmation email shortly."
             else " There was an issue sending a confirmation email, but we received your message and will contact you soon.")))].

(** The 500 of the contact handler for the exception [e]. *)
Definition contact_failed (e : exn) : Response :=
  json_response 500
    [("success", JBool false);
     ("message", JStr ("An unexpected error occurred on the server: " +:+ str_exn cfg e))].

(** The mails of an accepted contact request: the index of the
    confirmation among the calls of [mail.send], and what reaches the
    outbox. *)
Definition confirmation_call (w : World) : nat :=
  match company_receiver with
  | Some _ => S (mail_calls w)
  | None => mail_calls w
  end.

Definition company_mails (w : World) (d : list (string * json)) : list Message :=
  match company_receiver with
  | Some receiver =>
      if smtp_ok w (mail_calls w)
      then [company_message receiver (contact_value d "name") (contact_value d "email")
              (contact_value d "subject") (contact_value d "message")]
      else []
  | None => []
  end.

Definition confirmation_mails (w : World) (d : list (string * json)) : list Message :=
  if smtp_ok w (confirmation_call w)
  then [contact_reply_message (contact_value d "email") (contact_value d "name")
          (contact_value d "subject")]
  else [].

(** The 500 of the application handler for an exception. *)
Definition application_failed : Response :=
  json_response 500
    [("success", JBool false);
     ("message", JStr "An unexpected error occurred. Please try again later.")].

(** The world after the upload of [f] was written and the record built. *)
Definition after_upload (w : World) (name : string) (f : FileStorage) : World :=
  set_clock_calls (S (clock_calls w))
    (set_uuid_calls (S (S (uuid_calls w)))
       (set_files (<[upload_path w name := stream f]> (files w)) w)).

(** The record of the form [data] submitted in [w] with a file named [name]. *)
Definition record_of (w : World) (data : gmap string string) (name : string) : json :=
  build_application_data (uuid_str (uuid_value w (S (uuid_calls w))))
    (clock w (clock_calls w)) data (upload_path w name).

(** The form passes the three checks and comes with a named file. *)
Definition well_submitted (data : gmap string string) (resume_file : option FileStorage)
    (f : FileStorage) (name : string) : Prop :=
  forallb (field_filled data) required_fields = true /\
  (exists email, data !! "email" = Some email /\ Re.match_anchored EMAIL_RE email = true) /\
  (exists phone, data !! "phone" = Some phone /\ Re.match_anchored PHONE_RE phone = true) /\
  resume_file = Some f /\ filename f = Some name /\ name <> EmptyString.

(** The answer of the application handler without the world. *)
Definition answer_of (data : gmap string string) (resume_file : option FileStorage)
    (w : World) : result Response :=
  fst (submit_application data resume_file w).

(** The requests that were answered with 200. *)
Fixpoint accepted (requests : list ApplicationRequest) (responses : list Response)
    : list ApplicationRequest :=
  match requests, responses with
  | rq :: rest, r :: rs =>
      if (status r =? 200)%Z then rq :: accepted rest rs else accepted rest rs
  | _, _ => []
  end.

End Application.

End App.

(** ** A deployment and requests for the examples *)

Module Demo.
Import Json Py App.

Definition cfg : Config :=
  {| BASE_DIR := "/srv/app";
     SENDER_EMAIL := Some "noreply@ingrowwth.example";
     RECEIVER_EMAIL := Some "team@ingrowwth.example";
     secure_filename := fun name => name;
     str_value := fun _ => "<value>";
     str_exn := fun _ => "<error>" |}.

Definition template : string := "<p>Dear {first_name} {last_name}, we received your application for {role_name}.</p>".

Definition world : World :=
  {| files := {[ "/srv/app/templates/reply_email.html" := template ]};
     readable := fun _ => true;
     writable := fun _ => true;
     smtp_ok := fun n => Nat.even n;
     mail_calls := 0;
     outbox := [];
     uuid_source := fun n => (1000000007 * N.of_nat (S n))%N;
     uuid_calls := 0;
     clock := fun _ => "2024-05-01T10:00:00";
     clock_calls := 0;
     log := [] |}.

(** The same deployment with a store file that holds an object. *)
Definition world_bad_store : World :=
  set_files (<["/srv/app/applications.json" := "{}"]> (files world)) world.

Definition application_form : gmap string string :=
  list_to_map
    [("firstName", "Ann"); ("lastName", "Lee"); ("email", "ann@x.com");
     ("phone", "9123456789"); ("workExp", "2"); ("applyingFor", "Developer");
     ("github", "github.com/ann"); ("linkedin", "linkedin.com/in/ann")].

Definition cv : option FileStorage :=
  Some {| filename := Some "cv.pdf"; stream := "%PDF-1.4" |}.

Definition contact_fields_of (name email : string) : list (string * json) :=
  [("name", JStr name); ("email", JStr email);
   ("subject", JStr "Pricing"); ("message", JStr "Hi")].

(** The record of [application_form] in [w], the world in which it is
    handed to the store, and the world the store leaves. *)
Definition record_in (w : World) : json :=
  match fst (prepare_application cfg application_form cv w) with
  | Ok (inr record) => record
  | _ => JNull
  end.

Definition prepared_in (w : World) : World :=
  snd (prepare_application cfg application_form cv w).

Definition saved_in (w : World) : World :=
  snd (save_application_data cfg (record_in w) (prepared_in w)).

(** Two submissions, the second with another address. *)
Definition two_requests : list ApplicationRequest :=
  [{| form := application_form; resume := cv |};
   {| form := <["email" := "bob@y.org"]> application_form; resume := cv |}].

(** A phone number of ten digits followed by a line feed. *)
Definition phone_with_line_feed : string := "9123456789" +:+ Re.line_feed.

(** An address followed by a line feed. *)
Definition email_with_line_feed : string := "ann@x.com" +:+ Re.line_feed.

(** The deployment without a receiver for the company mail. *)
Definition cfg_no_receiver : Config :=
  {| BASE_DIR := "/srv/app";
     SENDER_EMAIL := Some "noreply@ingrowwth.example";
     RECEIVER_EMAIL := None;
     secure_filename := fun name => name;
     str_value := fun _ => "<value>";
     str_exn := fun _ => "<error>" |}.

(** The deployment with a logo on the disk. *)
Definition world_with_logo : World :=
  set_files (<["/srv/app/assets/images/company_logo.png" := "PNG"]> (files world)) world.

(** The deployment on a disk where only the store can be written. *)
Definition world_no_uploads : World :=
  {| files := files world;
     readable := fun _ => true;
     writable := fun p => String.eqb p "/srv/app/applications.json";
     smtp_ok := smtp_ok world;
     mail_calls := 0;
     outbox := [];
     uuid_source := uuid_source world;
     uuid_calls := 0;
     clock := clock world;
     clock_calls := 0;
     log := [] |}.

(** The uploaded file of [cv]. *)
Definition cv_file : FileStorage := {| filename := Some "cv.pdf"; stream := "%PDF-1.4" |}.

(** A refused request between two accepted ones. *)
Definition three_requests : list ApplicationRequest :=
  [{| form := application_form; resume := cv |};
   {| form := <["phone" := "12345"]> application_form; resume := cv |};
   {| form := <["email" := "bob@y.org"]> application_form; resume := cv |}].

End Demo.

(** * Facts *)

(** ** Text *)

Module StrFacts.
Local Arguments String.append : simpl nomatch.

Lemma append_nil_r s : s +:+ EmptyString = s.
Proof. induction s; simpl; congruence. Qed.

Lemma append_assoc s1 s2 s3 : (s1 +:+ s2) +:+ s3 = s1 +:+ s2 +:+ s3.
Proof. induction s1; simpl; congruence. Qed.

Lemma length_append s1 s2 : String.length (s1 +:+ s2) = String.length s1 + String.length s2.
Proof. induction s1; simpl; congruence. Qed.

Lemma append_inv_head s t1 t2 : s +:+ t1 = s +:+ t2 -> t1 = t2.
Proof. induction s; simpl; intros H; [done | injection H; auto]. Qed.

Lemma append_cons c s t : String c s +:+ t = String c (s +:+ t).
Proof. reflexivity. Qed.

End StrFacts.

(** ** Regular expressions: the matcher decides the language *)

Module ReFacts.
Import Re StrFacts.
Local Arguments String.append : simpl nomatch.

Lemma append_eq_nil s t : s +:+ t = EmptyString -> s = EmptyString /\ t = EmptyString.
Proof. destruct s; simpl; [auto | discriminate]. Qed.

Lemma append_eq_cons s t c u :
  s +:+ t = String c u ->
  (s = EmptyString /\ t = String c u) \/ (exists s', s = String c s' /\ u = s' +:+ t).
Proof.
  destruct s as [|a s]; simpl; intros H.
  - now left.
  - injection H as -> <-. right. eauto.
Qed.

Lemma nullable_lang r : nullable r = true <-> lang r EmptyString.
Proof.
  split.
  - induction r; simpl; intros H; try discriminate.
    + constructor.
    + apply andb_true_iff in H as [H1 H2].
      change EmptyString with (EmptyString +:+ EmptyString). constructor; auto.
    + apply orb_true_iff in H as [H | H]; [apply lang_alt_l | apply lang_alt_r]; auto.
    + constructor.
  - intros H. remember EmptyString as s eqn:Es.
    induction H; simpl; try reflexivity; try discriminate.
    + apply append_eq_nil in Es as [-> ->]. rewrite IHlang1, IHlang2; auto.
    + rewrite IHlang; auto.
    + rewrite IHlang; auto. apply orb_true_r.
Qed.

Lemma lang_star_cons_inv r c u :
  lang (Star r) (String c u) ->
  exists s1 s2, u = s1 +:+ s2 /\ lang r (String c s1) /\ lang (Star r) s2.
Proof.
  intros H. remember (Star r) as q eqn:Eq. remember (String c u) as s eqn:Es.
  induction H; try discriminate.
  injection Eq as ->.
  apply append_eq_cons in Es as [[-> ->] | (s' & -> & ->)].
  - apply IHlang2; reflexivity.
  - eauto.
Qed.

Lemma lang_void_inv s : lang Void s -> False.
Proof. inversion 1. Qed.

Lemma lang_eps_inv s : lang Eps s -> s = EmptyString.
Proof. now inversion 1. Qed.

Lemma lang_chr_inv p s : lang (Chr p) s -> exists c, s = String c EmptyString /\ p c = true.
Proof. inversion 1; subst; eauto. Qed.

Lemma lang_cat_inv r1 r2 s :
  lang (Cat r1 r2) s -> exists s1 s2, s = s1 +:+ s2 /\ lang r1 s1 /\ lang r2 s2.
Proof. inversion 1; subst; eauto. Qed.

Lemma lang_alt_inv r1 r2 s : lang (Alt r1 r2) s -> lang r1 s \/ lang r2 s.
Proof. inversion 1; subst; auto. Qed.

Lemma lang_cat_cons r1 r2 c s1 s2 :
  lang r1 (String c s1) -> lang r2 s2 -> lang (Cat r1 r2) (String c (s1 +:+ s2)).
Proof. intros H1 H2. change (String c (s1 +:+ s2)) with (String c s1 +:+ s2). now constructor. Qed.

Lemma deriv_lang r : forall c s, lang (deriv c r) s <-> lang r (String c s).
Proof.
  induction r as [| | p | r1 IH1 r2 IH2 | r1 IH1 r2 IH2 | r IH]; intros c s; simpl.
  - split; intros H; now apply lang_void_inv in H.
  - split; intros H; [now apply lang_void_inv in H | apply lang_eps_inv in H; discriminate].
  - split.
    + destruct (p c) eqn:E; intros H; [|now apply lang_void_inv in H].
      apply lang_eps_inv in H as ->. now constructor.
    + intros H. apply lang_chr_inv in H as (c' & E & Hp). injection E as <- ->.
      rewrite Hp. constructor.
  - split.
    + destruct (nullable r1) eqn:En; intros H.
      * apply lang_alt_inv in H as [H | H].
        -- apply lang_cat_inv in H as (s1 & s2 & -> & H1 & H2).
           apply IH1 in H1. now apply lang_cat_cons.
        -- apply IH2 in H. apply nullable_lang in En.
           change (String c s) with (EmptyString +:+ String c s). now constructor.
      * apply lang_cat_inv in H as (s1 & s2 & -> & H1 & H2).
        apply IH1 in H1. now apply lang_cat_cons.
    + intros H. apply lang_cat_inv in H as (s1 & s2 & E & H1 & H2).
      symmetry in E. apply append_eq_cons in E as [[-> ->] | (s' & -> & ->)].
      * apply nullable_lang in H1. rewrite H1. apply lang_alt_r. now apply IH2.
      * apply IH1 in H1.
        destruct (nullable r1); [apply lang_alt_l|]; now constructor.
  - split; intros H.
    + apply lang_alt_inv in H as [H | H];
        [apply lang_alt_l; now apply IH1 | apply lang_alt_r; now apply IH2].
    + apply lang_alt_inv in H as [H | H];
        [apply lang_alt_l; now apply IH1 | apply lang_alt_r; now apply IH2].
  - split; intros H.
    + apply lang_cat_inv in H as (s1 & s2 & -> & H1 & H2). apply IH in H1.
      change (String c (s1 +:+ s2)) with (String c s1 +:+ s2). now constructor.
    + apply lang_star_cons_inv in H as (s1 & s2 & -> & H1 & H2).
      constructor; [now apply IH | assumption].
Qed.

Theorem fullmatch_lang s : forall r, fullmatch r s = true <-> lang r s.
Proof.
  induction s as [|c s IH]; intros r; simpl.
  - apply nullable_lang.
  - rewrite IH. apply deriv_lang.
Qed.

Lemma all_chars_app p s t :
  PyStr.all_chars p (s +:+ t) = PyStr.all_chars p s && PyStr.all_chars p t.
Proof. induction s; simpl; [reflexivity|]. now rewrite IHs, andb_assoc. Qed.

Lemma lang_star_chr p s : lang (Star (Chr p)) s <-> PyStr.all_chars p s = true.
Proof.
  split.
  - intros H. remember (Star (Chr p)) as r eqn:Er.
    induction H; try discriminate; [reflexivity|].
    injection Er as ->. apply lang_chr_inv in H as (c & -> & Hc).
    simpl. rewrite Hc. now apply IHlang2.
  - induction s as [|c s IH]; simpl; intros H; [constructor|].
    apply andb_true_iff in H as [Hc Hs].
    change (String c s) with (String c EmptyString +:+ s).
    constructor; [now constructor | auto].
Qed.

Lemma lang_rep_chr p n : forall s,
  lang (Rep n (Chr p)) s <-> String.length s = n /\ PyStr.all_chars p s = true.
Proof.
  induction n as [|n IH]; intros s; simpl.
  - split.
    + intros H. apply lang_eps_inv in H as ->. auto.
    + intros [H _]. destruct s; [constructor | discriminate].
  - split.
    + intros H. apply lang_cat_inv in H as (s1 & s2 & -> & H1 & H2).
      apply lang_chr_inv in H1 as (c & -> & Hc). apply IH in H2 as [Hl Ha].
      simpl. rewrite Hc, Hl. auto.
    + intros [Hl Ha]. destruct s as [|c s]; [discriminate|]. simpl in *.
      apply andb_true_iff in Ha as [Hc Ha].
      change (String c s) with (String c EmptyString +:+ s).
      constructor; [now constructor|]. apply IH. split; [lia | assumption].
Qed.

Lemma lang_plus_chr p s :
  lang (Plus (Chr p)) s <-> s <> EmptyString /\ PyStr.all_chars p s = true.
Proof.
  unfold Plus. split.
  - intros H. apply lang_cat_inv in H as (s1 & s2 & -> & H1 & H2).
    apply lang_chr_inv in H1 as (c & -> & Hc). apply lang_star_chr in H2.
    simpl. rewrite Hc, H2. split; [discriminate | reflexivity].
  - intros [Hn Ha]. destruct s as [|c s]; [congruence|]. simpl in Ha.
    apply andb_true_iff in Ha as [Hc Ha].
    change (String c s) with (String c EmptyString +:+ s).
    constructor; [now constructor | now apply lang_star_chr].
Qed.

Lemma split_at n : forall s,
  n <= String.length s ->
  exists s1 s2, s = s1 +:+ s2 /\ String.length s1 = n.
Proof.
  induction n as [|n IH]; intros s Hl.
  - exists EmptyString, s. auto.
  - destruct s as [|c s]; [simpl in Hl; lia|]. simpl in Hl.
    destruct (IH s) as (s1 & s2 & -> & Hn); [lia|].
    exists (String c s1), s2. simpl. auto.
Qed.

Lemma lang_atleast_chr p n s :
  lang (AtLeast n (Chr p)) s <-> n <= String.length s /\ PyStr.all_chars p s = true.
Proof.
  unfold AtLeast. split.
  - intros H. apply lang_cat_inv in H as (s1 & s2 & -> & H1 & H2).
    apply lang_rep_chr in H1 as [Hl Ha]. apply lang_star_chr in H2.
    rewrite length_append, all_chars_app, Ha, H2. split; [lia | reflexivity].
  - intros [Hl Ha]. destruct (split_at n s Hl) as (s1 & s2 & -> & Hn).
    rewrite all_chars_app in Ha. apply andb_true_iff in Ha as [Ha1 Ha2].
    constructor; [apply lang_rep_chr | apply lang_star_chr]; auto.
Qed.

Lemma lang_char c s : lang (Chr (Ascii.eqb c)) s <-> s = String c EmptyString.
Proof.
  split.
  - intros H. apply lang_chr_inv in H as (c' & -> & Hc). apply Ascii.eqb_eq in Hc. now subst.
  - intros ->. constructor. apply Ascii.eqb_refl.
Qed.

Theorem match_anchored_lang body s :
  match_anchored body s = true <->
  lang body s \/ exists t, s = t +:+ line_feed /\ lang body t.
Proof.
  unfold match_anchored, Opt. rewrite fullmatch_lang. split.
  - intros H. apply lang_cat_inv in H as (s1 & s2 & -> & H1 & H2).
    apply lang_alt_inv in H2 as [H2 | H2].
    + apply lang_eps_inv in H2 as ->. rewrite append_nil_r. now left.
    + apply lang_char in H2 as ->. right. eauto.
  - intros [H | (t & -> & H)].
    + rewrite <- (append_nil_r s). constructor; [assumption|]. apply lang_alt_l. constructor.
    + constructor; [assumption|]. apply lang_alt_r. now apply lang_char.
Qed.

End ReFacts.

(** ** [json]: what [dump] writes, [loads] reads back *)

Module JsonFacts.
Import Json StrFacts.
Local Arguments String.append : simpl nomatch.

Lemma scan_escape_char c tail :
  scan_chars (escape_char c +:+ tail)
  = match scan_chars tail with
    | Some (t, rest) => Some (String c t, rest)
    | None => None
    end.
Proof.
  destruct c as [[|] [|] [|] [|] [|] [|] [|] [|]]; reflexivity.
Qed.

Lemma scan_escape s rest :
  scan_chars (escape s +:+ String dquote rest) = Some (s, rest).
Proof.
  induction s as [|c s IH]; simpl.
  - reflexivity.
  - rewrite append_assoc, scan_escape_char, IH. reflexivity.
Qed.

Lemma take_digits_uint u rest :
  follow_ok rest = true ->
  take_digits (NilEmpty.string_of_uint u +:+ rest) = (u, rest).
Proof.
  intros Hr. induction u; simpl; try (rewrite IHu; reflexivity).
  destruct rest as [|c r]; [reflexivity|]. simpl in *.
  destruct (digit_of c); [discriminate | reflexivity].
Qed.

Lemma nzhead_not_D0 d : match Decimal.nzhead d with Decimal.D0 _ => False | _ => True end.
Proof. induction d; simpl; auto. Qed.

Lemma to_uint_shape n :
  match N.to_uint n with
  | Decimal.Nil => False
  | Decimal.D0 Decimal.Nil => True
  | Decimal.D0 _ => False
  | _ => True
  end.
Proof.
  assert (E : N.to_uint n = Decimal.unorm (N.to_uint n)).
  { rewrite <- DecimalN.Unsigned.to_of, DecimalN.Unsigned.of_to. reflexivity. }
  rewrite E. unfold Decimal.unorm.
  pose proof (nzhead_not_D0 (N.to_uint n)) as H.
  destruct (Decimal.nzhead (N.to_uint n)); auto; contradiction.
Qed.

Lemma string_of_to_uint n :
  NilZero.string_of_uint (N.to_uint n) = NilEmpty.string_of_uint (N.to_uint n).
Proof.
  pose proof (to_uint_shape n) as H. unfold NilZero.string_of_uint.
  destruct (N.to_uint n); [contradiction | reflexivity ..].
Qed.

Lemma uint_head u :
  u <> Decimal.Nil ->
  exists c s, NilEmpty.string_of_uint u = String c s /\ PyStr.is_digit c = true.
Proof. destruct u; [congruence | simpl; eauto ..]. Qed.

Lemma scan_number_dump z rest :
  follow_ok rest = true ->
  scan_number (dump_int z +:+ rest) = Some (z, rest).
Proof.
  intros Hr. unfold dump_int, scan_number.
  assert (Hfm : float_mark rest = false).
  { destruct rest as [|c r]; [reflexivity|]. simpl in Hr.
    destruct (digit_of c); [discriminate|]. now apply negb_true_iff in Hr. }
  destruct (Z.ltb_spec z 0) as [Hneg | Hpos].
  - simpl. change (code_is 45 "-") with true. cbv iota.
    rewrite string_of_to_uint, take_digits_uint by assumption.
    pose proof (to_uint_shape (Z.to_N (- z))) as Hs.
    rewrite Hfm.
    replace (Z.of_N (N.of_uint (N.to_uint (Z.to_N (- z))))) with (- z)%Z
      by (rewrite DecimalN.Unsigned.of_to; lia).
    destruct (N.to_uint (Z.to_N (- z))) as [|[]| | | | | | | | |]; simpl in *;
      try contradiction; f_equal; f_equal; lia.
  - rewrite string_of_to_uint.
    pose proof (to_uint_shape (Z.to_N z)) as Hs.
    destruct (uint_head (N.to_uint (Z.to_N z))) as (c & s & Hc & Hd).
    { intros E; rewrite E in Hs; exact Hs. }
    assert (Hm : code_is 45 c = false).
    { clear - Hd. destruct c as [[|] [|] [|] [|] [|] [|] [|] [|]]; try reflexivity; discriminate. }
    rewrite Hc. simpl. rewrite Hm. rewrite <- append_cons, <- Hc.
    rewrite take_digits_uint by assumption. rewrite Hfm.
    replace (Z.of_N (N.of_uint (N.to_uint (Z.to_N z)))) with z
      by (rewrite DecimalN.Unsigned.of_to; lia).
    destruct (N.to_uint (Z.to_N z)) as [|[]| | | | | | | | |]; simpl in *;
      try contradiction; reflexivity.
Qed.

Lemma skip_ws_spaces n s : skip_ws (spaces n +:+ s) = skip_ws s.
Proof. induction n; simpl; auto. Qed.

Lemma skip_ws_indent lvl s : skip_ws (newline_indent lvl +:+ s) = skip_ws s.
Proof. unfold newline_indent. simpl. apply skip_ws_spaces. Qed.

Lemma skip_ws_start c s : value_start c = true -> skip_ws (String c s) = String c s.
Proof.
  unfold value_start. intros H. simpl.
  destruct (is_ws c); [discriminate | reflexivity].
Qed.

Lemma skip_ws_nonws c s : is_ws c = false -> skip_ws (String c s) = String c s.
Proof. intros H. simpl. now rewrite H. Qed.

Lemma dump_int_head z :
  exists c s, dump_int z = String c s /\ (code_is 45 c || PyStr.is_digit c = true).
Proof.
  unfold dump_int. destruct (z <? 0)%Z.
  - eexists _, _. split; [reflexivity | reflexivity].
  - rewrite string_of_to_uint.
    destruct (uint_head (N.to_uint (Z.to_N z))) as (c & s & -> & Hd).
    { pose proof (to_uint_shape (Z.to_N z)) as Hs. intros E. now rewrite E in Hs. }
    exists c, s. split; [reflexivity|]. rewrite Hd. apply orb_true_r.
Qed.

Lemma dump_head lvl v :
  exists c s, dump lvl v = String c s /\ value_start c = true.
Proof.
  destruct v as [| [|] | z | s | [|e l] | [|kv d]]; simpl;
    try (eexists _, _; split; [reflexivity | reflexivity]).
  destruct (dump_int_head z) as (c & s & -> & Hc).
  exists c, s. split; [reflexivity|].
  clear - Hc. destruct c as [[|] [|] [|] [|] [|] [|] [|] [|]]; try reflexivity; discriminate.
Qed.

Lemma join_head (sep : string) (f : json -> string) l :
  l <> [] ->
  (forall v, exists c s, f v = String c s /\ value_start c = true) ->
  exists c s, join sep (List.map f l) = String c s /\ value_start c = true.
Proof.
  intros Hl Hf. destruct l as [|e l]; [congruence|].
  destruct (Hf e) as (c & s & Hc & Hs). simpl. rewrite Hc.
  destruct (List.map f l); simpl; eauto.
Qed.

Lemma follow_ok_indent lvl s : follow_ok (newline_indent lvl +:+ s) = true.
Proof. reflexivity. Qed.

Lemma value_start_codes c :
  value_start c = true ->
  is_ws c = false /\ code_is 93 c = false /\ code_is 125 c = false /\ code_is 44 c = false.
Proof.
  unfold value_start. intros H.
  repeat (apply andb_true_iff in H; destruct H as [H ?]).
  repeat split; now apply negb_true_iff.
Qed.

Lemma skip_ws_value x t :
  (exists c s, x = String c s /\ value_start c = true) ->
  skip_ws (x +:+ t) = x +:+ t.
Proof. intros (c & s & -> & Hc). rewrite append_cons. now apply skip_ws_start. Qed.

Lemma scan_elems_join lvl l :
  l <> [] -> Forall scans l ->
  forall fuel rest,
    list_sum (List.map (fun e => S (cost e)) l) <= fuel ->
    scan_elems fuel
      (join ("," +:+ newline_indent (S lvl)) (List.map (dump (S lvl)) l)
       +:+ newline_indent lvl +:+ "]" +:+ rest)
    = Some (l, rest).
Proof.
  induction l as [|e l IH]; [congruence|]. intros _ Hall fuel rest Hfuel.
  apply Forall_cons in Hall as [He Hl].
  simpl in Hfuel. destruct fuel as [|f]; [lia|].
  destruct l as [|e2 l2].
  - change (join ("," +:+ newline_indent (S lvl)) (List.map (dump (S lvl)) [e]))
      with (dump (S lvl) e).
    cbn [scan_elems]. rewrite He by (simpl; auto with lia).
    rewrite skip_ws_indent. reflexivity.
  - change (join ("," +:+ newline_indent (S lvl)) (List.map (dump (S lvl)) (e :: e2 :: l2)))
      with (dump (S lvl) e +:+ ("," +:+ newline_indent (S lvl))
            +:+ join ("," +:+ newline_indent (S lvl)) (List.map (dump (S lvl)) (e2 :: l2))).
    rewrite !append_assoc.
    cbn [scan_elems]. rewrite He by (simpl; auto with lia).
    change ("," +:+ ?x) with (String "," x). rewrite skip_ws_nonws by reflexivity.
    change (code_is 44 ",") with true. cbv iota.
    rewrite skip_ws_indent, skip_ws_value
      by (apply join_head; [congruence | apply dump_head]).
    rewrite IH; [reflexivity | congruence | assumption | simpl in *; lia].
Qed.

Lemma join_one sep (A : Type) (f : A -> string) a T :
  join sep (List.map f [a]) +:+ T = f a +:+ T.
Proof. reflexivity. Qed.

Lemma join_two sep (A : Type) (f : A -> string) a b l T :
  join sep (List.map f (a :: b :: l)) +:+ T
  = f a +:+ sep +:+ join sep (List.map f (b :: l)) +:+ T.
Proof.
  change (join sep (List.map f (a :: b :: l)))
    with (f a +:+ sep +:+ join sep (List.map f (b :: l))).
  now rewrite !append_assoc.
Qed.

Lemma sep_app lvl X :
  ("," +:+ newline_indent lvl) +:+ X = String "," (newline_indent lvl +:+ X).
Proof. reflexivity. Qed.

Lemma dump_member_app lvl k v T :
  dump_member lvl (k, v) +:+ T
  = String dquote (escape k +:+ String dquote (String ":" (String " " (dump lvl v +:+ T)))).
Proof.
  unfold dump_member, dump_str. cbn [fst snd].
  rewrite !append_assoc, append_cons. f_equal.
  rewrite append_assoc. reflexivity.
Qed.

Ltac member_step Hv :=
  rewrite dump_member_app; cbn [scan_members];
  change (code_is 34 dquote) with true; cbv iota;
  rewrite scan_escape;
  rewrite skip_ws_nonws by reflexivity;
  change (code_is 58 ":") with true; cbv iota;
  change (skip_ws (String " " ?x)) with (skip_ws x);
  rewrite skip_ws_value by apply dump_head;
  rewrite Hv by (simpl; auto with lia).

Lemma members_head sep lvl d :
  d <> [] ->
  exists s, join sep (List.map (dump_member lvl) d) = String dquote s.
Proof.
  destruct d as [|kv d]; [congruence|]. intros _. simpl.
  destruct (List.map (dump_member lvl) d); unfold dump_member, dump_str; simpl; eauto.
Qed.

Lemma scan_members_join lvl d :
  d <> [] -> Forall (fun kv => scans (snd kv)) d ->
  forall fuel rest,
    list_sum (List.map (fun kv => S (cost (snd kv))) d) <= fuel ->
    scan_members fuel
      (join ("," +:+ newline_indent (S lvl)) (List.map (dump_member (S lvl)) d)
       +:+ newline_indent lvl +:+ "}" +:+ rest)
    = Some (d, rest).
Proof.
  induction d as [|[k v] d IH]; [congruence|]. intros _ Hall fuel rest Hfuel.
  apply Forall_cons in Hall as [Hv Hd]. cbn [snd] in Hv.
  simpl in Hfuel. destruct fuel as [|f]; [lia|].
  destruct d as [|kv2 d2].
  - rewrite join_one. member_step Hv.
    rewrite skip_ws_indent. reflexivity.
  - rewrite join_two. member_step Hv.
    rewrite sep_app, skip_ws_nonws by reflexivity.
    change (code_is 44 ",") with true. cbv iota.
    rewrite skip_ws_indent.
    destruct (members_head ("," +:+ newline_indent (S lvl)) (S lvl) (kv2 :: d2)) as [s Hs];
      [congruence|].
    rewrite skip_ws_value by (rewrite Hs; eexists _, _; split; reflexivity).
    rewrite IH; [reflexivity | congruence | assumption | simpl in *; lia].
Qed.

Theorem scan_dump v : scans v.
Proof.
  induction v using json_ind; intros lvl fuel rest Hfuel Hrest;
    (destruct fuel as [|f]; [simpl in Hfuel; lia|]).
  - reflexivity.
  - destruct b; reflexivity.
  - destruct (dump_int_head z) as (c & s & Hc & Hd).
    cbn [dump]. pose proof (scan_number_dump z rest Hrest) as Hn.
    rewrite Hc in *. rewrite append_cons in *. cbn [scan_value]. rewrite Hn.
    clear - Hd. destruct c as [[|] [|] [|] [|] [|] [|] [|] [|]]; try reflexivity; discriminate.
  - cbn [dump]. unfold dump_str. rewrite append_cons, append_assoc.
    cbn [scan_value]. change (code_is 34 dquote) with true. cbv iota.
    rewrite append_cons. change (EmptyString +:+ rest) with rest.
    now rewrite scan_escape.
  - destruct l as [|e l]; [reflexivity|].
    change (dump lvl (JArr (e :: l)))
      with ("[" +:+ newline_indent (S lvl)
            +:+ join ("," +:+ newline_indent (S lvl)) (List.map (dump (S lvl)) (e :: l))
            +:+ newline_indent lvl +:+ "]").
    rewrite !append_assoc. change ("[" +:+ ?x) with (String "[" x).
    cbn [scan_value]. change (code_is 34 "[") with false. change (code_is 123 "[") with false.
    change (code_is 91 "[") with true. cbv iota.
    rewrite skip_ws_indent.
    destruct (join_head ("," +:+ newline_indent (S lvl)) (dump (S lvl)) (e :: l))
      as (c & s & Hj & Hc); [congruence | apply dump_head |].
    rewrite skip_ws_value by eauto.
    rewrite Hj at 1. rewrite append_cons.
    destruct (value_start_codes c Hc) as (_ & -> & _ & _).
    rewrite <- append_cons, <- Hj.
    rewrite scan_elems_join; [reflexivity | congruence | assumption | simpl in *; lia].
  - destruct d as [|kv d]; [reflexivity|].
    change (dump lvl (JObj (kv :: d)))
      with ("{" +:+ newline_indent (S lvl)
            +:+ join ("," +:+ newline_indent (S lvl)) (List.map (dump_member (S lvl)) (kv :: d))
            +:+ newline_indent lvl +:+ "}").
    rewrite !append_assoc. change ("{" +:+ ?x) with (String "{" x).
    cbn [scan_value]. change (code_is 34 "{") with false. change (code_is 123 "{") with true.
    cbv iota. rewrite skip_ws_indent.
    destruct (members_head ("," +:+ newline_indent (S lvl)) (S lvl) (kv :: d)) as [s Hs];
      [congruence|].
    rewrite skip_ws_value by (rewrite Hs; eexists _, _; split; reflexivity).
    rewrite Hs at 1. rewrite append_cons. change (code_is 125 dquote) with false. cbv iota.
    rewrite <- append_cons, <- Hs.
    rewrite scan_members_join; [reflexivity | congruence | assumption | simpl in *; lia].
Qed.

Lemma dict_set_fresh k v acc :
  existsb (String.eqb k) (List.map fst acc) = false ->
  dict_set k v acc = acc ++ [(k, v)].
Proof.
  induction acc as [|[k' v'] acc IH]; simpl; [reflexivity|].
  intros H. apply orb_false_iff in H as [H1 H2]. rewrite H1, IH by assumption. reflexivity.
Qed.

Lemma existsb_app_false {A} (p : A -> bool) l1 l2 :
  existsb p (l1 ++ l2) = false <-> existsb p l1 = false /\ existsb p l2 = false.
Proof. rewrite existsb_app. apply orb_false_iff. Qed.

Lemma distinct_app_cons k l1 l2 :
  distinct (l1 ++ k :: l2) = true ->
  existsb (String.eqb k) l1 = false /\ distinct ((l1 ++ [k]) ++ l2) = true.
Proof.
  induction l1 as [|a l1 IH]; simpl.
  - intros H. split; [reflexivity | exact H].
  - intros H. apply andb_true_iff in H as [Ha Hd].
    destruct (IH Hd) as [Hk Hd']. apply negb_true_iff in Ha.
    apply existsb_app_false in Ha as [Ha1 Ha2]. simpl in Ha2.
    apply orb_false_iff in Ha2 as [Hak Ha2].
    split.
    + apply orb_false_iff. split; [|assumption].
      rewrite String.eqb_sym. exact Hak.
    + apply andb_true_iff. split; [|assumption]. apply negb_true_iff.
      rewrite <- app_assoc. simpl. apply existsb_app_false. split; [assumption|].
      simpl. now rewrite Hak, Ha2.
Qed.

Lemma build_dict_distinct acc d :
  distinct (List.map fst (acc ++ d)) = true -> build_dict acc d = acc ++ d.
Proof.
  revert acc. induction d as [|[k v] d IH]; intros acc H; simpl.
  - now rewrite app_nil_r.
  - rewrite List.map_app in H. simpl in H.
    apply distinct_app_cons in H as [Hk Hd].
    rewrite dict_set_fresh by assumption.
    rewrite IH.
    + now rewrite <- app_assoc.
    + rewrite !List.map_app. simpl. exact Hd.
Qed.

Lemma normalize_well_formed v : well_formed v = true -> normalize v = v.
Proof.
  induction v using json_ind; intros Hwf; try reflexivity.
  - simpl in *. f_equal. induction H as [|e l He Hl IH]; [reflexivity|].
    simpl in Hwf. apply andb_true_iff in Hwf as [H1 H2].
    simpl. rewrite He, IH by assumption. reflexivity.
  - simpl in *. apply andb_true_iff in Hwf as [Hd Hall]. f_equal.
    assert (E : List.map (fun kv => (fst kv, normalize (snd kv))) d = d).
    { clear Hd. induction H as [|[k v] l He Hl IH]; [reflexivity|].
      simpl in Hall. apply andb_true_iff in Hall as [H1 H2].
      simpl in *. rewrite He, IH by assumption. reflexivity. }
    rewrite E. now apply (build_dict_distinct []).
Qed.

Lemma length_indent lvl : 1 <= String.length (newline_indent lvl).
Proof. unfold newline_indent. simpl. lia. Qed.

Lemma cost_join sep (A : Type) (f : A -> string) (c : A -> nat) l :
  1 <= String.length sep ->
  Forall (fun e => c e <= String.length (f e)) l ->
  list_sum (List.map (fun e => S (c e)) l) <= S (String.length (join sep (List.map f l))).
Proof.
  intros Hsep Hall. induction Hall as [|e l He Hl IH]; simpl; [lia|].
  destruct l as [|e2 l2]; simpl in *; [lia|].
  rewrite !length_append. lia.
Qed.

Lemma cost_dump v : forall lvl, cost v <= String.length (dump lvl v).
Proof.
  induction v using json_ind; intros lvl.
  - simpl; lia.
  - destruct b; simpl; lia.
  - destruct (dump_int_head z) as (c & s & Hc & _). simpl. rewrite Hc. simpl. lia.
  - simpl. lia.
  - destruct l as [|e l]; [simpl; lia|].
    change (dump lvl (JArr (e :: l)))
      with ("[" +:+ newline_indent (S lvl)
            +:+ join ("," +:+ newline_indent (S lvl)) (List.map (dump (S lvl)) (e :: l))
            +:+ newline_indent lvl +:+ "]").
    rewrite !length_append.
    pose proof (length_indent lvl). pose proof (length_indent (S lvl)).
    pose proof (cost_join ("," +:+ newline_indent (S lvl)) json (dump (S lvl)) cost (e :: l)) as Hj.
    cbn [cost]. cbn [String.length]. 
    assert (list_sum (List.map (fun e0 => S (cost e0)) (e :: l))
            <= S (String.length (join ("," +:+ newline_indent (S lvl)) (List.map (dump (S lvl)) (e :: l))))).
    { apply Hj. - rewrite length_append. simpl. lia.
      - eapply Forall_impl; [exact H|]. simpl. auto. }
    lia.
  - destruct d as [|kv d]; [simpl; lia|].
    change (dump lvl (JObj (kv :: d)))
      with ("{" +:+ newline_indent (S lvl)
            +:+ join ("," +:+ newline_indent (S lvl)) (List.map (dump_member (S lvl)) (kv :: d))
            +:+ newline_indent lvl +:+ "}").
    rewrite !length_append.
    pose proof (length_indent lvl). pose proof (length_indent (S lvl)).
    pose proof (cost_join ("," +:+ newline_indent (S lvl)) _ (dump_member (S lvl))
                  (fun kv => cost (snd kv)) (kv :: d)) as Hj.
    cbn [cost]. cbn [String.length].
    assert (list_sum (List.map (fun kv0 => S (cost (snd kv0))) (kv :: d))
            <= S (String.length (join ("," +:+ newline_indent (S lvl)) (List.map (dump_member (S lvl)) (kv :: d))))).
    { apply Hj. - rewrite length_append. simpl. lia.
      - eapply Forall_impl; [exact H|]. simpl. intros x Hx. unfold dump_member.
        rewrite !length_append. specialize (Hx (S lvl)). cbn [String.length]. lia. }
    lia.
Qed.

Theorem loads_dumps v : well_formed v = true -> loads (dumps v) = Some v.
Proof.
  intros Hwf. unfold loads, dumps.
  pose proof (skip_ws_value (dump 0 v) EmptyString (dump_head 0 v)) as Hs.
  rewrite append_nil_r in Hs. rewrite Hs.
  pose proof (scan_dump v 0 (S (String.length (dump 0 v))) EmptyString) as Hd.
  rewrite append_nil_r in Hd. rewrite Hd.
  - simpl. now rewrite normalize_well_formed.
  - pose proof (cost_dump v 0). lia.
  - reflexivity.
Qed.

Lemma dumps_nonempty v : String.length (dumps v) <> 0.
Proof.
  unfold dumps. destruct (dump_head 0 v) as (c & s & -> & _). simpl. lia.
Qed.

End JsonFacts.

(** ** The runtime: UUIDs and paths *)

Module PyFacts.
Import Json Py StrFacts.
Local Arguments String.append : simpl nomatch.

(** *** Hexadecimal digits and UUIDs *)

Lemma below_16 (x : N) : (x < 16)%N -> In x (List.map N.of_nat (seq 0 16)).
Proof.
  intros H. apply in_map_iff. exists (N.to_nat x). split; [apply N2Nat.id|].
  apply in_seq. lia.
Qed.

Lemma hex_value_char x : (x < 16)%N -> hex_value (hex_char x) = Some x.
Proof.
  intros H. apply below_16 in H. simpl in H.
  repeat (destruct H as [<- | H]; [reflexivity|]). contradiction.
Qed.

Lemma hex_char_plain x :
  (x < 16)%N -> code_is 47 (hex_char x) = false /\ code_is 45 (hex_char x) = false.
Proof.
  intros H. apply below_16 in H. simpl in H.
  repeat (destruct H as [<- | H]; [split; reflexivity|]). contradiction.
Qed.

Lemma hex_char_inj x y : (x < 16)%N -> (y < 16)%N -> hex_char x = hex_char y -> x = y.
Proof.
  intros Hx Hy E. apply hex_value_char in Hx, Hy. rewrite E in Hx. congruence.
Qed.

Lemma length_hex_digits n : forall v, length (hex_digits n v) = n.
Proof.
  induction n as [|n IH]; intros v; simpl; [reflexivity|].
  rewrite length_app, IH. simpl. lia.
Qed.

Lemma hex_digits_plain n : forall v,
  Forall (fun c => code_is 47 c = false) (hex_digits n v).
Proof.
  induction n as [|n IH]; intros v; simpl; [constructor|].
  apply Forall_app. split; [apply IH|].
  constructor; [|constructor]. apply hex_char_plain, N.mod_lt. lia.
Qed.

Lemma hex_digits_inj n : forall u v,
  (u < 16 ^ N.of_nat n)%N -> (v < 16 ^ N.of_nat n)%N ->
  hex_digits n u = hex_digits n v -> u = v.
Proof.
  induction n as [|n IH]; intros u v Hu Hv E.
  - simpl in Hu, Hv. lia.
  - simpl in E. apply app_inj_tail in E as [E1 E2].
    rewrite Nat2N.inj_succ, N.pow_succ_r' in Hu, Hv.
    assert (u / 16 = v / 16)%N as Hq.
    { apply IH; [apply N.Div0.div_lt_upper_bound | apply N.Div0.div_lt_upper_bound | exact E1]; lia. }
    assert (u mod 16 = v mod 16)%N as Hr.
    { apply hex_char_inj; [apply N.mod_lt; lia | apply N.mod_lt; lia | exact E2]. }
    rewrite (N.div_mod u 16), (N.div_mod v 16) by lia. now rewrite Hq, Hr.
Qed.

Lemma undashed_dashed h : length h = 32 -> undashed (dashed h) = h.
Proof.
  intros H.
  do 32 (destruct h as [|? h]; [discriminate|]).
  destruct h; [reflexivity | discriminate].
Qed.

Lemma string_of_list_ascii_inj l1 l2 :
  string_of_list_ascii l1 = string_of_list_ascii l2 -> l1 = l2.
Proof.
  intros E. rewrite <- (list_ascii_of_string_of_list_ascii l1),
    <- (list_ascii_of_string_of_list_ascii l2). now rewrite E.
Qed.

Theorem uuid_str_inj u v :
  (u < 2 ^ 128)%N -> (v < 2 ^ 128)%N -> uuid_str u = uuid_str v -> u = v.
Proof.
  intros Hu Hv E. unfold uuid_str in E. apply string_of_list_ascii_inj in E.
  apply (f_equal undashed) in E.
  rewrite !undashed_dashed in E by apply length_hex_digits.
  apply (hex_digits_inj 32); [exact Hu | exact Hv | exact E].
Qed.

Lemma uuid_value_bound w n : (uuid_value w n < 2 ^ 128)%N.
Proof. unfold uuid_value. apply N.mod_lt. lia. Qed.

Lemma uuid_str_head u :
  exists c s, uuid_str u = String c s /\ code_is 47 c = false.
Proof.
  unfold uuid_str.
  pose proof (length_hex_digits 32 u) as Hl. pose proof (hex_digits_plain 32 u) as Hp.
  destruct (hex_digits 32 u) as [|c h]; [discriminate|].
  apply Forall_cons in Hp as [Hc _].
  do 7 (destruct h as [|? h]; [discriminate|]).
  eexists _, _. split; [reflexivity | exact Hc].
Qed.

(** *** Paths *)

Lemma path_join_relative a b :
  PyStr.starts_with "/" b = false -> path_join a b = dir_prefix a +:+ b.
Proof.
  intros H. unfold path_join, dir_prefix. rewrite H.
  destruct (negb (PyStr.str_truthy a) || ends_with_slash a); [reflexivity|].
  now rewrite append_assoc.
Qed.

Lemma starts_with_slash_head c s :
  code_is 47 c = false -> PyStr.starts_with "/" (String c s) = false.
Proof.
  intros H. cbn [PyStr.starts_with].
  destruct (Ascii.eqb "/" c) eqn:E; [|reflexivity].
  apply Ascii.eqb_eq in E. subst c. discriminate.
Qed.

End PyFacts.

(** ** The application *)

Module AppFacts.
Import Json Py App StrFacts ReFacts PyFacts JsonFacts.
Local Arguments String.append : simpl nomatch.
Local Arguments Re.match_anchored : simpl never.
Local Arguments uuid_str : simpl never.
Local Arguments path_join : simpl never.
Local Arguments dumps : simpl never.
Local Arguments loads : simpl never.
Local Arguments PyStr.replace : simpl never.

Ltac red_m :=
  cbn [negb fst snd files readable writable smtp_ok mail_calls outbox uuid_source
       uuid_calls clock clock_calls log set_files set_mail set_uuid_calls
       set_clock_calls set_log].
Ltac red_in H :=
  cbn [negb fst snd files readable writable smtp_ok mail_calls outbox uuid_source
       uuid_calls clock clock_calls log set_files set_mail set_uuid_calls
       set_clock_calls set_log] in H.
Ltac no_run := let E := fresh in intros E; discriminate E.

Section Facts.

Variable cfg : Config.

(** *** Paths of the application *)

Lemma applications_db_path :
  APPLICATIONS_DB cfg = dir_prefix (BASE_DIR cfg) +:+ "applications.json".
Proof. now apply path_join_relative. Qed.

Lemma resume_path_shape u name :
  exists tail,
    resume_path_for cfg u name
    = dir_prefix (BASE_DIR cfg) +:+ "resumes" +:+ tail.
Proof.
  unfold resume_path_for, RESUMES_FOLDER.
  rewrite (path_join_relative (BASE_DIR cfg) "resumes") by reflexivity.
  destruct (uuid_str_head u) as (c & s & Hu & Hc). rewrite Hu, append_cons.
  rewrite path_join_relative by now apply starts_with_slash_head.
  unfold dir_prefix at 1.
  destruct (negb _ || _); rewrite !append_assoc; eauto.
Qed.

Lemma resume_path_not_db u name :
  resume_path_for cfg u name <> APPLICATIONS_DB cfg.
Proof.
  destruct (resume_path_shape u name) as [tail ->]. rewrite applications_db_path.
  intros E. apply append_inv_head in E. discriminate.
Qed.

Lemma resume_path_nonempty u name :
  resume_path_for cfg u name <> EmptyString.
Proof.
  destruct (resume_path_shape u name) as [tail ->].
  intros E. apply (f_equal String.length) in E. rewrite !length_append in E.
  simpl in E. lia.
Qed.

(** *** The record store *)

Lemma load_applications_run w :
  load_applications cfg w
  = match files w !! APPLICATIONS_DB cfg with
    | None => (Ok (JArr []), w)
    | Some text =>
        if Nat.eqb (String.length text) 0 then (Ok (JArr []), w)
        else if readable w (APPLICATIONS_DB cfg) then
          match loads text with
          | Some v => (Ok v, w)
          | None => (Raise JSONDecodeError, w)
          end
        else (Raise (PermissionError (APPLICATIONS_DB cfg)), w)
    end.
Proof.
  unfold load_applications, bind, path_exists, getsize, read_file, ret, raise.
  destruct (files w !! APPLICATIONS_DB cfg) as [text|] eqn:E.
  - rewrite bool_decide_eq_true_2 by eauto. rewrite E. simpl.
    destruct (String.length text =? 0)%nat; simpl; [reflexivity|].
    rewrite E. destruct (readable w (APPLICATIONS_DB cfg)); [|reflexivity].
    destruct (loads text); reflexivity.
  - rewrite bool_decide_eq_false_2 by (intros [? ?]; discriminate). reflexivity.
Qed.

Lemma save_application_data_run data w :
  save_application_data cfg data w
  = match load_applications cfg w with
    | (Ok (JArr l), _) =>
        if writable w (APPLICATIONS_DB cfg)
        then (Ok true, set_files (<[APPLICATIONS_DB cfg := dumps (JArr (l ++ [data]))]> (files w)) w)
        else (Ok false,
              set_log (log w ++ [(ERROR, "Failed to save application data: "
                                         +:+ str_exn cfg (PermissionError (APPLICATIONS_DB cfg)))]) w)
    | (Ok _, _) =>
        (Ok false,
         set_log (log w ++ [(ERROR, "Failed to save application data: "
                                    +:+ str_exn cfg (AttributeError "append"))]) w)
    | (Raise e, _) =>
        (Ok false,
         set_log (log w ++ [(ERROR, "Failed to save application data: " +:+ str_exn cfg e)]) w)
    end.
Proof.
  unfold save_application_data, try_except, bind.
  rewrite load_applications_run.
  unfold list_append, write_file, log_error, ret, raise.
  destruct (files w !! APPLICATIONS_DB cfg) as [text|]; simpl.
  - destruct (String.length text =? 0)%nat; simpl.
    + destruct (writable w (APPLICATIONS_DB cfg)); reflexivity.
    + destruct (readable w (APPLICATIONS_DB cfg)); simpl; [|reflexivity].
      destruct (loads text) as [[| | | | l |]|]; simpl; try reflexivity.
      destruct (writable w (APPLICATIONS_DB cfg)); reflexivity.
  - destruct (writable w (APPLICATIONS_DB cfg)); reflexivity.
Qed.

Lemma save_application_data_returns data w :
  exists b w', save_application_data cfg data w = (Ok b, w').
Proof.
  rewrite save_application_data_run.
  destruct (load_applications cfg w) as [[[| | | | l |]|e] w0];
    try destruct (writable w (APPLICATIONS_DB cfg)); eauto.
Qed.

Lemma save_application_data_stored data w w' :
  save_application_data cfg data w = (Ok true, w') ->
  exists l,
    stored_applications cfg w = Some l /\
    w' = set_files (<[APPLICATIONS_DB cfg := dumps (JArr (l ++ [data]))]> (files w)) w.
Proof.
  rewrite save_application_data_run, load_applications_run. unfold stored_applications.
  destruct (files w !! APPLICATIONS_DB cfg) as [text|]; simpl.
  - destruct (String.length text =? 0)%nat; simpl.
    + destruct (writable w (APPLICATIONS_DB cfg)); intros E; inversion E. eauto.
    + destruct (readable w (APPLICATIONS_DB cfg)); simpl; [|discriminate].
      destruct (loads text) as [[| | | | l |]|]; simpl; try discriminate.
      destruct (writable w (APPLICATIONS_DB cfg)); intros E; inversion E. eauto.
  - destruct (writable w (APPLICATIONS_DB cfg)); intros E; inversion E. eauto.
Qed.

Lemma save_application_data_failed data w w' :
  save_application_data cfg data w = (Ok false, w') ->
  exists text, w' = set_log (log w ++ [(ERROR, text)]) w.
Proof.
  rewrite save_application_data_run.
  destruct (load_applications cfg w) as [[[| | | | l |]|e] w0];
    try destruct (writable w (APPLICATIONS_DB cfg)); intros E; inversion E; eauto.
Qed.

(** *** The mail helpers *)

Lemma same_disk_refl w : same_disk w w.
Proof. repeat split. Qed.

Lemma send_contact_reply_email_run recipient name subject w :
  send_contact_reply_email cfg recipient name subject w
  = if smtp_ok w (mail_calls w)
    then (Ok true,
          set_log (log w ++ [(INFO, "Confirmation email for contact sent to " +:+ fmt cfg recipient)])
            (set_mail (S (mail_calls w))
               (outbox w ++ [contact_reply_message cfg recipient name subject]) w))
    else (Ok false,
          set_log (log w ++ [(ERROR, "Failed to send contact email to " +:+ fmt cfg recipient
                                     +:+ ": " +:+ str_exn cfg MailError)])
            (set_mail (S (mail_calls w)) (outbox w) w)).
Proof.
  unfold send_contact_reply_email, try_except, bind, mail_send, log_info, log_error, ret.
  destruct (smtp_ok w (mail_calls w)); reflexivity.
Qed.

Lemma send_contact_reply_email_returns recipient name subject w :
  exists b w', send_contact_reply_email cfg recipient name subject w = (Ok b, w').
Proof. rewrite send_contact_reply_email_run. destruct (smtp_ok w (mail_calls w)); eauto. Qed.

Lemma not_snoc {A} (l : list A) : ~ exists m, l = l ++ [m].
Proof.
  intros [m E]. apply (f_equal (@length _)) in E. rewrite length_app in E. simpl in E. lia.
Qed.

Ltac career_success :=
  let Ht := fresh in let Hrd := fresh in let Hfn := fresh in let Hln := fresh in
  let Hrn := fresh in let Hlogo := fresh in let Hsmtp := fresh in
  intros ? ? ? ? Ht Hrd Hfn Hln Hrn Hlogo Hsmtp;
  first
    [ congruence
    | injection Hfn as <-; injection Hln as <-; injection Hrn as <-; injection Ht as <-;
      split; reflexivity
    | destruct Hlogo as [Hlogo | Hlogo];
      [ discriminate Hlogo
      | injection Hlogo as ->;
        match goal with
        | Ez : (String.length EmptyString =? 0)%nat = false |- _ => discriminate Ez
        end ] ].

Ltac career_leaf :=
  eexists _, _; split; [reflexivity|];
  split; [repeat split|];
  split;
    [ cbn [outbox set_log set_mail];
      first [ split; [intros _; eexists; reflexivity | intros _; reflexivity]
            | split; [discriminate | let H := fresh in intros H; now apply not_snoc in H] ]
    | split;
        [ let H := fresh in intros [H | H]; first [reflexivity | congruence]
        | cbn [outbox set_log set_mail]; career_success ] ].

(** [send_career_reply_email] always returns a boolean; it is [True]
    exactly when a message went out; the disk is left as it was. *)
Lemma send_career_reply_email_returns recipient first_name last_name role_name w :
  exists b w',
    send_career_reply_email cfg recipient first_name last_name role_name w = (Ok b, w')
    /\ same_disk w w'
    /\ (b = true <-> exists m, outbox w' = outbox w ++ [m])
    /\ (files w !! (template_path cfg) = None \/ readable w (template_path cfg) = false -> b = false)
    /\ (forall html fn ln rn,
          files w !! (template_path cfg) = Some html -> readable w (template_path cfg) = true ->
          first_name = JStr fn -> last_name = JStr ln -> role_name = JStr rn ->
          (files w !! (logo_path cfg) = None \/ files w !! (logo_path cfg) = Some EmptyString) ->
          smtp_ok w (mail_calls w) = true ->
          b = true /\
          outbox w' = outbox w ++ [career_message cfg recipient role_name
                                     (filled_template html fn ln rn) []]).
Proof.
  unfold send_career_reply_email, try_except, bind, read_file, replace_with, path_exists,
    getsize, mail_send, log_info, log_error, ret, raise.
  destruct (files w !! (template_path cfg)) as [html|] eqn:Et; [|career_leaf].
  destruct (readable w (template_path cfg)) eqn:Hr; [|career_leaf].
  destruct first_name as [| | |fn| |]; try career_leaf.
  destruct last_name as [| | |ln| |]; try career_leaf.
  destruct role_name as [| | |rn| |]; try career_leaf.
  destruct (files w !! (logo_path cfg)) as [img|] eqn:El.
  - rewrite bool_decide_eq_true_2 by eauto. cbn [negb orb]. rewrite El.
    destruct (String.length img =? 0)%nat eqn:Ez; cbn [negb orb]; red_m.
    + destruct (smtp_ok w (mail_calls w)) eqn:Hs; career_leaf.
    + rewrite El. destruct (readable w (logo_path cfg)) eqn:Hrl; red_m.
      * destruct (smtp_ok w (mail_calls w)) eqn:Hs; career_leaf.
      * career_leaf.
  - rewrite bool_decide_eq_false_2 by (intros [? ?]; discriminate). cbn [negb orb]. red_m.
    destruct (smtp_ok w (mail_calls w)) eqn:Hs; career_leaf.
Qed.

(** *** [prepare_application] *)

Lemma resume_missing_false resume :
  resume_missing resume = false ->
  exists f name, resume = Some f /\ filename f = Some name /\ name <> EmptyString.
Proof.
  unfold resume_missing. destruct resume as [f|]; [|no_run].
  destruct (filename f) as [[|c s]|] eqn:E; try no_run.
  intros _. exists f, (String c s). repeat split; [assumption | no_run].
Qed.

Lemma prepare_application_record data resume w record w1 :
  prepare_application cfg data resume w = (Ok (inr record), w1) ->
  exists f name,
    resume = Some f /\ filename f = Some name /\ name <> EmptyString /\
    forallb (field_filled data) required_fields = true /\
    record = build_application_data (uuid_str (uuid_value w (S (uuid_calls w))))
               (clock w (clock_calls w)) data (upload_path cfg w name) /\
    writable w (upload_path cfg w name) = true /\
    files w1 = <[upload_path cfg w name := stream f]> (files w) /\
    readable w1 = readable w /\ writable w1 = writable w /\
    uuid_source w1 = uuid_source w /\ uuid_calls w1 = S (S (uuid_calls w)) /\
    log w1 = log w /\ outbox w1 = outbox w.
Proof.
  unfold prepare_application, bind, data_item, ret, raise.
  destruct (forallb (field_filled data) required_fields) eqn:Hreq; red_m; [|no_run].
  destruct (data !! "email") as [email|]; red_m; [|no_run].
  destruct (Re.match_anchored EMAIL_RE email); red_m; [|no_run].
  destruct (data !! "phone") as [phone|]; red_m; [|no_run].
  destruct (Re.match_anchored PHONE_RE phone); red_m; [|no_run].
  destruct (resume_missing resume) eqn:Hmiss; red_m; [no_run|].
  destruct (resume_missing_false resume Hmiss) as (f & name & -> & Hname & Hne).
  unfold upload_name. rewrite Hname. unfold uuid4, write_file, now_isoformat. red_m.
  fold (upload_path cfg w name).
  destruct (writable w (upload_path cfg w name)) eqn:Hw; red_m; [|no_run].
  intros E. apply pair_equal_spec in E as [E1 E2].
  assert (E3 := f_equal (fun r => match r with Ok (inr x) => x | _ => JNull end) E1).
  cbv beta iota in E3. subst record w1.
  exists f, name. repeat split; auto.
Qed.

Lemma prepare_application_response data resume w response w1 :
  prepare_application cfg data resume w = (Ok (inl response), w1) ->
  w1 = w /\ status response = 400%Z /\ dict_get "success" (body response) = Some (JBool false).
Proof.
  unfold prepare_application, bind, data_item, ret, raise.
  destruct (forallb (field_filled data) required_fields); red_m;
    [|intros E; injection E as <- <-; auto].
  destruct (data !! "email") as [email|]; red_m; [|no_run].
  destruct (Re.match_anchored EMAIL_RE email); red_m;
    [|intros E; injection E as <- <-; auto].
  destruct (data !! "phone") as [phone|]; red_m; [|no_run].
  destruct (Re.match_anchored PHONE_RE phone); red_m;
    [|intros E; injection E as <- <-; auto].
  destruct (resume_missing resume) eqn:Hmiss; red_m;
    [intros E; injection E as <- <-; auto|].
  destruct (resume_missing_false resume Hmiss) as (f & name & -> & Hname & Hne).
  unfold uuid4, write_file, now_isoformat. red_m.
  destruct (writable _ _); red_m; no_run.
Qed.

Lemma record_fields id date data path key :
  In key ["email"; "firstName"; "lastName"; "applyingFor"] ->
  record_item (build_application_data id date data path) key
  = ret (form_get data key).
Proof.
  simpl. intros [<- | [<- | [<- | [<- | []]]]]; reflexivity.
Qed.

(** *** [submit_application] *)

Lemma submit_application_store_failed data resume w record w1 w2 :
  prepare_application cfg data resume w = (Ok (inr record), w1) ->
  save_application_data cfg record w1 = (Ok false, w2) ->
  submit_application cfg data resume w = (Ok response_store_failed, w2).
Proof.
  intros Hp Hs. unfold submit_application, try_except, bind.
  rewrite Hp. red_m. rewrite Hs. reflexivity.
Qed.

Lemma submit_application_stored data resume w record w1 w2 :
  prepare_application cfg data resume w = (Ok (inr record), w1) ->
  save_application_data cfg record w1 = (Ok true, w2) ->
  exists w', submit_application cfg data resume w = (Ok response_ok, w') /\ same_disk w2 w'.
Proof.
  intros Hp Hs. unfold submit_application, try_except, bind.
  rewrite Hp. red_m. rewrite Hs. red_m.
  destruct (prepare_application_record _ _ _ _ _ Hp) as (f & name & _ & _ & _ & _ & -> & _).
  rewrite !record_fields by (simpl; auto). unfold ret at 1 2 3 4.
  destruct (send_career_reply_email_returns (form_get data "email") (form_get data "firstName")
              (form_get data "lastName") (form_get data "applyingFor") w2)
    as (b & w' & -> & Hd & _).
  exists w'. split; [reflexivity | exact Hd].
Qed.

(** Every way [submit_application] can end. *)
Lemma submit_application_cases data resume w :
  (exists response,
      prepare_application cfg data resume w = (Ok (inl response), w) /\
      submit_application cfg data resume w = (Ok response, w) /\ status response = 400%Z)
  \/ (exists e w1 response w',
      prepare_application cfg data resume w = (Raise e, w1) /\
      submit_application cfg data resume w = (Ok response, w') /\ status response = 500%Z /\
      files w' = files w /\ uuid_source w' = uuid_source w)
  \/ (exists record w1 w2,
      prepare_application cfg data resume w = (Ok (inr record), w1) /\
      save_application_data cfg record w1 = (Ok false, w2) /\
      submit_application cfg data resume w = (Ok response_store_failed, w2))
  \/ (exists record w1 w2 w',
      prepare_application cfg data resume w = (Ok (inr record), w1) /\
      save_application_data cfg record w1 = (Ok true, w2) /\
      submit_application cfg data resume w = (Ok response_ok, w') /\ same_disk w2 w').
Proof.
  destruct (prepare_application cfg data resume w) as [[[response | record] | e] w1] eqn:Hp.
  - left. destruct (prepare_application_response _ _ _ _ _ Hp) as (-> & Hs & _).
    exists response. repeat split; auto.
    unfold submit_application, try_except, bind. now rewrite Hp.
  - right. right.
    destruct (save_application_data_returns record w1) as ([|] & w2 & Hs).
    + right. destruct (submit_application_stored _ _ _ _ _ _ Hp Hs) as (w' & Hr & Hd).
      exists record, w1, w2, w'. auto.
    + left. exists record, w1, w2. repeat split; auto.
      exact (submit_application_store_failed _ _ _ _ _ _ Hp Hs).
  - right. left.
    assert (Hw : files w1 = files w /\ uuid_source w1 = uuid_source w).
    { revert Hp. unfold prepare_application, bind, data_item, ret, raise.
      destruct (forallb (field_filled data) required_fields); red_m; [|no_run].
      destruct (data !! "email") as [email|]; red_m;
        [|intros E; injection E as <- <-; auto].
      destruct (Re.match_anchored EMAIL_RE email); red_m; [|no_run].
      destruct (data !! "phone") as [phone|]; red_m;
        [|intros E; injection E as <- <-; auto].
      destruct (Re.match_anchored PHONE_RE phone); red_m; [|no_run].
      destruct (resume_missing resume) eqn:Hmiss; red_m; [no_run|].
      destruct (resume_missing_false resume Hmiss) as (f & name & -> & Hname & Hne).
      unfold uuid4, write_file, now_isoformat. red_m.
      destruct (writable _ _); red_m; [no_run|].
      intros E; injection E as <- <-; auto. }
    eexists e, w1, _, _. split; [reflexivity|].
    unfold submit_application, try_except, bind. rewrite Hp.
    unfold log_error, ret. red_m. repeat split; apply Hw.
Qed.

(** *** Sequences of submissions *)

Lemma well_formed_form_get data key : well_formed (form_get data key) = true.
Proof. unfold form_get. destruct (data !! key); reflexivity. Qed.

Lemma well_formed_record id date data path :
  well_formed (build_application_data id date data path) = true.
Proof.
  unfold build_application_data. cbn [well_formed forallb List.map fst snd].
  rewrite !well_formed_form_get. reflexivity.
Qed.

Lemma stored_written w l :
  forallb well_formed l = true ->
  files w !! APPLICATIONS_DB cfg = Some (dumps (JArr l)) ->
  stored_applications cfg w = Some l.
Proof.
  intros Hwf Hf. unfold stored_applications. rewrite Hf.
  destruct (Nat.eqb_spec (String.length (dumps (JArr l))) 0) as [E | _].
  - now apply dumps_nonempty in E.
  - now rewrite loads_dumps.
Qed.

Lemma stored_same_file w w' :
  files w' !! APPLICATIONS_DB cfg = files w !! APPLICATIONS_DB cfg ->
  stored_applications cfg w' = stored_applications cfg w.
Proof. intros E. unfold stored_applications. now rewrite E. Qed.

(** One accepted submission: the record goes to the end of the store. *)
Lemma submit_application_appends data resume w response w' prior :
  submit_application cfg data resume w = (Ok response, w') ->
  status response = 200%Z ->
  stored_applications cfg w = Some prior ->
  forallb well_formed prior = true ->
  exists date path,
    let record := build_application_data (uuid_str (uuid_value w (S (uuid_calls w))))
                    date data path in
    files w' !! APPLICATIONS_DB cfg = Some (dumps (JArr (prior ++ [record]))) /\
    stored_applications cfg w' = Some (prior ++ [record]) /\
    forallb well_formed (prior ++ [record]) = true /\
    uuid_source w' = uuid_source w /\ uuid_calls w' = S (S (uuid_calls w)) /\
    path <> EmptyString /\ is_Some (files w' !! path) /\
    (forall p, is_Some (files w !! p) -> is_Some (files w' !! p)).
Proof.
  intros Hrun Hst Hprior Hwf.
  destruct (submit_application_cases data resume w)
    as [(r & _ & Hr & Hs) | [(e & w1 & r & w'' & _ & Hr & Hs & _) |
        [(record & w1 & w2 & _ & _ & Hr) | (record & w1 & w2 & w'' & Hp & Hsv & Hr & Hd)]]];
    rewrite Hr in Hrun; injection Hrun as <- <-; try (rewrite Hs in Hst; discriminate);
    try discriminate.
  destruct (prepare_application_record _ _ _ _ _ Hp)
    as (f & name & _ & _ & _ & _ & -> & _ & Hf1 & _ & _ & Hu1 & Hc1 & _).
  destruct (save_application_data_stored _ _ _ Hsv) as (l & Hl & ->).
  assert (l = prior) as ->.
  { rewrite (stored_same_file w w1) in Hl by
      (rewrite Hf1; apply lookup_insert_ne, resume_path_not_db).
    congruence. }
  destruct Hd as (Hfd & _ & _ & Hud & Hcd & _). red_in Hfd. red_in Hud. red_in Hcd.
  assert (Hwf' : forallb well_formed
                   (prior ++ [build_application_data (uuid_str (uuid_value w (S (uuid_calls w))))
                                (clock w (clock_calls w)) data (upload_path cfg w name)]) = true).
  { rewrite forallb_app, Hwf. cbn [forallb andb]. now rewrite well_formed_record. }
  exists (clock w (clock_calls w)), (upload_path cfg w name). cbv zeta.
  assert (Hfile : files w'' !! APPLICATIONS_DB cfg
                  = Some (dumps (JArr (prior ++ [build_application_data
                       (uuid_str (uuid_value w (S (uuid_calls w))))
                       (clock w (clock_calls w)) data (upload_path cfg w name)])))).
  { rewrite Hfd. apply lookup_insert_eq. }
  assert (Hkeep : forall p, is_Some (files w !! p) -> is_Some (files w'' !! p)).
  { intros p Hp'. rewrite Hfd, Hf1.
    destruct (decide (APPLICATIONS_DB cfg = p)) as [<- | Hne1];
      [rewrite lookup_insert_eq; eauto | rewrite lookup_insert_ne by exact Hne1].
    destruct (decide (upload_path cfg w name = p)) as [<- | Hne2];
      [rewrite lookup_insert_eq; eauto | now rewrite lookup_insert_ne by exact Hne2]. }
  split; [exact Hfile|]. split; [now apply stored_written|]. split; [exact Hwf'|].
  split; [congruence|]. split; [congruence|]. split; [apply resume_path_nonempty|].
  split; [|exact Hkeep].
  rewrite Hfd, Hf1.
  rewrite lookup_insert_ne by (intros E; symmetry in E; revert E; apply resume_path_not_db).
  rewrite lookup_insert_eq. eauto.
Qed.

Lemma serve_applications_appends requests : forall w prior responses w',
  stored_applications cfg w = Some prior ->
  forallb well_formed prior = true ->
  serve_applications cfg requests w = (Ok responses, w') ->
  Forall (fun r => status r = 200%Z) responses ->
  exists new,
    stored_applications cfg w' = Some (prior ++ new) /\
    Forall2 submitted requests new /\
    List.map (field "id") new
    = List.map (fun s => Some (JStr s)) (ids_of (uuid_source w) (uuid_calls w) (length requests)) /\
    (requests <> [] -> files w' !! APPLICATIONS_DB cfg = Some (dumps (JArr (prior ++ new)))).
Proof.
  induction requests as [|rq rest IH]; intros w prior responses w' Hprior Hwf Hrun Hall.
  - cbn [serve_applications] in Hrun. unfold ret in Hrun. injection Hrun as <- <-.
    exists []. rewrite app_nil_r.
    split; [exact Hprior|]. split; [constructor|]. split; [reflexivity | congruence].
  - cbn [serve_applications] in Hrun. unfold bind in Hrun.
    destruct (submit_application cfg (form rq) (resume rq) w) as [[response | e] wa] eqn:Hsub;
      [|discriminate].
    destruct (serve_applications cfg rest wa) as [[rs | e] wb] eqn:Hrest; [|discriminate].
    injection Hrun as <- ->. apply Forall_cons in Hall as [Hok Hall].
    destruct (submit_application_appends _ _ _ _ _ prior Hsub Hok Hprior Hwf)
      as (date & path & Hfile & Hst & Hwf' & Hsrc & Hcalls & _).
    destruct (IH wa _ rs w' Hst Hwf' Hrest Hall) as (new & Hst' & Hsub' & Hids & Hfile').
    eexists (_ :: new). rewrite <- app_assoc in Hst', Hfile'. cbn [app] in Hst', Hfile'.
    split; [exact Hst'|]. split; [|split].
    + constructor; [|exact Hsub']. eexists _, _, _. reflexivity.
    + cbn [List.map length ids_of]. rewrite Hids, Hsrc, Hcalls. reflexivity.
    + intros _. destruct rest as [|rq2 rest2].
      * cbn [serve_applications] in Hrest. unfold ret in Hrest. injection Hrest as <- <-.
        inversion Hsub'; subst. exact Hfile.
      * apply Hfile'. discriminate.
Qed.

Lemma has_resume_kept w w' record :
  (forall p, is_Some (files w !! p) -> is_Some (files w' !! p)) ->
  has_resume w record -> has_resume w' record.
Proof. intros Hkeep (path & Hf & Hne & Hp). exists path. auto. Qed.

(** The records of accepted submissions point to uploads that are on the
    disk, and this stays so as further submissions are served. *)
Lemma serve_applications_resumes requests : forall w prior responses w',
  stored_applications cfg w = Some prior ->
  forallb well_formed prior = true ->
  Forall (has_resume w) prior ->
  serve_applications cfg requests w = (Ok responses, w') ->
  Forall (fun r => status r = 200%Z) responses ->
  exists records,
    stored_applications cfg w' = Some records /\ Forall (has_resume w') records.
Proof.
  induction requests as [|rq rest IH]; intros w prior responses w' Hprior Hwf Hres Hrun Hall.
  - cbn [serve_applications] in Hrun. unfold ret in Hrun. injection Hrun as <- <-.
    exists prior. auto.
  - cbn [serve_applications] in Hrun. unfold bind in Hrun.
    destruct (submit_application cfg (form rq) (resume rq) w) as [[response | e] wa] eqn:Hsub;
      [|discriminate].
    destruct (serve_applications cfg rest wa) as [[rs | e] wb] eqn:Hrest; [|discriminate].
    injection Hrun as <- ->. apply Forall_cons in Hall as [Hok Hall].
    destruct (submit_application_appends _ _ _ _ _ prior Hsub Hok Hprior Hwf)
      as (date & path & _ & Hst & Hwf' & _ & _ & Hne & Hpath & Hkeep).
    apply (IH wa _ rs w' Hst Hwf'); [|exact Hrest | exact Hall].
    apply Forall_app. split.
    + eapply Forall_impl; [exact Hres|]. intros record. now apply has_resume_kept.
    + constructor; [|constructor]. exists path. auto.
Qed.

Lemma stored_resumes_on_disk requests w responses w' :
  (files w !! APPLICATIONS_DB cfg = None \/ files w !! APPLICATIONS_DB cfg = Some EmptyString) ->
  serve_applications cfg requests w = (Ok responses, w') ->
  Forall (fun r => status r = 200%Z) responses ->
  exists records,
    stored_applications cfg w' = Some records /\ Forall (has_resume w') records.
Proof.
  intros Hstart Hrun Hall.
  apply (serve_applications_resumes requests w [] responses w'); auto.
  unfold stored_applications. destruct Hstart as [-> | ->]; reflexivity.
Qed.

Lemma ids_of_in src s : forall n c,
  In s (ids_of src c n) ->
  exists k, c < k /\ k < c + 2 * n /\ s = uuid_str (src k mod 2 ^ 128)%N.
Proof.
  induction n as [|n IH]; intros c; simpl; [contradiction|].
  intros [<- | H].
  - exists (S c). split; [lia | split; [lia | reflexivity]].
  - apply IH in H as (k & H1 & H2 & ->). exists k. split; [lia | split; [lia | reflexivity]].
Qed.

Lemma ids_of_nodup src : forall n c,
  (forall i j, c <= i -> i < j -> j < c + 2 * n ->
               (src i mod 2 ^ 128)%N <> (src j mod 2 ^ 128)%N) ->
  NoDup (ids_of src c n).
Proof.
  induction n as [|n IH]; intros c Hfresh; simpl; [constructor|].
  apply NoDup_cons. split.
  - intros Hin. apply list_elem_of_In in Hin.
    apply ids_of_in in Hin as (k & Hk1 & Hk2 & E).
    apply uuid_str_inj in E; [|apply N.mod_lt; lia ..].
    apply (Hfresh (S c) k); [lia | lia | lia | exact E].
  - apply IH. intros i j Hi Hij Hj. apply Hfresh; lia.
Qed.

(** *** [submit_contact] *)

(** Text is false exactly when it is empty: blanks count. *)
Lemma truthy_text s : truthy (JStr s) = false <-> s = EmptyString.
Proof. destruct s; simpl; split; congruence. Qed.

Lemma submit_contact_falsy d w :
  forallb (fun key => truthy (contact_value d key)) contact_fields = false ->
  submit_contact cfg (Some (JObj d)) w = (Ok contact_invalid, w).
Proof.
  intros H. unfold submit_contact, try_except, bind, data_get, ret.
  unfold contact_fields, contact_value in H. cbn [forallb] in H.
  cbn [forallb]. rewrite H. reflexivity.
Qed.

Lemma submit_contact_truthy d w :
  forallb (fun key => truthy (contact_value d key)) contact_fields = true ->
  exists text w',
    submit_contact cfg (Some (JObj d)) w
    = (Ok (json_response 200 [("success", JBool true); ("message", JStr text)]), w')
    /\ files w' = files w.
Proof.
  intros H. unfold submit_contact, try_except, bind, data_get, ret.
  unfold contact_fields, contact_value in H. cbn [forallb] in H.
  cbn [forallb]. rewrite H. cbn [negb].
  assert (Hsend : forall w0, files w0 = files w ->
            exists b w', send_contact_reply_email cfg (opt_value (dict_get "email" d))
                           (opt_value (dict_get "name" d)) (opt_value (dict_get "subject" d)) w0
                         = (Ok b, w') /\ files w' = files w).
  { intros w0 Hw0. rewrite send_contact_reply_email_run.
    destruct (smtp_ok w0 (mail_calls w0)); eexists _, _; split; try reflexivity; exact Hw0. }
  destruct (RECEIVER_EMAIL cfg) as [[|c r]|].
  - unfold log_info.
    edestruct Hsend as (b & w' & -> & Hf); [|eexists _, _; split; [reflexivity | exact Hf]].
    reflexivity.
  - unfold mail_send, log_info, log_error.
    destruct (smtp_ok w (mail_calls w));
      (edestruct Hsend as (b & w' & -> & Hf); [|eexists _, _; split; [reflexivity | exact Hf]]);
      reflexivity.
  - unfold log_info.
    edestruct Hsend as (b & w' & -> & Hf); [|eexists _, _; split; [reflexivity | exact Hf]].
    reflexivity.
Qed.

Lemma forallb_false_witness {A} (p : A -> bool) l x :
  In x l -> p x = false -> forallb p l = false.
Proof.
  intros Hin Hp. destruct (forallb p l) eqn:E; [|reflexivity].
  rewrite forallb_forall in E. rewrite (E x Hin) in Hp. discriminate.
Qed.

(** C1 (as amended).  A contact payload is rejected with 400 and
    [success: false] exactly when one of [name], [email], [subject],
    [message] is absent or false in Python's sense ([None], [False], [0],
    empty text, an empty array or object); no trimming takes place.  When
    the four values are true the request is answered with 200. *)
Theorem submit_contact_validation d w :
  ((exists key, In key contact_fields /\ truthy (contact_value d key) = false) ->
     submit_contact cfg (Some (JObj d)) w = (Ok contact_invalid, w))
  /\ ((forall key, In key contact_fields -> truthy (contact_value d key) = true) ->
      exists text w',
        submit_contact cfg (Some (JObj d)) w
        = (Ok (json_response 200 [("success", JBool true); ("message", JStr text)]), w')).
Proof.
  split.
  - intros (key & Hin & Hkey). apply submit_contact_falsy.
    now apply (forallb_false_witness _ _ key).
  - intros Hall. destruct (submit_contact_truthy d w) as (text & w' & Hrun & _).
    + apply forallb_forall. exact Hall.
    + eauto.
Qed.

(** C2.  When the four fields are present and non-empty text, the contact
    handler answers 200 with [success: true], whatever the mail transport
    does ([smtp_ok w] is arbitrary) and whatever the text of [email] is. *)
Theorem submit_contact_accepts_filled d w name email subject message :
  dict_get "name" d = Some (JStr name) -> name <> EmptyString ->
  dict_get "email" d = Some (JStr email) -> email <> EmptyString ->
  dict_get "subject" d = Some (JStr subject) -> subject <> EmptyString ->
  dict_get "message" d = Some (JStr message) -> message <> EmptyString ->
  exists text w',
    submit_contact cfg (Some (JObj d)) w
    = (Ok (json_response 200 [("success", JBool true); ("message", JStr text)]), w')
    /\ files w' = files w.
Proof.
  intros Hn Hn' He He' Hs Hs' Hm Hm'. apply submit_contact_truthy.
  unfold contact_fields, contact_value. cbn [forallb]. rewrite Hn, He, Hs, Hm.
  destruct name, email, subject, message; try congruence. reflexivity.
Qed.

(** *** Required fields *)

Lemma rstrip_empty s : PyStr.rstrip s = EmptyString <-> PyStr.all_space s = true.
Proof.
  induction s as [|c s IH]; simpl; [tauto|].
  destruct (PyStr.rstrip s) eqn:E.
  - destruct (PyStr.is_space c); simpl; [tauto|]. split; discriminate.
  - split; [discriminate|]. intros H. apply andb_true_iff in H as [_ H].
    apply IH in H. discriminate.
Qed.

Lemma strip_empty s : PyStr.strip s = EmptyString <-> PyStr.all_space s = true.
Proof.
  unfold PyStr.strip. rewrite rstrip_empty.
  induction s as [|c s IH]; simpl; [tauto|].
  destruct (PyStr.is_space c) eqn:E; simpl; [exact IH|].
  rewrite E. simpl. tauto.
Qed.

Lemma submit_application_incomplete data resume w :
  forallb (field_filled data) required_fields = false ->
  submit_application cfg data resume w = (Ok application_incomplete, w).
Proof.
  intros H. unfold submit_application, try_except, bind, prepare_application, ret.
  rewrite H. reflexivity.
Qed.

(** C6.  When one of the eight required fields is absent or empty after
    trimming, the application handler answers 400 with [success: false]
    and leaves the world as it was: no file is written, nothing is stored. *)
Theorem submit_application_requires_fields data resume w key :
  In key required_fields ->
  (data !! key = None \/ exists v, data !! key = Some v /\ PyStr.strip v = EmptyString) ->
  submit_application cfg data resume w = (Ok application_incomplete, w).
Proof.
  intros Hin Hkey. apply submit_application_incomplete.
  apply (forallb_false_witness _ _ key Hin). unfold field_filled.
  destruct Hkey as [-> | (v & -> & ->)]; reflexivity.
Qed.

(** *** The two formats *)


Theorem email_re_shape s : Re.lang EMAIL_RE s <-> email_shape s.
Proof.
  unfold EMAIL_RE, email_shape. split.
  - intros H.
    apply lang_cat_inv in H as (lcl & s1 & -> & Hl & H).
    apply lang_cat_inv in H as (at_ & s2 & -> & Hat & H).
    apply lang_cat_inv in H as (dom & s3 & -> & Hd & H).
    apply lang_cat_inv in H as (dot & tld & -> & Hdot & Ht).
    apply lang_plus_chr in Hl as [Hl1 Hl2]. apply lang_plus_chr in Hd as [Hd1 Hd2].
    apply lang_char in Hat as ->. apply lang_char in Hdot as ->.
    apply lang_atleast_chr in Ht as [Ht1 Ht2].
    exists lcl, dom, tld. repeat split; auto.
  - intros (lcl & dom & tld & -> & Hl1 & Hl2 & Hd1 & Hd2 & Ht1 & Ht2).
    constructor; [now apply lang_plus_chr|].
    constructor; [now apply lang_char|].
    constructor; [now apply lang_plus_chr|].
    constructor; [now apply lang_char|].
    now apply lang_atleast_chr.
Qed.

Theorem phone_re_shape s : Re.lang PHONE_RE s <-> phone_shape s.
Proof.
  unfold PHONE_RE, phone_shape. split.
  - intros H. apply lang_cat_inv in H as (s1 & s2 & -> & H1 & H2).
    apply lang_chr_inv in H1 as (c & -> & Hc). apply lang_rep_chr in H2 as [Hl Ha].
    simpl. split; [lia|]. eauto.
  - intros (Hl & c & t & -> & Hc & Ha). simpl in Hl.
    change (String c t) with (String c EmptyString +:+ t).
    constructor; [now constructor|]. apply lang_rep_chr. split; [lia | assumption].
Qed.



Lemma email_check_shape s :
  Re.match_anchored EMAIL_RE s = true <->
  email_shape s \/ exists t, s = t +:+ Re.line_feed /\ email_shape t.
Proof.
  rewrite match_anchored_lang, email_re_shape.
  split; (intros [H | (t & E & H)]; [now left | right; exists t; split; [exact E|]]);
    now apply email_re_shape.
Qed.

Lemma phone_check_shape s :
  Re.match_anchored PHONE_RE s = true <->
  phone_shape s \/ exists t, s = t +:+ Re.line_feed /\ phone_shape t.
Proof.
  rewrite match_anchored_lang, phone_re_shape.
  split; (intros [H | (t & E & H)]; [now left | right; exists t; split; [exact E|]]);
    now apply phone_re_shape.
Qed.

Lemma submit_application_email_check data resume w email :
  forallb (field_filled data) required_fields = true ->
  data !! "email" = Some email ->
  Re.match_anchored EMAIL_RE email = false ->
  submit_application cfg data resume w = (Ok email_invalid, w).
Proof.
  intros Hreq He Hm.
  unfold submit_application, prepare_application. unfold try_except, bind, data_item, ret.
  rewrite Hreq, He. cbn [negb]. rewrite Hm. reflexivity.
Qed.

Lemma submit_application_phone_check data resume w email phone :
  forallb (field_filled data) required_fields = true ->
  data !! "email" = Some email ->
  Re.match_anchored EMAIL_RE email = true ->
  data !! "phone" = Some phone ->
  Re.match_anchored PHONE_RE phone = false ->
  submit_application cfg data resume w = (Ok phone_invalid, w).
Proof.
  intros Hreq He Hm Hp Hn.
  unfold submit_application, prepare_application. unfold try_except, bind, data_item, ret.
  rewrite Hreq, He. cbn [negb]. rewrite Hm, Hp. cbn [negb]. rewrite Hn. reflexivity.
Qed.

(** A phone number that is neither of the ten-digit shape nor such a
    number followed by one line feed is refused, once the fields are
    filled and the address has passed. *)
Lemma invalid_phone_rejected data resume w email phone :
  forallb (field_filled data) required_fields = true ->
  data !! "email" = Some email ->
  Re.match_anchored EMAIL_RE email = true ->
  data !! "phone" = Some phone ->
  ~ phone_shape phone ->
  (forall t, phone = t +:+ Re.line_feed -> ~ phone_shape t) ->
  submit_application cfg data resume w = (Ok phone_invalid, w).
Proof.
  intros Hreq He Hm Hp Hshape Hlf.
  apply (submit_application_phone_check _ _ _ email phone); auto.
  destruct (Re.match_anchored PHONE_RE phone) eqn:E; [|reflexivity].
  apply phone_check_shape in E as [H | (t & Et & H)]; [contradiction|].
  now apply Hlf in Et.
Qed.

(** An address that is neither of the shape [local@domain.tld] nor such
    an address followed by one line feed is refused, once the fields are
    filled. *)
Lemma invalid_email_rejected data resume w email :
  forallb (field_filled data) required_fields = true ->
  data !! "email" = Some email ->
  ~ email_shape email ->
  (forall t, email = t +:+ Re.line_feed -> ~ email_shape t) ->
  submit_application cfg data resume w = (Ok email_invalid, w).
Proof.
  intros Hreq He Hshape Hlf.
  apply (submit_application_email_check _ _ _ email); auto.
  destruct (Re.match_anchored EMAIL_RE email) eqn:E; [|reflexivity].
  apply email_check_shape in E as [H | (t & Et & H)]; [contradiction|].
  now apply Hlf in Et.
Qed.

(** *** Failure of the store *)

(** C8.  When [save_application_data] reports failure for the record of a
    submission, the request is answered with 500, [success: false] and
    the invitation to try again. *)
Theorem store_failure_fails_request data resume w record w1 w2 :
  prepare_application cfg data resume w = (Ok (inr record), w1) ->
  save_application_data cfg record w1 = (Ok false, w2) ->
  submit_application cfg data resume w
  = (Ok (json_response 500
           [("success", JBool false);
            ("message", JStr "Failed to save application. Please try again later.")]),
     w2).
Proof. intros Hp Hs. exact (submit_application_store_failed _ _ _ _ _ _ Hp Hs). Qed.

(** C10.  When the store fails after the upload was written, the request
    is answered with 500 and the upload stays where it was written: on
    the disk the request has added that one file, and the store file is
    what it was before the request. *)
Theorem store_failure_keeps_resume data resume w record w1 w2 :
  prepare_application cfg data resume w = (Ok (inr record), w1) ->
  save_application_data cfg record w1 = (Ok false, w2) ->
  exists f name response,
    resume = Some f /\ filename f = Some name /\
    submit_application cfg data resume w = (Ok response, w2) /\
    status response = 500%Z /\
    files w2 = <[upload_path cfg w name := stream f]> (files w) /\
    files w2 !! upload_path cfg w name = Some (stream f) /\
    files w2 !! APPLICATIONS_DB cfg = files w !! APPLICATIONS_DB cfg.
Proof.
  intros Hp Hs.
  destruct (prepare_application_record _ _ _ _ _ Hp)
    as (f & name & Hr & Hn & _ & _ & _ & _ & Hf & _).
  destruct (save_application_data_failed _ _ _ Hs) as (text & ->).
  exists f, name, response_store_failed.
  split; [exact Hr|]. split; [exact Hn|].
  split; [exact (submit_application_store_failed _ _ _ _ _ _ Hp Hs)|].
  split; [reflexivity|]. cbn [files set_log]. rewrite Hf.
  split; [reflexivity|]. split; [apply lookup_insert_eq|].
  apply lookup_insert_ne, resume_path_not_db.
Qed.

(** *** What is stored *)

(** C3 (as amended).  The record handed to the store carries, under the
    key [resume_path], the non-empty path of the upload, and the upload is
    on the disk when [save_application_data] runs; a successful append
    writes the former array followed by this record, and the upload is
    still there. *)
Theorem stored_record_resume_on_disk data resume w record w1 w2 :
  prepare_application cfg data resume w = (Ok (inr record), w1) ->
  save_application_data cfg record w1 = (Ok true, w2) ->
  exists f path l,
    resume = Some f /\
    field "resume_path" record = Some (JStr path) /\
    path <> EmptyString /\
    files w1 !! path = Some (stream f) /\
    stored_applications cfg w1 = Some l /\
    files w2 !! APPLICATIONS_DB cfg = Some (dumps (JArr (l ++ [record]))) /\
    files w2 !! path = Some (stream f).
Proof.
  intros Hp Hs.
  destruct (prepare_application_record _ _ _ _ _ Hp)
    as (f & name & Hr & _ & _ & _ & -> & _ & Hf & _).
  destruct (save_application_data_stored _ _ _ Hs) as (l & Hl & ->).
  exists f, (upload_path cfg w name), l.
  split; [exact Hr|]. split; [reflexivity|]. split; [apply resume_path_nonempty|].
  split; [rewrite Hf; apply lookup_insert_eq|]. split; [exact Hl|].
  cbn [files set_files]. split; [apply lookup_insert_eq|].
  rewrite lookup_insert_ne by (intros E; symmetry in E; revert E; apply resume_path_not_db).
  rewrite Hf. apply lookup_insert_eq.
Qed.

(** C4.  Starting from a missing or a zero-byte store file, after the
    requests of [requests] have been served one after the other and each
    was answered with 200, the store holds exactly their records in the
    order of submission, the file reads back as that array, and the
    records have pairwise different [id]s as long as [uuid4] does not
    repeat a value. *)
Theorem sequential_submissions_stored requests w responses w' :
  (files w !! APPLICATIONS_DB cfg = None \/ files w !! APPLICATIONS_DB cfg = Some EmptyString) ->
  uuids_fresh w (2 * length requests) ->
  serve_applications cfg requests w = (Ok responses, w') ->
  Forall (fun r => status r = 200%Z) responses ->
  exists records,
    stored_applications cfg w' = Some records /\
    Forall2 submitted requests records /\
    NoDup (List.map (field "id") records) /\
    (requests <> [] ->
     exists text, files w' !! APPLICATIONS_DB cfg = Some text /\ loads text = Some (JArr records)).
Proof.
  intros Hstart Hfresh Hrun Hall.
  assert (Hprior : stored_applications cfg w = Some []).
  { unfold stored_applications. destruct Hstart as [-> | ->]; reflexivity. }
  destruct (serve_applications_appends requests w [] responses w' Hprior eq_refl Hrun Hall)
    as (records & Hst & Hsub & Hids & Hfile).
  cbn [app] in Hst, Hfile. exists records.
  split; [exact Hst|]. split; [exact Hsub|]. split.
  - rewrite Hids. apply NoDup_fmap_2; [intros x y E; congruence|].
    apply ids_of_nodup. exact Hfresh.
  - intros Hne. specialize (Hfile Hne). eexists. split; [exact Hfile|].
    unfold stored_applications in Hst. rewrite Hfile in Hst.
    destruct (Nat.eqb_spec (String.length (dumps (JArr records))) 0) as [E | _].
    + now apply dumps_nonempty in E.
    + destruct (loads (dumps (JArr records))) as [[| | | | l |]|]; congruence.
Qed.


(** C9.  [send_career_reply_email] raises nothing and returns a boolean.
    It is [True] exactly when a message went out.  It is [False] when the
    template cannot be read.  With the template readable, the three names
    text and the transport accepting the message, a logo file that is
    absent or has no content still gives [True], for a message without
    attachment. *)
Theorem send_career_reply_email_reports recipient first_name last_name role_name w :
  exists b w',
    send_career_reply_email cfg recipient first_name last_name role_name w = (Ok b, w')
    /\ (b = true <-> exists m, outbox w' = outbox w ++ [m])
    /\ (files w !! (template_path cfg) = None \/ readable w (template_path cfg) = false -> b = false)
    /\ (forall html fn ln rn,
          files w !! (template_path cfg) = Some html -> readable w (template_path cfg) = true ->
          first_name = JStr fn -> last_name = JStr ln -> role_name = JStr rn ->
          (files w !! (logo_path cfg) = None \/ files w !! (logo_path cfg) = Some EmptyString) ->
          smtp_ok w (mail_calls w) = true ->
          b = true /\
          outbox w' = outbox w ++ [career_message cfg recipient role_name
                                     (filled_template html fn ln rn) []]).
Proof.
  destruct (send_career_reply_email_returns recipient first_name last_name role_name w)
    as (b & w' & Hrun & _ & Hsent & Htpl & Hlogo).
  exists b, w'. auto.
Qed.

End Facts.

End AppFacts.

(** ** The claims on the example deployment *)

Module Examples.
Import Json Py App AppFacts.

(** *** The runtime on small inputs *)

Example strip_blanks :
  PyStr.strip "  a b  " = "a b" /\ PyStr.strip "   " = EmptyString /\ PyStr.strip "" = EmptyString.
Proof. repeat split. Qed.

Example replace_all_occurrences :
  PyStr.replace "{x}" "YY" "a{x}b{x}{x}c{x" = "aYYbYYYYc{x" /\
  PyStr.replace "aa" "b" "aaa" = "ba".
Proof. split; reflexivity. Qed.

Example email_pattern :
  Re.match_anchored EMAIL_RE "ann@x.com" = true /\
  Re.match_anchored EMAIL_RE "not-an-email" = false /\
  Re.match_anchored EMAIL_RE "a@b.c" = false /\
  Re.match_anchored EMAIL_RE "a@b@c.co" = false /\
  Re.match_anchored EMAIL_RE "a b@c.co" = false /\
  Re.match_anchored EMAIL_RE ("a@b.co" +:+ Re.line_feed) = true.
Proof. vm_compute. repeat split. Qed.

Example phone_pattern :
  Re.match_anchored PHONE_RE "9123456789" = true /\
  Re.match_anchored PHONE_RE "5123456789" = false /\
  Re.match_anchored PHONE_RE "912345678" = false /\
  Re.match_anchored PHONE_RE "91234567890" = false /\
  Re.match_anchored PHONE_RE "91234x6789" = false.
Proof. vm_compute. repeat split. Qed.

Example dumps_small :
  dumps (JArr [JObj [("id", JStr "a"); ("intro", JNull)]; JNum (-12)])
  = "[
    {
        " +:+ String dquote ("id" +:+ String dquote (": " +:+ String dquote ("a" +:+ String dquote (",
        " +:+ String dquote ("intro" +:+ String dquote ": null
    },
    -12
]"))))).
Proof. reflexivity. Qed.

Example loads_small :
  loads " [1, -0 ,{ } , [ ]] " = Some (JArr [JNum 1; JNum 0; JObj []; JArr []]) /\
  loads "[01]" = None /\ loads "[1,]" = None /\ loads "" = None /\
  loads "{}" = Some (JObj []).
Proof. vm_compute. repeat split. Qed.

Example uuid_text :
  uuid_str 1000000007 = "00000000-0000-0000-0000-00003b9aca07" /\
  uuid_str (2 ^ 128 - 1) = "ffffffff-ffff-ffff-ffff-ffffffffffff".
Proof. vm_compute. split; reflexivity. Qed.

Example join_paths :
  path_join "/srv/app" "resumes" = "/srv/app/resumes" /\
  path_join "/srv/app/" "resumes" = "/srv/app/resumes" /\
  path_join "/srv/app" "/etc" = "/etc" /\
  APPLICATIONS_DB Demo.cfg = "/srv/app/applications.json".
Proof. repeat split. Qed.

(** *** The claims *)

(** C1, as it is worded, fails: a name of three blanks is empty after
    trimming, and the contact handler answers 200. *)
Lemma contact_blank_name_accepted :
  PyStr.strip "   " = EmptyString /\
  fst (submit_contact Demo.cfg (Some (JObj (Demo.contact_fields_of "   " "ann@x.com"))) Demo.world)
  = Ok (json_response 200
          [("success", JBool true);
           ("message", JStr "Your inquiry has been submitted successfully! There was an issue sending a confirmation email, but we received your message and will contact you soon.")]).
Proof. split; vm_compute; reflexivity. Qed.

Lemma submit_contact_validation_witness :
  submit_contact Demo.cfg (Some (JObj (Demo.contact_fields_of "" "ann@x.com"))) Demo.world
  = (Ok contact_invalid, Demo.world).
Proof.
  apply (proj1 (submit_contact_validation Demo.cfg
                  (Demo.contact_fields_of "" "ann@x.com") Demo.world)).
  exists "name". split; [simpl; auto | reflexivity].
Defined.

Lemma submit_contact_accepts_filled_witness :
  exists text w',
    submit_contact Demo.cfg (Some (JObj (Demo.contact_fields_of "Ann" "not-an-email"))) Demo.world
    = (Ok (json_response 200 [("success", JBool true); ("message", JStr text)]), w')
    /\ files w' = files Demo.world.
Proof.
  apply (submit_contact_accepts_filled Demo.cfg
           (Demo.contact_fields_of "Ann" "not-an-email") Demo.world
           "Ann" "not-an-email" "Pricing" "Hi");
    first [reflexivity | discriminate].
Defined.

(** C3, as it is worded, fails on the name of the key: the record of an
    accepted submission, read back from the store, has no [resumePath];
    the path is under [resume_path]. *)
Lemma stored_record_has_no_resumePath :
  let run := submit_application Demo.cfg Demo.application_form Demo.cv Demo.world in
  fst run = Ok response_ok /\
  option_map (List.map (field "resumePath")) (stored_applications Demo.cfg (snd run))
  = Some [None] /\
  option_map (List.map (field "resume_path")) (stored_applications Demo.cfg (snd run))
  = Some [Some (JStr "/srv/app/resumes/00000000-0000-0000-0000-00003b9aca07-cv.pdf")].
Proof. vm_compute. repeat split; reflexivity. Qed.

Lemma stored_record_resume_on_disk_witness :
  exists f path l,
    Demo.cv = Some f /\
    field "resume_path" (Demo.record_in Demo.world) = Some (JStr path) /\
    path <> EmptyString /\
    files (Demo.prepared_in Demo.world) !! path = Some (stream f) /\
    stored_applications Demo.cfg (Demo.prepared_in Demo.world) = Some l /\
    files (Demo.saved_in Demo.world) !! APPLICATIONS_DB Demo.cfg
    = Some (dumps (JArr (l ++ [Demo.record_in Demo.world]))) /\
    files (Demo.saved_in Demo.world) !! path = Some (stream f).
Proof.
  apply (stored_record_resume_on_disk Demo.cfg Demo.application_form Demo.cv Demo.world);
    vm_compute; reflexivity.
Defined.

Lemma demo_uuids_fresh : uuids_fresh Demo.world 4.
Proof.
  intros i j Hi Hij Hj. simpl in Hj.
  do 4 (destruct i as [|i]; [do 4 (destruct j as [|j]; [first [lia | discriminate]|]); lia|]).
  lia.
Qed.

Lemma sequential_submissions_stored_witness :
  exists records,
    stored_applications Demo.cfg (snd (serve_applications Demo.cfg Demo.two_requests Demo.world))
    = Some records /\
    Forall2 submitted Demo.two_requests records /\
    NoDup (List.map (field "id") records) /\
    (Demo.two_requests <> [] ->
     exists text,
       files (snd (serve_applications Demo.cfg Demo.two_requests Demo.world))
         !! APPLICATIONS_DB Demo.cfg = Some text /\
       loads text = Some (JArr records)).
Proof.
  apply (sequential_submissions_stored Demo.cfg Demo.two_requests Demo.world
           [response_ok; response_ok]).
  - left. vm_compute. reflexivity.
  - exact demo_uuids_fresh.
  - vm_compute. reflexivity.
  - repeat constructor.
Defined.

(** C5 at the failing input: ten digits followed by a line feed are
    eleven characters, not of the ten-digit shape, yet they pass the phone
    check and the submission is accepted; [5123456789] is refused and
    [9123456789] passes. *)
Theorem phone_with_line_feed_accepted :
  ~ phone_shape Demo.phone_with_line_feed /\
  String.length Demo.phone_with_line_feed = 11 /\
  Re.match_anchored PHONE_RE Demo.phone_with_line_feed = true /\
  fst (submit_application Demo.cfg
         (<["phone" := Demo.phone_with_line_feed]> Demo.application_form) Demo.cv Demo.world)
  = Ok response_ok /\
  Re.match_anchored PHONE_RE "5123456789" = false /\
  Re.match_anchored PHONE_RE "9123456789" = true.
Proof.
  split; [intros [H _]; vm_compute in H; discriminate H|].
  vm_compute. repeat split; reflexivity.
Qed.

Lemma submit_application_requires_fields_witness :
  submit_application Demo.cfg (<["github" := "   "]> Demo.application_form) Demo.cv Demo.world
  = (Ok application_incomplete, Demo.world).
Proof.
  apply (submit_application_requires_fields Demo.cfg
           (<["github" := "   "]> Demo.application_form) Demo.cv Demo.world "github").
  - simpl. auto 10.
  - right. exists "   ". split; vm_compute; reflexivity.
Defined.

Lemma not_an_email_has_no_shape : ~ email_shape "not-an-email".
Proof.
  intros H.
  assert (E : Re.match_anchored EMAIL_RE "not-an-email" = true)
    by (apply email_check_shape; now left).
  vm_compute in E. discriminate E.
Qed.

(** The check of the required fields comes before the check of the
    address: with a field missing, an address without the shape is
    answered with the message about required fields. *)
Example email_error_hidden_by_missing_field :
  ~ email_shape "not-an-email" /\
  submit_application Demo.cfg
    (delete "linkedin" (<["email" := "not-an-email"]> Demo.application_form))
    Demo.cv Demo.world
  = (Ok (json_response 400
           [("success", JBool false); ("message", JStr "All required fields must be filled.")]),
     Demo.world).
Proof. split; [exact not_an_email_has_no_shape | vm_compute; reflexivity]. Qed.

(** C7 at the failing input: an address followed by a line feed is not of
    the shape [local@domain.tld], since its last part holds white space;
    yet with all fields filled it passes the check of the address, the
    submission is accepted and the address is stored with its line feed.
    [not-an-email] is refused with [Invalid email format.]. *)
Theorem email_with_line_feed_accepted :
  let data := <["email" := Demo.email_with_line_feed]> Demo.application_form in
  let run := submit_application Demo.cfg data Demo.cv Demo.world in
  ~ email_shape Demo.email_with_line_feed /\
  forallb (field_filled data) required_fields = true /\
  Re.match_anchored EMAIL_RE Demo.email_with_line_feed = true /\
  fst run = Ok response_ok /\
  option_map (List.map (field "email")) (stored_applications Demo.cfg (snd run))
  = Some [Some (JStr Demo.email_with_line_feed)] /\
  submit_application Demo.cfg (<["email" := "not-an-email"]> Demo.application_form)
    Demo.cv Demo.world
  = (Ok email_invalid, Demo.world).
Proof.
  cbv zeta. split.
  - intros H. apply email_re_shape, ReFacts.fullmatch_lang in H.
    vm_compute in H. discriminate H.
  - vm_compute. repeat split; reflexivity.
Qed.

Lemma store_failure_fails_request_witness :
  submit_application Demo.cfg Demo.application_form Demo.cv Demo.world_bad_store
  = (Ok (json_response 500
           [("success", JBool false);
            ("message", JStr "Failed to save application. Please try again later.")]),
     Demo.saved_in Demo.world_bad_store).
Proof.
  apply (store_failure_fails_request Demo.cfg Demo.application_form Demo.cv
           Demo.world_bad_store (Demo.record_in Demo.world_bad_store)
           (Demo.prepared_in Demo.world_bad_store));
    vm_compute; reflexivity.
Defined.

Lemma store_failure_keeps_resume_witness :
  exists f name response,
    Demo.cv = Some f /\ filename f = Some name /\
    submit_application Demo.cfg Demo.application_form Demo.cv Demo.world_bad_store
    = (Ok response, Demo.saved_in Demo.world_bad_store) /\
    status response = 500%Z /\
    files (Demo.saved_in Demo.world_bad_store)
    = <[upload_path Demo.cfg Demo.world_bad_store name := stream f]> (files Demo.world_bad_store) /\
    files (Demo.saved_in Demo.world_bad_store) !! upload_path Demo.cfg Demo.world_bad_store name
    = Some (stream f) /\
    files (Demo.saved_in Demo.world_bad_store) !! APPLICATIONS_DB Demo.cfg
    = files Demo.world_bad_store !! APPLICATIONS_DB Demo.cfg.
Proof.
  apply (store_failure_keeps_resume Demo.cfg Demo.application_form Demo.cv
           Demo.world_bad_store (Demo.record_in Demo.world_bad_store)
           (Demo.prepared_in Demo.world_bad_store));
    vm_compute; reflexivity.
Defined.

(** The career mail on the example deployment: the template is there, the
    logo is not, the transport accepts; and without the template. *)
Example career_mail_without_logo :
  let run := send_career_reply_email Demo.cfg (JStr "ann@x.com") (JStr "Ann") (JStr "Lee")
               (JStr "Developer") Demo.world in
  fst run = Ok true /\
  outbox (snd run)
  = [career_message Demo.cfg (JStr "ann@x.com") (JStr "Developer")
       "<p>Dear Ann Lee, we received your application for Developer.</p>" []].
Proof. vm_compute. split; reflexivity. Qed.

Example career_mail_without_template :
  let run := send_career_reply_email Demo.cfg (JStr "ann@x.com") (JStr "Ann") (JStr "Lee")
               (JStr "Developer") (set_files ∅ Demo.world) in
  fst run = Ok false /\ outbox (snd run) = [].
Proof. vm_compute. split; reflexivity. Qed.

End Examples.

(** * More of the program *)

Module JsonMore.
Import Json StrFacts JsonFacts.
Local Arguments String.append : simpl nomatch.

Lemma existsb_eqb_in k l : existsb (String.eqb k) l = true <-> In k l.
Proof.
  rewrite existsb_exists. split.
  - intros (x & Hin & E). apply String.eqb_eq in E. now subst.
  - intros H. exists k. split; [exact H | apply String.eqb_refl].
Qed.

Lemma dict_set_keys k v acc :
  List.map fst (dict_set k v acc)
  = if existsb (String.eqb k) (List.map fst acc)
    then List.map fst acc else List.map fst acc ++ [k].
Proof.
  induction acc as [|[k' v'] acc IH]; simpl; [reflexivity|].
  destruct (String.eqb_spec k k') as [<- | Hne]; simpl; [reflexivity|].
  rewrite IH. destruct (existsb (String.eqb k) (List.map fst acc)); reflexivity.
Qed.

Lemma distinct_snoc l k :
  distinct l = true -> existsb (String.eqb k) l = false -> distinct (l ++ [k]) = true.
Proof.
  induction l as [|a l IH]; simpl; [reflexivity|].
  intros Hd Hk. apply andb_true_iff in Hd as [Ha Hd].
  apply orb_false_iff in Hk as [Hka Hk].
  apply andb_true_iff. split; [|auto].
  apply negb_true_iff. rewrite existsb_app. apply negb_true_iff in Ha. rewrite Ha. simpl.
  rewrite String.eqb_sym, Hka. reflexivity.
Qed.

Lemma dict_set_distinct k v acc :
  distinct (List.map fst acc) = true -> distinct (List.map fst (dict_set k v acc)) = true.
Proof.
  intros Hd. rewrite dict_set_keys.
  destruct (existsb (String.eqb k) (List.map fst acc)) eqn:E; [exact Hd|].
  now apply distinct_snoc.
Qed.

Lemma dict_set_values (p : json -> bool) k v acc :
  p v = true -> forallb (fun kv => p (snd kv)) acc = true ->
  forallb (fun kv => p (snd kv)) (dict_set k v acc) = true.
Proof.
  intros Hv. induction acc as [|[k' v'] acc IH]; simpl; [now rewrite Hv|].
  intros H. apply andb_true_iff in H as [H1 H2].
  destruct (String.eqb k k'); simpl.
  - now rewrite Hv, H2.
  - now rewrite H1, IH.
Qed.

Lemma build_dict_well_formed pairs : forall acc,
  distinct (List.map fst acc) = true ->
  forallb (fun kv => well_formed (snd kv)) acc = true ->
  forallb (fun kv => well_formed (snd kv)) pairs = true ->
  distinct (List.map fst (build_dict acc pairs)) = true /\
  forallb (fun kv => well_formed (snd kv)) (build_dict acc pairs) = true.
Proof.
  induction pairs as [|[k v] pairs IH]; intros acc Hd Ha Hp; simpl; [auto|].
  simpl in Hp. apply andb_true_iff in Hp as [Hv Hp].
  apply IH; [now apply dict_set_distinct | now apply dict_set_values | exact Hp].
Qed.

Lemma normalize_is_well_formed v : well_formed (normalize v) = true.
Proof.
  induction v using json_ind; try reflexivity.
  - simpl. induction H as [|e l He Hl IH]; simpl; [reflexivity|]. now rewrite He, IH.
  - simpl. apply andb_true_iff.
    apply (build_dict_well_formed _ []); try reflexivity.
    induction H as [|kv d He Hd IH]; simpl; [reflexivity|]. now rewrite He, IH.
Qed.

(** Whatever [loads] returns is a value Python can hold. *)
Lemma loads_well_formed s v : loads s = Some v -> well_formed v = true.
Proof.
  unfold loads. destruct (scan_value _ _) as [[v0 rest]|]; [|discriminate].
  destruct (skip_ws rest); [|discriminate].
  intros E. injection E as <-. apply normalize_is_well_formed.
Qed.

End JsonMore.

Module AppMore.
Import Json Py App StrFacts ReFacts PyFacts JsonFacts JsonMore AppFacts.
Local Arguments String.append : simpl nomatch.
Local Arguments Re.match_anchored : simpl never.
Local Arguments uuid_str : simpl never.
Local Arguments path_join : simpl never.
Local Arguments dumps : simpl never.
Local Arguments loads : simpl never.
Local Arguments PyStr.replace : simpl never.

Section More.

Variable cfg : Config.

(** *** The record store *)

Lemma stored_well_formed w l :
  stored_applications cfg w = Some l -> forallb well_formed l = true.
Proof.
  unfold stored_applications.
  destruct (files w !! APPLICATIONS_DB cfg) as [text|]; [|intros [= <-]; reflexivity].
  destruct (String.length text =? 0)%nat; [intros [= <-]; reflexivity|].
  destruct (loads text) as [[| | | | l' |]|] eqn:E; try discriminate.
  intros [= <-]. apply loads_well_formed in E. exact E.
Qed.

Lemma save_application_data_succeeds data w l :
  stored_applications cfg w = Some l ->
  readable w (APPLICATIONS_DB cfg) = true ->
  writable w (APPLICATIONS_DB cfg) = true ->
  well_formed data = true ->
  save_application_data cfg data w
  = (Ok true, set_files (<[APPLICATIONS_DB cfg := dumps (JArr (l ++ [data]))]> (files w)) w)
  /\ stored_applications cfg
       (set_files (<[APPLICATIONS_DB cfg := dumps (JArr (l ++ [data]))]> (files w)) w)
     = Some (l ++ [data]).
Proof.
  intros Hst Hr Hw Hdata.
  pose proof (stored_well_formed w l Hst) as Hwf.
  assert (Hload : load_applications cfg w = (Ok (JArr l), w)).
  { rewrite load_applications_run. revert Hst. unfold stored_applications.
    destruct (files w !! APPLICATIONS_DB cfg) as [text|]; [|intros [= <-]; reflexivity].
    destruct (String.length text =? 0)%nat; [intros [= <-]; reflexivity|].
    rewrite Hr. destruct (loads text) as [[| | | | l' |]|]; try discriminate.
    now intros [= <-]. }
  rewrite save_application_data_run, Hload, Hw. split; [reflexivity|].
  apply stored_written.
  - rewrite forallb_app, Hwf. cbn [forallb]. now rewrite Hdata.
  - cbn [files set_files]. apply lookup_insert_eq.
Qed.

(** X1.  When the store is missing, empty or holds an array, and the file
    may be read and written, [save_application_data] returns [True]; the
    store then reads back as the former array followed by the new record,
    and no other file has changed. *)
Theorem save_application_data_appends data w l :
  stored_applications cfg w = Some l ->
  readable w (APPLICATIONS_DB cfg) = true ->
  writable w (APPLICATIONS_DB cfg) = true ->
  well_formed data = true ->
  exists w',
    save_application_data cfg data w = (Ok true, w') /\
    stored_applications cfg w' = Some (l ++ [data]) /\
    (forall p, p <> APPLICATIONS_DB cfg -> files w' !! p = files w !! p) /\
    log w' = log w.
Proof.
  intros Hst Hr Hw Hdata.
  destruct (save_application_data_succeeds data w l Hst Hr Hw Hdata) as [Hrun Hst'].
  eexists. split; [exact Hrun|]. split; [exact Hst'|]. split; [|reflexivity].
  intros p Hp. cbn [files set_files]. now apply lookup_insert_ne.
Qed.

(** X2.  When the store file holds JSON that is not an array (an object,
    a number, text, a boolean or [null]), [save_application_data] cannot
    append to it: it returns [False], logs the error and leaves every
    file as it was. *)
Theorem save_application_data_rejects_non_array data w text v :
  files w !! APPLICATIONS_DB cfg = Some text ->
  readable w (APPLICATIONS_DB cfg) = true ->
  loads text = Some v ->
  (forall l, v <> JArr l) ->
  save_application_data cfg data w
  = (Ok false,
     set_log (log w ++ [(ERROR, "Failed to save application data: "
                                +:+ str_exn cfg (AttributeError "append"))]) w).
Proof.
  intros Hf Hr Hl Harr.
  rewrite save_application_data_run, load_applications_run, Hf.
  destruct text as [|c text]; [vm_compute in Hl; discriminate Hl|].
  cbn [String.length Nat.eqb]. rewrite Hr, Hl.
  destruct v as [| | | | l |]; try reflexivity.
  destruct (Harr l eq_refl).
Qed.

(** X3.  Two records saved one after the other end up in the store in that
    order, after what was there. *)
Theorem save_application_data_twice a b w l :
  stored_applications cfg w = Some l ->
  readable w (APPLICATIONS_DB cfg) = true ->
  writable w (APPLICATIONS_DB cfg) = true ->
  well_formed a = true -> well_formed b = true ->
  exists w1 w2,
    save_application_data cfg a w = (Ok true, w1) /\
    save_application_data cfg b w1 = (Ok true, w2) /\
    stored_applications cfg w2 = Some (l ++ [a; b]).
Proof.
  intros Hst Hr Hw Ha Hb.
  destruct (save_application_data_succeeds a w l Hst Hr Hw Ha) as [Hrun1 Hst1].
  destruct (save_application_data_succeeds b _ (l ++ [a]) Hst1 Hr Hw Hb) as [Hrun2 Hst2].
  eexists _, _. split; [exact Hrun1|]. split; [exact Hrun2|].
  rewrite Hst2, <- app_assoc. reflexivity.
Qed.

(** *** Where uploads go *)

Lemma length_string_of_list l : String.length (string_of_list_ascii l) = length l.
Proof. induction l; simpl; congruence. Qed.

Lemma length_dashed h : length h = 32 -> length (dashed h) = 36.
Proof.
  intros H. do 32 (destruct h as [|? h]; [discriminate|]).
  destruct h; [reflexivity | discriminate].
Qed.

Lemma length_uuid_str u : String.length (uuid_str u) = 36.
Proof.
  unfold uuid_str. rewrite length_string_of_list.
  apply length_dashed, length_hex_digits.
Qed.

Lemma append_inj_length s1 : forall s2 t1 t2,
  String.length s1 = String.length s2 ->
  s1 +:+ t1 = s2 +:+ t2 -> s1 = s2 /\ t1 = t2.
Proof.
  induction s1 as [|c s1 IH]; intros [|d s2] t1 t2 Hl E; try discriminate.
  - auto.
  - simpl in Hl, E. injection E as -> E. injection Hl as Hl.
    destruct (IH _ _ _ Hl E) as [-> ->]. auto.
Qed.

Lemma resume_path_prefix u name :
  resume_path_for cfg u name
  = dir_prefix (RESUMES_FOLDER cfg) +:+ uuid_str u +:+ "-" +:+ name.
Proof.
  unfold resume_path_for.
  destruct (uuid_str_head u) as (c & s & Hu & Hc).
  rewrite path_join_relative; [reflexivity|].
  rewrite Hu, append_cons. now apply starts_with_slash_head.
Qed.

Lemma resume_path_inj u u' name name' :
  (u < 2 ^ 128)%N -> (u' < 2 ^ 128)%N ->
  resume_path_for cfg u name = resume_path_for cfg u' name' ->
  u = u' /\ name = name'.
Proof.
  intros Hu Hu' E. rewrite !resume_path_prefix in E.
  apply append_inv_head in E.
  apply append_inj_length in E as [E1 E2]; [|now rewrite !length_uuid_str].
  split; [now apply uuid_str_inj | now injection E2].
Qed.

(** X4.  Uploads named with different UUIDs go to different paths,
    whatever their file names are; with the same UUID the paths differ
    when the names do. *)
Theorem resume_paths_distinct u u' name name' :
  (u < 2 ^ 128)%N -> (u' < 2 ^ 128)%N ->
  u <> u' \/ name <> name' ->
  resume_path_for cfg u name <> resume_path_for cfg u' name'.
Proof.
  intros Hu Hu' Hne E.
  destruct (resume_path_inj u u' name name' Hu Hu' E) as [Eu En].
  destruct Hne as [Hne | Hne]; contradiction.
Qed.

Lemma templates_path_shape :
  exists tail, template_path cfg = dir_prefix (BASE_DIR cfg) +:+ "templates" +:+ tail.
Proof.
  unfold template_path, TEMPLATES_FOLDER.
  rewrite (path_join_relative (BASE_DIR cfg) "templates") by reflexivity.
  rewrite path_join_relative by reflexivity.
  unfold dir_prefix at 1. destruct (negb _ || _); rewrite !append_assoc; eauto.
Qed.

Lemma logo_path_shape :
  exists tail, logo_path cfg = dir_prefix (BASE_DIR cfg) +:+ "assets" +:+ tail.
Proof.
  unfold logo_path, ASSETS_FOLDER.
  rewrite (path_join_relative (BASE_DIR cfg) "assets") by reflexivity.
  rewrite (path_join_relative _ "images") by reflexivity.
  rewrite path_join_relative by reflexivity.
  unfold dir_prefix at 1 2.
  repeat (destruct (negb _ || _)); rewrite !append_assoc; eauto.
Qed.

Lemma resume_path_not_template u name : resume_path_for cfg u name <> template_path cfg.
Proof.
  destruct (resume_path_shape cfg u name) as [tail ->].
  destruct templates_path_shape as [tail' ->].
  intros E. apply append_inv_head in E. discriminate.
Qed.

Lemma resume_path_not_logo u name : resume_path_for cfg u name <> logo_path cfg.
Proof.
  destruct (resume_path_shape cfg u name) as [tail ->].
  destruct logo_path_shape as [tail' ->].
  intros E. apply append_inv_head in E. discriminate.
Qed.

(** X5.  An upload is never written over the store, the mail template or
    the logo: its path is none of theirs. *)
Theorem resume_path_spares_application_files u name :
  resume_path_for cfg u name <> APPLICATIONS_DB cfg /\
  resume_path_for cfg u name <> template_path cfg /\
  resume_path_for cfg u name <> logo_path cfg.
Proof.
  split; [apply resume_path_not_db|].
  split; [apply resume_path_not_template | apply resume_path_not_logo].
Qed.

(** *** [submit_contact] *)







Ltac contact_leaf :=
  eexists; split; [reflexivity|]; split; [repeat split|]; red_m;
  split; [reflexivity|];
  cbn [app]; rewrite <- ?app_assoc, ?app_nil_r; cbn [app]; reflexivity.

Lemma submit_contact_accepted_run d w :
  forallb (fun key => truthy (contact_value d key)) contact_fields = true ->
  exists w',
    submit_contact cfg (Some (JObj d)) w
    = (Ok (contact_accepted (smtp_ok w (confirmation_call cfg w))), w') /\
    same_disk w w' /\
    mail_calls w' = S (confirmation_call cfg w) /\
    outbox w' = outbox w ++ company_mails cfg w d ++ confirmation_mails cfg w d.
Proof.
  intros H. unfold submit_contact, try_except, bind, data_get, ret.
  unfold contact_fields, contact_value in H. cbn [forallb] in H.
  cbn [forallb]. rewrite H. cbn [negb].
  unfold company_mails, confirmation_mails, confirmation_call, company_receiver, contact_value.
  destruct (RECEIVER_EMAIL cfg) as [[|c r]|].
  - unfold log_info. rewrite send_contact_reply_email_run. red_m.
    destruct (smtp_ok w (mail_calls w)); contact_leaf.
  - unfold mail_send, log_info, log_error.
    destruct (smtp_ok w (mail_calls w)); red_m; rewrite send_contact_reply_email_run; red_m;
      destruct (smtp_ok w (S (mail_calls w))); contact_leaf.
  - unfold log_info. rewrite send_contact_reply_email_run. red_m.
    destruct (smtp_ok w (mail_calls w)); contact_leaf.
Qed.

Lemma submit_contact_failed_run request_json w :
  (request_json = None \/ exists v, request_json = Some v /\ forall d, v <> JObj d) ->
  exists e,
    submit_contact cfg request_json w
    = (Ok (contact_failed cfg e),
       set_log (log w ++ [(ERROR, "Error processing contact request: " +:+ str_exn cfg e)]) w).
Proof.
  unfold submit_contact, try_except, bind, data_get, ret, raise, log_error.
  intros [-> | (v & -> & Hv)]; [eexists; reflexivity|].
  destruct v as [| | | | |d]; try (eexists; reflexivity).
  destruct (Hv d eq_refl).
Qed.

(** X6.  An accepted contact request hands the company mail to the
    transport first, when a receiver is configured, and the confirmation
    to the sender afterwards; the second is attempted whatever happened to
    the first.  The text of the response tells whether the confirmation
    went out.  Nothing on the disk changes. *)
Theorem submit_contact_mails d w :
  forallb (fun key => truthy (contact_value d key)) contact_fields = true ->
  exists w',
    submit_contact cfg (Some (JObj d)) w
    = (Ok (contact_accepted (smtp_ok w (confirmation_call cfg w))), w') /\
    same_disk w w' /\
    mail_calls w' = S (confirmation_call cfg w) /\
    outbox w' = outbox w ++ company_mails cfg w d ++ confirmation_mails cfg w d.
Proof. apply submit_contact_accepted_run. Qed.

(** X7.  Without a configured receiver an accepted contact request makes
    one call of [mail.send], for the confirmation, and no company mail
    reaches the outbox. *)
Theorem submit_contact_without_receiver d w :
  forallb (fun key => truthy (contact_value d key)) contact_fields = true ->
  (RECEIVER_EMAIL cfg = None \/ RECEIVER_EMAIL cfg = Some EmptyString) ->
  exists sent w',
    submit_contact cfg (Some (JObj d)) w = (Ok (contact_accepted sent), w') /\
    mail_calls w' = S (mail_calls w) /\
    outbox w' = outbox w ++
                (if sent
                 then [contact_reply_message cfg (contact_value d "email")
                         (contact_value d "name") (contact_value d "subject")]
                 else []).
Proof.
  intros Hd Hr. destruct (submit_contact_accepted_run d w Hd) as (w' & Hrun & _ & Hc & Ho).
  assert (Hnone : company_receiver cfg = None).
  { unfold company_receiver. destruct Hr as [-> | ->]; reflexivity. }
  unfold confirmation_call, company_mails, confirmation_mails, confirmation_call in *.
  rewrite Hnone in *. exists (smtp_ok w (mail_calls w)), w'.
  split; [exact Hrun|]. split; [exact Hc|]. exact Ho.
Qed.

(** X8.  A request without JSON, or whose JSON is not an object, is
    answered with 500 and [success: false]; the error is logged, no mail
    is attempted and nothing else changes. *)
Theorem submit_contact_rejects_non_object request_json w :
  (request_json = None \/ exists v, request_json = Some v /\ forall d, v <> JObj d) ->
  exists e,
    submit_contact cfg request_json w
    = (Ok (contact_failed cfg e),
       set_log (log w ++ [(ERROR, "Error processing contact request: " +:+ str_exn cfg e)]) w).
Proof. apply submit_contact_failed_run. Qed.

(** X9.  The contact handler answers every request: it raises nothing,
    its status is 200, 400 or 500, and it never writes a file. *)
Theorem submit_contact_always_responds request_json w :
  exists response w',
    submit_contact cfg request_json w = (Ok response, w') /\
    (status response = 200 \/ status response = 400 \/ status response = 500)%Z /\
    same_disk w w'.
Proof.
  assert (Hfail : (request_json = None \/
                   exists v, request_json = Some v /\ forall d, v <> JObj d) ->
                  exists response w',
                    submit_contact cfg request_json w = (Ok response, w') /\
                    (status response = 200 \/ status response = 400
                     \/ status response = 500)%Z /\
                    same_disk w w').
  { intros H. destruct (submit_contact_failed_run request_json w H) as (e & ->).
    eexists _, _. split; [reflexivity|]. split; [auto | repeat split]. }
  destruct request_json as [[| b | z | s | l | d]|];
    try (apply Hfail; first [now left | right; eexists; split; [reflexivity | discriminate]]).
  destruct (forallb (fun key => truthy (contact_value d key)) contact_fields) eqn:E.
  - destruct (submit_contact_accepted_run d w E) as (w' & -> & Hd & _).
    eexists _, _. split; [reflexivity|]. split; [auto | exact Hd].
  - rewrite (submit_contact_falsy cfg d w E).
    eexists _, _. split; [reflexivity|]. split; [auto | apply same_disk_refl].
Qed.

(** *** [submit_application] *)





Lemma resume_missing_named f name :
  filename f = Some name -> name <> EmptyString -> resume_missing (Some f) = false.
Proof.
  intros Hf Hn. unfold resume_missing. rewrite Hf. destruct name; [congruence | reflexivity].
Qed.

Lemma prepare_application_runs data resume w f name :
  well_submitted data resume f name ->
  prepare_application cfg data resume w
  = if writable w (upload_path cfg w name)
    then (Ok (inr (record_of cfg w data name)), after_upload cfg w name f)
    else (Raise (PermissionError (upload_path cfg w name)),
          set_uuid_calls (S (uuid_calls w)) w).
Proof.
  intros (Hreq & (email & He & Hem) & (phone & Hp & Hpm) & -> & Hf & Hn).
  unfold prepare_application. unfold bind, data_item, ret, raise.
  rewrite Hreq, He. cbn [negb]. rewrite Hem, Hp. cbn [negb]. rewrite Hpm. cbn [negb].
  rewrite (resume_missing_named f name Hf Hn).
  unfold upload_name. rewrite Hf. unfold uuid4, write_file, now_isoformat. red_m.
  fold (upload_path cfg w name).
  destruct (writable w (upload_path cfg w name)); reflexivity.
Qed.

(** X10.  The application handler answers every request: it raises
    nothing and its status is 200, 400 or 500.  A request answered with
    400 has changed nothing at all: no file, no log entry, no UUID drawn. *)
Theorem submit_application_always_responds data resume w :
  exists response w',
    submit_application cfg data resume w = (Ok response, w') /\
    (status response = 200 \/ status response = 400 \/ status response = 500)%Z /\
    (status response = 400%Z -> w' = w).
Proof.
  destruct (submit_application_cases cfg data resume w)
    as [(r & _ & Hr & Hs) | [(e & w1 & r & w' & _ & Hr & Hs & _) |
        [(record & w1 & w2 & _ & _ & Hr) | (record & w1 & w2 & w' & _ & _ & Hr & _)]]];
    rewrite Hr; eexists _, _; (split; [reflexivity|]).
  - split; [auto | reflexivity].
  - split; [auto|]. rewrite Hs. discriminate.
  - split; [right; right; reflexivity | discriminate].
  - split; [left; reflexivity | discriminate].
Qed.

(** X11.  A form that passes the three checks but comes without a file,
    or with a file without a name, is answered with 400 and
    [Resume file is required.]; nothing changes. *)
Theorem submit_application_requires_resume data resume w email phone :
  forallb (field_filled data) required_fields = true ->
  data !! "email" = Some email -> Re.match_anchored EMAIL_RE email = true ->
  data !! "phone" = Some phone -> Re.match_anchored PHONE_RE phone = true ->
  resume_missing resume = true ->
  submit_application cfg data resume w = (Ok resume_required, w).
Proof.
  intros Hreq He Hem Hp Hpm Hmiss.
  unfold submit_application, prepare_application. unfold try_except, bind, data_item, ret.
  rewrite Hreq, He. cbn [negb]. rewrite Hem, Hp. cbn [negb]. rewrite Hpm. cbn [negb].
  rewrite Hmiss. reflexivity.
Qed.

(** X12.  When the upload cannot be written, the request is answered with
    500 and the general message; the error is logged, no file is written,
    nothing is stored and no mail is attempted. *)
Theorem submit_application_upload_failure data resume w f name :
  well_submitted data resume f name ->
  writable w (upload_path cfg w name) = false ->
  exists w',
    submit_application cfg data resume w = (Ok application_failed, w') /\
    files w' = files w /\ outbox w' = outbox w /\ mail_calls w' = mail_calls w /\
    log w' = log w ++ [(ERROR, "Application submission failed: "
                               +:+ str_exn cfg (PermissionError (upload_path cfg w name)))].
Proof.
  intros Hsub Hw. unfold submit_application, try_except, bind.
  rewrite (prepare_application_runs data resume w f name Hsub), Hw.
  unfold log_error, ret. eexists. split; [reflexivity|]. repeat split.
Qed.

Lemma form_value_stored id date data path key v :
  In key (required_fields ++ ["intro"]) ->
  data !! key = Some v ->
  field key (build_application_data id date data path) = Some (JStr v).
Proof.
  intros Hin Hv. unfold field, build_application_data.
  cbn [app required_fields] in Hin.
  repeat (destruct Hin as [<- | Hin];
          [cbn [dict_get String.eqb Ascii.eqb Bool.eqb]; unfold form_get; rewrite Hv;
           reflexivity|]).
  destruct Hin.
Qed.

Lemma record_of_item w data name key :
  In key ["email"; "firstName"; "lastName"; "applyingFor"] ->
  record_item (record_of cfg w data name) key = ret (form_get data key).
Proof. apply record_fields. Qed.

Lemma submit_application_accepted_run data resume w f name l :
  well_submitted data resume f name ->
  writable w (upload_path cfg w name) = true ->
  stored_applications cfg w = Some l ->
  readable w (APPLICATIONS_DB cfg) = true ->
  writable w (APPLICATIONS_DB cfg) = true ->
  let w2 := set_files (<[APPLICATIONS_DB cfg := dumps (JArr (l ++ [record_of cfg w data name]))]>
                         (files (after_upload cfg w name f))) (after_upload cfg w name f) in
  stored_applications cfg w2 = Some (l ++ [record_of cfg w data name]) /\
  submit_application cfg data resume w
  = (let (r, w') := send_career_reply_email cfg (form_get data "email")
                      (form_get data "firstName") (form_get data "lastName")
                      (form_get data "applyingFor") w2 in
     match r with
     | Ok _ => (Ok response_ok, w')
     | Raise e =>
         (Ok application_failed,
          set_log (log w' ++ [(ERROR, "Application submission failed: " +:+ str_exn cfg e)]) w')
     end).
Proof.
  intros Hsub Hwu Hst Hr Hw w2.
  assert (Hst1 : stored_applications cfg (after_upload cfg w name f) = Some l).
  { rewrite <- Hst. apply stored_same_file. unfold after_upload. cbn [files set_files
      set_clock_calls set_uuid_calls]. apply lookup_insert_ne, resume_path_not_db. }
  destruct (save_application_data_succeeds (record_of cfg w data name) (after_upload cfg w name f) l
              Hst1 Hr Hw (well_formed_record _ _ _ _)) as [Hsave Hst2].
  split; [exact Hst2|].
  unfold submit_application, try_except, bind.
  rewrite (prepare_application_runs data resume w f name Hsub), Hwu.
  rewrite Hsave. cbn [negb].
  rewrite !record_of_item by (simpl; auto). unfold ret at 1 2 3 4.
  fold w2.
  destruct (send_career_reply_email cfg _ _ _ _ w2) as [[b|e] w']; reflexivity.
Qed.

Lemma submit_application_accepted_world data resume w f name l :
  well_submitted data resume f name ->
  writable w (upload_path cfg w name) = true ->
  stored_applications cfg w = Some l ->
  readable w (APPLICATIONS_DB cfg) = true ->
  writable w (APPLICATIONS_DB cfg) = true ->
  exists w',
    submit_application cfg data resume w = (Ok response_ok, w') /\
    stored_applications cfg w' = Some (l ++ [record_of cfg w data name]) /\
    files w' = <[APPLICATIONS_DB cfg := dumps (JArr (l ++ [record_of cfg w data name]))]>
                 (<[upload_path cfg w name := stream f]> (files w)) /\
    readable w' = readable w /\ writable w' = writable w /\
    uuid_source w' = uuid_source w /\ uuid_calls w' = S (S (uuid_calls w)).
Proof.
  intros Hsub Hwu Hst Hr Hw.
  destruct (submit_application_accepted_run data resume w f name l Hsub Hwu Hst Hr Hw)
    as [Hst2 Hrun].
  destruct (send_career_reply_email_returns cfg (form_get data "email")
              (form_get data "firstName") (form_get data "lastName")
              (form_get data "applyingFor")
              (set_files (<[APPLICATIONS_DB cfg := dumps (JArr (l ++ [record_of cfg w data name]))]>
                            (files (after_upload cfg w name f))) (after_upload cfg w name f)))
    as (b & w' & Hmail & Hd & _).
  rewrite Hmail in Hrun. exists w'. split; [exact Hrun|].
  destruct Hd as (Hf & Hrd & Hwr & Hus & Huc & _).
  split; [rewrite <- Hst2; now apply stored_same_file; rewrite Hf|].
  rewrite Hf, Hrd, Hwr, Hus, Huc. repeat split.
Qed.

(** X13.  A form that passes the three checks and comes with a named file
    is answered with 200 when the upload and the store can be written and
    the store holds an array, whatever the mail transport does.  The
    store then reads back as the former array followed by the new record,
    the upload is on the disk, and the record holds every submitted
    value as it was sent, untrimmed. *)
Theorem submit_application_accepts data resume w f name l :
  well_submitted data resume f name ->
  writable w (upload_path cfg w name) = true ->
  stored_applications cfg w = Some l ->
  readable w (APPLICATIONS_DB cfg) = true ->
  writable w (APPLICATIONS_DB cfg) = true ->
  exists w',
    submit_application cfg data resume w = (Ok response_ok, w') /\
    stored_applications cfg w' = Some (l ++ [record_of cfg w data name]) /\
    files w' !! upload_path cfg w name = Some (stream f) /\
    (forall key v, In key (required_fields ++ ["intro"]) -> data !! key = Some v ->
                   field key (record_of cfg w data name) = Some (JStr v)).
Proof.
  intros Hsub Hwu Hst Hr Hw.
  destruct (submit_application_accepted_world data resume w f name l Hsub Hwu Hst Hr Hw)
    as (w' & Hrun & Hst' & Hf & _).
  exists w'. split; [exact Hrun|]. split; [exact Hst'|]. split.
  - rewrite Hf.
    rewrite lookup_insert_ne
      by (intros E; symmetry in E; revert E; apply resume_path_not_db).
    apply lookup_insert_eq.
  - intros key v Hin Hv. now apply form_value_stored.
Qed.

(** X14.  The UUID in the name of an upload keeps it apart from the
    upload before it: after two accepted submissions in a row, whose
    file-name UUIDs differ, both uploads are on the disk with their own
    bytes, also when the two files were sent under the same name. *)
Theorem uploads_kept_apart data1 resume1 f1 name1 data2 resume2 f2 name2 w l :
  well_submitted data1 resume1 f1 name1 ->
  well_submitted data2 resume2 f2 name2 ->
  (forall p, writable w p = true) ->
  readable w (APPLICATIONS_DB cfg) = true ->
  stored_applications cfg w = Some l ->
  uuid_value w (uuid_calls w) <> uuid_value w (S (S (uuid_calls w))) ->
  exists w1 w2,
    submit_application cfg data1 resume1 w = (Ok response_ok, w1) /\
    submit_application cfg data2 resume2 w1 = (Ok response_ok, w2) /\
    upload_path cfg w name1 <> upload_path cfg w1 name2 /\
    files w2 !! upload_path cfg w name1 = Some (stream f1) /\
    files w2 !! upload_path cfg w1 name2 = Some (stream f2).
Proof.
  intros Hs1 Hs2 Hw Hr Hst Hfresh.
  destruct (submit_application_accepted_world data1 resume1 w f1 name1 l Hs1 (Hw _) Hst Hr
              (Hw _)) as (w1 & Hrun1 & Hst1 & Hf1 & Hrd1 & Hwr1 & Hus1 & Huc1).
  assert (Hw1 : forall p, writable w1 p = true) by (intros p; rewrite Hwr1; apply Hw).
  assert (Hr1 : readable w1 (APPLICATIONS_DB cfg) = true) by (rewrite Hrd1; exact Hr).
  destruct (submit_application_accepted_world data2 resume2 w1 f2 name2 _ Hs2 (Hw1 _) Hst1 Hr1
              (Hw1 _)) as (w2 & Hrun2 & _ & Hf2 & _).
  assert (Hne : upload_path cfg w name1 <> upload_path cfg w1 name2).
  { unfold upload_path, uuid_value. rewrite Hus1, Huc1.
    intros E. apply resume_path_inj in E as [E _]; [|apply N.mod_lt; lia ..].
    exact (Hfresh E). }
  exists w1, w2. split; [exact Hrun1|]. split; [exact Hrun2|]. split; [exact Hne|].
  rewrite Hf2, Hf1. split.
  - rewrite lookup_insert_ne
      by (intros E; symmetry in E; revert E; apply resume_path_not_db).
    rewrite lookup_insert_ne by (intros E; symmetry in E; exact (Hne E)).
    rewrite lookup_insert_ne
      by (intros E; symmetry in E; revert E; apply resume_path_not_db).
    apply lookup_insert_eq.
  - rewrite lookup_insert_ne
      by (intros E; symmetry in E; revert E; apply resume_path_not_db).
    apply lookup_insert_eq.
Qed.

Lemma db_not_template : APPLICATIONS_DB cfg <> template_path cfg.
Proof.
  rewrite applications_db_path. destruct templates_path_shape as [tail ->].
  intros E. apply append_inv_head in E. discriminate.
Qed.

Lemma db_not_logo : APPLICATIONS_DB cfg <> logo_path cfg.
Proof.
  rewrite applications_db_path. destruct logo_path_shape as [tail ->].
  intros E. apply append_inv_head in E. discriminate.
Qed.

(** The files the mail helper reads are the ones of before the request. *)
Lemma mail_files_kept w name f text p :
  p = template_path cfg \/ p = logo_path cfg ->
  files (set_files (<[APPLICATIONS_DB cfg := text]> (files (after_upload cfg w name f)))
           (after_upload cfg w name f)) !! p
  = files w !! p.
Proof.
  intros Hp. unfold after_upload. cbn [files set_files set_clock_calls set_uuid_calls].
  rewrite lookup_insert_ne by (destruct Hp as [-> | ->]; [apply db_not_template | apply db_not_logo]).
  apply lookup_insert_ne.
  destruct Hp as [-> | ->]; [apply resume_path_not_template | apply resume_path_not_logo].
Qed.

(** X15.  An accepted application is confirmed to the address of the
    form.  When the template can be read and holds no carriage return,
    the logo is absent or empty and the transport accepts the message,
    exactly one message is added to the outbox: it goes to the submitted
    address alone, from the configured sender; its subject is
    [Application Received for], the submitted role and
    [- InGrowwth Innovations!]; its page is the template as it was before
    the request with [{first_name}], [{last_name}] and [{role_name}]
    replaced, in that order, by the submitted first name, last name and
    role; it has no plain text and no attachment. *)
Theorem submit_application_confirmation data resume w f name l html email fn ln role :
  well_submitted data resume f name ->
  writable w (upload_path cfg w name) = true ->
  stored_applications cfg w = Some l ->
  readable w (APPLICATIONS_DB cfg) = true ->
  writable w (APPLICATIONS_DB cfg) = true ->
  files w !! template_path cfg = Some html ->
  readable w (template_path cfg) = true ->
  no_carriage_return html = true ->
  (files w !! logo_path cfg = None \/ files w !! logo_path cfg = Some EmptyString) ->
  smtp_ok w (mail_calls w) = true ->
  data !! "email" = Some email -> data !! "firstName" = Some fn ->
  data !! "lastName" = Some ln -> data !! "applyingFor" = Some role ->
  exists w' m,
    submit_application cfg data resume w = (Ok response_ok, w') /\
    outbox w' = outbox w ++ [m] /\
    msg_recipients m = [JStr email] /\
    msg_sender m = SENDER_EMAIL cfg /\
    msg_subject m = "Application Received for " +:+ role +:+ " - InGrowwth Innovations!" /\
    msg_html m = Some (PyStr.replace "{role_name}" role
                         (PyStr.replace "{last_name}" ln
                            (PyStr.replace "{first_name}" fn html))) /\
    msg_body m = None /\
    msg_attachments m = [].
Proof.
  intros Hsub Hwu Hst Hr Hw Ht Hrt _ Hlogo Hsmtp He Hfn Hln Hrole.
  destruct (submit_application_accepted_run data resume w f name l Hsub Hwu Hst Hr Hw)
    as [_ Hrun].
  destruct (send_career_reply_email_returns cfg (form_get data "email")
              (form_get data "firstName") (form_get data "lastName")
              (form_get data "applyingFor")
              (set_files (<[APPLICATIONS_DB cfg := dumps (JArr (l ++ [record_of cfg w data name]))]>
                            (files (after_upload cfg w name f))) (after_upload cfg w name f)))
    as (b & w' & Hmail & _ & _ & _ & Hsent).
  rewrite Hmail in Hrun.
  unfold form_get in Hsent. rewrite He, Hfn, Hln, Hrole in Hsent.
  destruct (Hsent html fn ln role) as [_ Hout]; try reflexivity.
  - rewrite mail_files_kept by auto. exact Ht.
  - exact Hrt.
  - rewrite mail_files_kept by auto. exact Hlogo.
  - exact Hsmtp.
  - eexists w', _. split; [exact Hrun|]. split; [exact Hout|].
    repeat split.
Qed.

(** *** The three checks of the form, each exactly *)

Lemma field_filled_false data key :
  field_filled data key = false <->
  data !! key = None \/ exists v, data !! key = Some v /\ PyStr.all_space v = true.
Proof.
  unfold field_filled. destruct (data !! key) as [v|].
  - split.
    + intros H. right. exists v. split; [reflexivity|]. apply strip_empty.
      destruct (PyStr.strip v); [reflexivity | discriminate H].
    + intros [H | (v' & Hv & H)]; [discriminate H|]. injection Hv as <-.
      apply strip_empty in H. now rewrite H.
  - split; [auto | reflexivity].
Qed.

Lemma forallb_exists_false {A} (p : A -> bool) l :
  forallb p l = false <-> exists x, In x l /\ p x = false.
Proof.
  induction l as [|a l IH]; cbn [forallb In].
  - split; [discriminate | intros (x & [] & _)].
  - rewrite andb_false_iff, IH. split.
    + intros [H | (x & Hin & H)]; eauto.
    + intros (x & [<- | Hin] & H); eauto.
Qed.


Lemma answer_of_cases data resume w :
  (exists response, prepare_application cfg data resume w = (Ok (inl response), w) /\
                    answer_of cfg data resume w = Ok response)
  \/ (exists response, answer_of cfg data resume w = Ok response /\ status response <> 400%Z).
Proof.
  unfold answer_of.
  destruct (submit_application_cases cfg data resume w)
    as [(r & Hp & Hr & Hs) | [(e & w1 & r & w' & _ & Hr & Hs & _) |
        [(record & w1 & w2 & _ & _ & Hr) | (record & w1 & w2 & w' & _ & _ & Hr & _)]]];
    rewrite Hr; cbn [fst].
  - left. eauto.
  - right. exists r. split; [reflexivity|]. rewrite Hs. discriminate.
  - right. eexists. split; [reflexivity | discriminate].
  - right. eexists. split; [reflexivity | discriminate].
Qed.

(** X16.  The answer is [All required fields must be filled.] exactly
    when one of the eight required fields is absent from the form, is
    empty or holds nothing but white space. *)
Theorem incomplete_exactly data resume w :
  answer_of cfg data resume w = Ok application_incomplete <->
  exists key, In key required_fields /\
              (data !! key = None \/
               exists v, data !! key = Some v /\ PyStr.all_space v = true).
Proof.
  split.
  - intros Hans.
    destruct (forallb (field_filled data) required_fields) eqn:Hreq.
    + exfalso.
      destruct (answer_of_cases data resume w) as [(r & Hp & Hr) | (r & Hr & Hs)];
        rewrite Hr in Hans; injection Hans as ->; [|now apply Hs].
      revert Hp. unfold prepare_application, bind, data_item, ret, raise.
      rewrite Hreq. red_m.
      destruct (data !! "email") as [email|]; red_m; [|no_run].
      destruct (Re.match_anchored EMAIL_RE email); red_m; [|no_run].
      destruct (data !! "phone") as [phone|]; red_m; [|no_run].
      destruct (Re.match_anchored PHONE_RE phone); red_m; [|no_run].
      destruct (resume_missing resume) eqn:Hmiss; red_m; [no_run|].
      destruct (resume_missing_false resume Hmiss) as (f & name & -> & Hname & Hne).
      unfold uuid4, write_file, now_isoformat. red_m.
      destruct (writable _ _); red_m; no_run.
    + apply forallb_exists_false in Hreq as (key & Hin & Hf).
      exists key. split; [exact Hin|]. now apply field_filled_false.
  - intros (key & Hin & Hf). apply field_filled_false in Hf.
    unfold answer_of, submit_application, prepare_application.
    unfold try_except, bind, data_item, ret.
    assert (Hreq : forallb (field_filled data) required_fields = false).
    { apply forallb_exists_false. eauto. }
    rewrite Hreq. reflexivity.
Qed.

Lemma answer_400 data resume w response :
  answer_of cfg data resume w = Ok response -> status response = 400%Z ->
  prepare_application cfg data resume w = (Ok (inl response), w).
Proof.
  intros Hans Hs.
  destruct (answer_of_cases data resume w) as [(r & Hp & Hr) | (r & Hr & Hn)];
    rewrite Hr in Hans; injection Hans as ->; [exact Hp | contradiction].
Qed.

(** X17.  Once the eight required fields are filled, the answer is
    [Invalid email format.] exactly when the address is neither of the
    shape [local@domain.tld] nor such an address followed by one line
    feed. *)
Theorem email_invalid_exactly data resume w email :
  forallb (field_filled data) required_fields = true ->
  data !! "email" = Some email ->
  answer_of cfg data resume w = Ok email_invalid <->
  ~ (email_shape email \/ exists t, email = t +:+ Re.line_feed /\ email_shape t).
Proof.
  intros Hreq He. rewrite <- email_check_shape. split.
  - intros Hans. apply answer_400 in Hans; [|reflexivity].
    destruct (Re.match_anchored EMAIL_RE email) eqn:Hm; [|discriminate].
    exfalso. revert Hans. unfold prepare_application, bind, data_item, ret, raise.
    rewrite Hreq, He. red_m. rewrite Hm. red_m.
    destruct (data !! "phone") as [phone|]; red_m; [|no_run].
    destruct (Re.match_anchored PHONE_RE phone); red_m; [|no_run].
    destruct (resume_missing resume) eqn:Hmiss; red_m; [no_run|].
    destruct (resume_missing_false resume Hmiss) as (f & name & -> & Hname & Hne).
    unfold uuid4, write_file, now_isoformat. red_m.
    destruct (writable _ _); red_m; no_run.
  - intros Hm. apply not_true_is_false in Hm.
    unfold answer_of. now rewrite (submit_application_email_check cfg data resume w email).
Qed.

(** X18.  For a phone number written in the characters this development
    holds as text, the code points below U+0100, where the decimal
    digits are [0] to [9]: once the required fields are filled and the
    address has passed, the answer is [Invalid phone number format.]
    exactly when the number is neither ten digits of which the first is
    6, 7, 8 or 9, nor such a number followed by one line feed.  (Beyond
    U+00FF the class [\d] of the pattern also takes the decimal digits of
    other scripts; such numbers are outside this statement.) *)
Theorem phone_invalid_exactly data resume w email phone :
  forallb (field_filled data) required_fields = true ->
  data !! "email" = Some email ->
  Re.match_anchored EMAIL_RE email = true ->
  data !! "phone" = Some phone ->
  answer_of cfg data resume w = Ok phone_invalid <->
  ~ (phone_shape phone \/ exists t, phone = t +:+ Re.line_feed /\ phone_shape t).
Proof.
  intros Hreq He Hem Hp. rewrite <- phone_check_shape. split.
  - intros Hans. apply answer_400 in Hans; [|reflexivity].
    destruct (Re.match_anchored PHONE_RE phone) eqn:Hm; [|discriminate].
    exfalso. revert Hans. unfold prepare_application, bind, data_item, ret, raise.
    rewrite Hreq, He. red_m. rewrite Hem, Hp. red_m. rewrite Hm. red_m.
    destruct (resume_missing resume) eqn:Hmiss; red_m; [no_run|].
    destruct (resume_missing_false resume Hmiss) as (f & name & -> & Hname & Hne).
    unfold uuid4, write_file, now_isoformat. red_m.
    destruct (writable _ _); red_m; no_run.
  - intros Hm. apply not_true_is_false in Hm.
    unfold answer_of.
    now rewrite (submit_application_phone_check cfg data resume w email phone).
Qed.

(** *** The mail helpers *)

(** X19.  With the template readable and free of carriage returns, text
    for the three placeholders, a logo file that is not empty and can be
    read, and a transport that accepts the message,
    [send_career_reply_email] returns [True] after one call of the
    transport.  The one message it sends goes to the recipient with the
    filled template as its page, and has exactly one attachment: the
    bytes of the logo file, named [company_logo.png], of type
    [image/png], with the headers [Content-ID: <company_logo>] and
    [Content-Disposition: inline].  The only log entry is the information
    that the mail was sent. *)
Theorem send_career_reply_email_attaches_logo recipient fn ln rn w html img :
  files w !! template_path cfg = Some html ->
  readable w (template_path cfg) = true ->
  no_carriage_return html = true ->
  files w !! logo_path cfg = Some img ->
  img <> EmptyString ->
  readable w (logo_path cfg) = true ->
  smtp_ok w (mail_calls w) = true ->
  exists m a,
    send_career_reply_email cfg recipient (JStr fn) (JStr ln) (JStr rn) w
    = (Ok true,
       set_log (log w ++ [(INFO, "Confirmation email for career sent to " +:+ fmt cfg recipient)])
         (set_mail (S (mail_calls w)) (outbox w ++ [m]) w)) /\
    msg_recipients m = [recipient] /\
    msg_sender m = SENDER_EMAIL cfg /\
    msg_subject m = "Application Received for " +:+ rn +:+ " - InGrowwth Innovations!" /\
    msg_html m = Some (PyStr.replace "{role_name}" rn
                         (PyStr.replace "{last_name}" ln
                            (PyStr.replace "{first_name}" fn html))) /\
    msg_body m = None /\
    msg_attachments m = [a] /\
    att_filename a = "company_logo.png" /\
    att_content_type a = "image/png" /\
    att_data a = img /\
    att_headers a = [("Content-ID", "<company_logo>"); ("Content-Disposition", "inline")].
Proof.
  intros Ht Hrt _ Hl Hne Hrl Hs.
  unfold send_career_reply_email, try_except, bind, read_file, replace_with, path_exists,
    getsize, mail_send, log_info, log_error, ret, raise.
  rewrite Ht, Hrt. cbv beta iota.
  rewrite bool_decide_eq_true_2 by (exists img; exact Hl). cbv beta iota.
  rewrite Hl. destruct img as [|c img]; [congruence|].
  cbn [String.length Nat.eqb negb orb]. rewrite Hl, Hrl. red_m. rewrite Hs.
  eexists _, _. split; [reflexivity|]. repeat split.
Qed.

Ltac attempt_side :=
  intros;
  repeat match goal with
         | H : _ /\ _ |- _ => destruct H
         end;
  solve [ discriminate | congruence | lia | auto
        | split; first [reflexivity | assumption | congruence]
        | match goal with
          | H : Some ?a = Some ?b, Hz : (String.length ?a =? 0)%nat = true |- _ =>
              injection H as <-; destruct a; [contradiction | discriminate Hz]
          end ].

Ltac attempt_leaf :=
  eexists _, _; split; [reflexivity|];
  cbn [mail_calls outbox set_log set_mail];
  split; [solve [auto]|];
  split; [split; attempt_side|];
  split; attempt_side.

(** X20.  [send_career_reply_email] tries the transport at most once, and
    not at all when it returns [False] for a reason of its own: it returns
    [True] exactly when it tried and the transport accepted.  A logo that
    is there and not empty but cannot be read ends the call with [False]
    before any attempt: no mail goes out without the logo in that case. *)
Theorem send_career_reply_email_attempts recipient first_name last_name role_name w :
  exists b w',
    send_career_reply_email cfg recipient first_name last_name role_name w = (Ok b, w') /\
    (mail_calls w' = mail_calls w \/ mail_calls w' = S (mail_calls w)) /\
    (b = true <-> mail_calls w' = S (mail_calls w) /\ smtp_ok w (mail_calls w) = true) /\
    (b = false -> outbox w' = outbox w) /\
    (forall img, files w !! logo_path cfg = Some img -> img <> EmptyString ->
                 readable w (logo_path cfg) = false ->
                 b = false /\ mail_calls w' = mail_calls w).
Proof.
  unfold send_career_reply_email, try_except, bind, read_file, replace_with, path_exists,
    getsize, mail_send, log_info, log_error, ret, raise.
  destruct (files w !! (template_path cfg)) as [html|] eqn:Et; [|attempt_leaf].
  destruct (readable w (template_path cfg)) eqn:Hr; [|attempt_leaf].
  destruct first_name as [| | |fn| |]; try attempt_leaf.
  destruct last_name as [| | |ln| |]; try attempt_leaf.
  destruct role_name as [| | |rn| |]; try attempt_leaf.
  destruct (files w !! (logo_path cfg)) as [img|] eqn:El.
  - rewrite bool_decide_eq_true_2 by eauto. cbn [negb orb]. rewrite El.
    destruct (String.length img =? 0)%nat eqn:Ez; cbn [negb orb]; red_m.
    + destruct (smtp_ok w (mail_calls w)) eqn:Hs; attempt_leaf.
    + rewrite El. destruct (readable w (logo_path cfg)) eqn:Hrl; red_m.
      * destruct (smtp_ok w (mail_calls w)) eqn:Hs; attempt_leaf.
      * attempt_leaf.
  - rewrite bool_decide_eq_false_2 by (intros [? ?]; discriminate). cbn [negb orb]. red_m.
    destruct (smtp_ok w (mail_calls w)) eqn:Hs; attempt_leaf.
Qed.

(** X21.  The three placeholders are filled with text only: when the
    first name, the last name or the role is not text,
    [send_career_reply_email] returns [False] and the transport is never
    tried. *)
Theorem send_career_reply_email_needs_text recipient first_name last_name role_name w :
  (forall s, first_name <> JStr s) \/ (forall s, last_name <> JStr s)
  \/ (forall s, role_name <> JStr s) ->
  exists w',
    send_career_reply_email cfg recipient first_name last_name role_name w = (Ok false, w') /\
    mail_calls w' = mail_calls w /\ outbox w' = outbox w.
Proof.
  intros H.
  unfold send_career_reply_email, try_except, bind, read_file, replace_with, path_exists,
    getsize, mail_send, log_info, log_error, ret, raise.
  destruct (files w !! (template_path cfg)) as [html|];
    [|eexists; split; [reflexivity | split; reflexivity]].
  destruct (readable w (template_path cfg));
    [|eexists; split; [reflexivity | split; reflexivity]].
  destruct first_name as [| | |fn| |];
    try (eexists; split; [reflexivity | split; reflexivity]).
  destruct last_name as [| | |ln| |];
    try (eexists; split; [reflexivity | split; reflexivity]).
  destruct role_name as [| | |rn| |];
    try (eexists; split; [reflexivity | split; reflexivity]).
  exfalso. destruct H as [H | [H | H]]; eapply H; reflexivity.
Qed.

(** X22.  [send_contact_reply_email] tries the transport exactly once and
    returns what the transport said: [True] with the plain-text reply
    added to the outbox, [False] with the outbox as it was.  Either way
    it writes one log entry and leaves the disk alone. *)
Theorem send_contact_reply_email_reports recipient name subject w :
  exists w',
    send_contact_reply_email cfg recipient name subject w
    = (Ok (smtp_ok w (mail_calls w)), w') /\
    same_disk w w' /\
    mail_calls w' = S (mail_calls w) /\
    outbox w' = (if smtp_ok w (mail_calls w)
                 then outbox w ++ [contact_reply_message cfg recipient name subject]
                 else outbox w) /\
    length (log w') = S (length (log w)).
Proof.
  rewrite send_contact_reply_email_run.
  destruct (smtp_ok w (mail_calls w)); eexists; (split; [reflexivity|]);
    cbn [mail_calls outbox log set_log set_mail]; rewrite length_app; cbn [length];
    repeat split; lia.
Qed.

(** *** The store over a sequence of requests *)


Lemma submit_application_store_step data resume w prior :
  stored_applications cfg w = Some prior ->
  forallb well_formed prior = true ->
  exists response w',
    submit_application cfg data resume w = (Ok response, w') /\
    ((status response = 200%Z /\
      exists record,
        submitted {| form := data; resume := resume |} record /\
        stored_applications cfg w' = Some (prior ++ [record]) /\
        forallb well_formed (prior ++ [record]) = true)
     \/ (status response <> 200%Z /\ stored_applications cfg w' = Some prior)).
Proof.
  intros Hst Hwf.
  destruct (submit_application_cases cfg data resume w)
    as [(r & _ & Hr & Hs) | [(e & w1 & r & w' & _ & Hr & Hs & Hf & _) |
        [(record & w1 & w2 & Hp & Hsv & Hr) | (record & w1 & w2 & w' & _ & _ & Hr & _)]]].
  - exists r, w. split; [exact Hr|]. right. split; [rewrite Hs; discriminate | exact Hst].
  - exists r, w'. split; [exact Hr|]. right. split; [rewrite Hs; discriminate|].
    rewrite <- Hst. apply stored_same_file. now rewrite Hf.
  - exists response_store_failed, w2. split; [exact Hr|]. right. split; [discriminate|].
    destruct (prepare_application_record cfg _ _ _ _ _ Hp)
      as (f & name & _ & _ & _ & _ & _ & _ & Hf1 & _).
    destruct (save_application_data_failed cfg _ _ _ Hsv) as (text & ->).
    rewrite <- Hst. apply stored_same_file. cbn [files set_log]. rewrite Hf1.
    apply lookup_insert_ne, resume_path_not_db.
  - exists response_ok, w'. split; [exact Hr|]. left. split; [reflexivity|].
    destruct (submit_application_appends cfg _ _ _ _ _ prior Hr eq_refl Hst Hwf)
      as (date & path & _ & Hst' & Hwf' & _).
    eexists. split; [|split; [exact Hst' | exact Hwf']].
    eexists _, _, _. reflexivity.
Qed.

(** X23.  Served one after the other, the requests are all answered, and
    the store grows by exactly the records of the requests answered with
    200, in the order of the requests: a request that is refused or fails
    leaves the stored array as it was. *)
Theorem serve_applications_store requests : forall w prior,
  stored_applications cfg w = Some prior ->
  forallb well_formed prior = true ->
  exists responses w' new,
    serve_applications cfg requests w = (Ok responses, w') /\
    length responses = length requests /\
    stored_applications cfg w' = Some (prior ++ new) /\
    Forall2 submitted (accepted requests responses) new.
Proof.
  induction requests as [|rq rest IH]; intros w prior Hst Hwf.
  - exists [], w, []. rewrite app_nil_r. repeat split; [exact Hst | constructor].
  - destruct (submit_application_store_step (form rq) (resume rq) w prior Hst Hwf)
      as (r & wa & Hr & [(Hs & record & Hsub & Hst' & Hwf') | (Hs & Hst')]).
    + destruct (IH wa _ Hst' Hwf') as (rs & w' & new & Hrun & Hlen & Hst'' & Hacc).
      exists (r :: rs), w', (record :: new).
      cbn [serve_applications]. unfold bind. rewrite Hr, Hrun. unfold ret.
      split; [reflexivity|]. split; [cbn [length]; congruence|].
      split; [now rewrite <- app_assoc in Hst''|].
      cbn [accepted]. rewrite Hs. cbn [Z.eqb Pos.eqb]. constructor; [|exact Hacc].
      destruct rq; exact Hsub.
    + destruct (IH wa _ Hst' Hwf) as (rs & w' & new & Hrun & Hlen & Hst'' & Hacc).
      exists (r :: rs), w', new.
      cbn [serve_applications]. unfold bind. rewrite Hr, Hrun. unfold ret.
      split; [reflexivity|]. split; [cbn [length]; congruence|].
      split; [exact Hst''|].
      cbn [accepted]. apply Z.eqb_neq in Hs. rewrite Hs. exact Hacc.
Qed.

End More.

End AppMore.

(** ** More of the program on the example deployment *)

Module MoreExamples.
Import Json Py App AppFacts AppMore.

Lemma demo_well_submitted :
  well_submitted Demo.application_form Demo.cv Demo.cv_file "cv.pdf".
Proof.
  split; [vm_compute; reflexivity|].
  split; [exists "ann@x.com"; split; vm_compute; reflexivity|].
  split; [exists "9123456789"; split; vm_compute; reflexivity|].
  repeat split. discriminate.
Defined.

Lemma save_application_data_appends_witness :
  exists w',
    save_application_data Demo.cfg (Demo.record_in Demo.world) Demo.world = (Ok true, w') /\
    stored_applications Demo.cfg w' = Some ([] ++ [Demo.record_in Demo.world]) /\
    (forall p, p <> APPLICATIONS_DB Demo.cfg -> files w' !! p = files Demo.world !! p) /\
    log w' = log Demo.world.
Proof.
  apply (save_application_data_appends Demo.cfg (Demo.record_in Demo.world) Demo.world []);
    vm_compute; reflexivity.
Defined.

Lemma save_application_data_rejects_non_array_witness :
  save_application_data Demo.cfg (Demo.record_in Demo.world) Demo.world_bad_store
  = (Ok false,
     set_log (log Demo.world_bad_store
              ++ [(ERROR, "Failed to save application data: "
                          +:+ str_exn Demo.cfg (AttributeError "append"))])
       Demo.world_bad_store).
Proof.
  apply (save_application_data_rejects_non_array Demo.cfg (Demo.record_in Demo.world)
           Demo.world_bad_store "{}" (JObj []));
    first [discriminate | vm_compute; reflexivity].
Defined.

Lemma save_application_data_twice_witness :
  exists w1 w2,
    save_application_data Demo.cfg (JObj [("id", JStr "a")]) Demo.world = (Ok true, w1) /\
    save_application_data Demo.cfg (JObj [("id", JStr "b")]) w1 = (Ok true, w2) /\
    stored_applications Demo.cfg w2
    = Some ([] ++ [JObj [("id", JStr "a")]; JObj [("id", JStr "b")]]).
Proof.
  apply (save_application_data_twice Demo.cfg (JObj [("id", JStr "a")])
           (JObj [("id", JStr "b")]) Demo.world []);
    vm_compute; reflexivity.
Defined.

Lemma resume_paths_distinct_witness :
  resume_path_for Demo.cfg 1 "cv.pdf" <> resume_path_for Demo.cfg 2 "cv.pdf".
Proof.
  apply (resume_paths_distinct Demo.cfg 1 2 "cv.pdf" "cv.pdf");
    [vm_compute; reflexivity | vm_compute; reflexivity | left; discriminate].
Defined.

Lemma submit_contact_mails_witness :
  exists w',
    submit_contact Demo.cfg (Some (JObj (Demo.contact_fields_of "Ann" "ann@x.com"))) Demo.world
    = (Ok (contact_accepted (smtp_ok Demo.world (confirmation_call Demo.cfg Demo.world))), w') /\
    same_disk Demo.world w' /\
    mail_calls w' = S (confirmation_call Demo.cfg Demo.world) /\
    outbox w' = outbox Demo.world
                ++ company_mails Demo.cfg Demo.world (Demo.contact_fields_of "Ann" "ann@x.com")
                ++ confirmation_mails Demo.cfg Demo.world
                     (Demo.contact_fields_of "Ann" "ann@x.com").
Proof.
  apply (submit_contact_mails Demo.cfg (Demo.contact_fields_of "Ann" "ann@x.com") Demo.world).
  reflexivity.
Defined.

Lemma submit_contact_without_receiver_witness :
  exists sent w',
    submit_contact Demo.cfg_no_receiver
      (Some (JObj (Demo.contact_fields_of "Ann" "ann@x.com"))) Demo.world
    = (Ok (contact_accepted sent), w') /\
    mail_calls w' = S (mail_calls Demo.world) /\
    outbox w' = outbox Demo.world ++
                (if sent
                 then [contact_reply_message Demo.cfg_no_receiver
                         (contact_value (Demo.contact_fields_of "Ann" "ann@x.com") "email")
                         (contact_value (Demo.contact_fields_of "Ann" "ann@x.com") "name")
                         (contact_value (Demo.contact_fields_of "Ann" "ann@x.com") "subject")]
                 else []).
Proof.
  apply (submit_contact_without_receiver Demo.cfg_no_receiver
           (Demo.contact_fields_of "Ann" "ann@x.com") Demo.world);
    [reflexivity | left; reflexivity].
Defined.

Lemma submit_contact_rejects_non_object_witness :
  exists e,
    submit_contact Demo.cfg None Demo.world
    = (Ok (contact_failed Demo.cfg e),
       set_log (log Demo.world
                ++ [(ERROR, "Error processing contact request: " +:+ str_exn Demo.cfg e)])
         Demo.world).
Proof.
  apply (submit_contact_rejects_non_object Demo.cfg None Demo.world).
  left. reflexivity.
Defined.

Lemma submit_application_requires_resume_witness :
  submit_application Demo.cfg Demo.application_form None Demo.world
  = (Ok resume_required, Demo.world).
Proof.
  apply (submit_application_requires_resume Demo.cfg Demo.application_form None Demo.world
           "ann@x.com" "9123456789");
    vm_compute; reflexivity.
Defined.

Lemma submit_application_upload_failure_witness :
  exists w',
    submit_application Demo.cfg Demo.application_form Demo.cv Demo.world_no_uploads
    = (Ok application_failed, w') /\
    files w' = files Demo.world_no_uploads /\
    outbox w' = outbox Demo.world_no_uploads /\
    mail_calls w' = mail_calls Demo.world_no_uploads /\
    log w' = log Demo.world_no_uploads
             ++ [(ERROR, "Application submission failed: "
                         +:+ str_exn Demo.cfg
                               (PermissionError
                                  (upload_path Demo.cfg Demo.world_no_uploads "cv.pdf")))].
Proof.
  apply (submit_application_upload_failure Demo.cfg Demo.application_form Demo.cv
           Demo.world_no_uploads Demo.cv_file "cv.pdf");
    [exact demo_well_submitted | vm_compute; reflexivity].
Defined.

Lemma submit_application_accepts_witness :
  exists w',
    submit_application Demo.cfg Demo.application_form Demo.cv Demo.world
    = (Ok response_ok, w') /\
    stored_applications Demo.cfg w'
    = Some ([] ++ [record_of Demo.cfg Demo.world Demo.application_form "cv.pdf"]) /\
    files w' !! upload_path Demo.cfg Demo.world "cv.pdf" = Some (stream Demo.cv_file) /\
    (forall key v, In key (required_fields ++ ["intro"]) ->
                   Demo.application_form !! key = Some v ->
                   field key (record_of Demo.cfg Demo.world Demo.application_form "cv.pdf")
                   = Some (JStr v)).
Proof.
  apply (submit_application_accepts Demo.cfg Demo.application_form Demo.cv Demo.world
           Demo.cv_file "cv.pdf" []);
    first [exact demo_well_submitted | vm_compute; reflexivity].
Defined.

Lemma submit_application_confirmation_witness :
  exists w' m,
    submit_application Demo.cfg Demo.application_form Demo.cv Demo.world
    = (Ok response_ok, w') /\
    outbox w' = outbox Demo.world ++ [m] /\
    msg_recipients m = [JStr "ann@x.com"] /\
    msg_sender m = SENDER_EMAIL Demo.cfg /\
    msg_subject m = "Application Received for " +:+ "Developer" +:+ " - InGrowwth Innovations!" /\
    msg_html m = Some (PyStr.replace "{role_name}" "Developer"
                         (PyStr.replace "{last_name}" "Lee"
                            (PyStr.replace "{first_name}" "Ann" Demo.template))) /\
    msg_body m = None /\
    msg_attachments m = [].
Proof.
  apply (submit_application_confirmation Demo.cfg Demo.application_form Demo.cv Demo.world
           Demo.cv_file "cv.pdf" [] Demo.template "ann@x.com" "Ann" "Lee" "Developer");
    first [exact demo_well_submitted | left; vm_compute; reflexivity | vm_compute; reflexivity].
Defined.

Lemma email_invalid_exactly_witness :
  answer_of Demo.cfg (<["email" := "not-an-email"]> Demo.application_form) Demo.cv Demo.world
  = Ok email_invalid <->
  ~ (email_shape "not-an-email" \/
     exists t, "not-an-email" = t +:+ Re.line_feed /\ email_shape t).
Proof.
  apply (email_invalid_exactly Demo.cfg (<["email" := "not-an-email"]> Demo.application_form)
           Demo.cv Demo.world "not-an-email");
    vm_compute; reflexivity.
Defined.

Lemma phone_invalid_exactly_witness :
  answer_of Demo.cfg (<["phone" := "12345"]> Demo.application_form) Demo.cv Demo.world
  = Ok phone_invalid <->
  ~ (phone_shape "12345" \/ exists t, "12345" = t +:+ Re.line_feed /\ phone_shape t).
Proof.
  apply (phone_invalid_exactly Demo.cfg (<["phone" := "12345"]> Demo.application_form)
           Demo.cv Demo.world "ann@x.com" "12345");
    vm_compute; reflexivity.
Defined.

Lemma send_career_reply_email_attaches_logo_witness :
  exists m a,
    send_career_reply_email Demo.cfg (JStr "ann@x.com") (JStr "Ann") (JStr "Lee")
      (JStr "Developer") Demo.world_with_logo
    = (Ok true,
       set_log (log Demo.world_with_logo
                ++ [(INFO, "Confirmation email for career sent to "
                           +:+ fmt Demo.cfg (JStr "ann@x.com"))])
         (set_mail (S (mail_calls Demo.world_with_logo))
            (outbox Demo.world_with_logo ++ [m]) Demo.world_with_logo)) /\
    msg_recipients m = [JStr "ann@x.com"] /\
    msg_sender m = SENDER_EMAIL Demo.cfg /\
    msg_subject m = "Application Received for " +:+ "Developer" +:+ " - InGrowwth Innovations!" /\
    msg_html m = Some (PyStr.replace "{role_name}" "Developer"
                         (PyStr.replace "{last_name}" "Lee"
                            (PyStr.replace "{first_name}" "Ann" Demo.template))) /\
    msg_body m = None /\
    msg_attachments m = [a] /\
    att_filename a = "company_logo.png" /\
    att_content_type a = "image/png" /\
    att_data a = "PNG" /\
    att_headers a = [("Content-ID", "<company_logo>"); ("Content-Disposition", "inline")].
Proof.
  apply (send_career_reply_email_attaches_logo Demo.cfg (JStr "ann@x.com") "Ann" "Lee"
           "Developer" Demo.world_with_logo Demo.template "PNG");
    first [discriminate | vm_compute; reflexivity].
Defined.

(** The confirmation of the example request as it reaches the outbox, and
    the career mail with the logo of the example deployment. *)
Example confirmation_in_outbox :
  List.map (fun m => (msg_recipients m, msg_subject m, msg_html m, msg_attachments m))
    (outbox (snd (submit_application Demo.cfg Demo.application_form Demo.cv Demo.world)))
  = [([JStr "ann@x.com"],
      "Application Received for Developer - InGrowwth Innovations!",
      Some "<p>Dear Ann Lee, we received your application for Developer.</p>",
      [])].
Proof. vm_compute. reflexivity. Qed.

Example career_mail_with_logo :
  List.map (fun m => (msg_recipients m, msg_html m, msg_attachments m))
    (outbox (snd (send_career_reply_email Demo.cfg (JStr "ann@x.com") (JStr "Ann") (JStr "Lee")
                    (JStr "Developer") Demo.world_with_logo)))
  = [([JStr "ann@x.com"],
      Some "<p>Dear Ann Lee, we received your application for Developer.</p>",
      [{| att_filename := "company_logo.png";
          att_content_type := "image/png";
          att_data := "PNG";
          att_headers := [("Content-ID", "<company_logo>");
                          ("Content-Disposition", "inline")] |}])].
Proof. vm_compute. reflexivity. Qed.

Lemma serve_applications_store_witness :
  exists responses w' new,
    serve_applications Demo.cfg Demo.three_requests Demo.world = (Ok responses, w') /\
    length responses = length Demo.three_requests /\
    stored_applications Demo.cfg w' = Some ([] ++ new) /\
    Forall2 submitted (accepted Demo.three_requests responses) new.
Proof.
  apply (serve_applications_store Demo.cfg Demo.three_requests Demo.world []);
    vm_compute; reflexivity.
Defined.

Lemma uploads_kept_apart_witness :
  exists w1 w2,
    submit_application Demo.cfg Demo.application_form Demo.cv Demo.world = (Ok response_ok, w1) /\
    submit_application Demo.cfg Demo.application_form Demo.cv w1 = (Ok response_ok, w2) /\
    upload_path Demo.cfg Demo.world "cv.pdf" <> upload_path Demo.cfg w1 "cv.pdf" /\
    files w2 !! upload_path Demo.cfg Demo.world "cv.pdf" = Some (stream Demo.cv_file) /\
    files w2 !! upload_path Demo.cfg w1 "cv.pdf" = Some (stream Demo.cv_file).
Proof.
  apply (uploads_kept_apart Demo.cfg Demo.application_form Demo.cv Demo.cv_file "cv.pdf"
           Demo.application_form Demo.cv Demo.cv_file "cv.pdf" Demo.world []);
    first [ exact demo_well_submitted
          | intros p; reflexivity
          | vm_compute; reflexivity
          | intros E; vm_compute in E; discriminate E ].
Defined.

Lemma send_career_reply_email_needs_text_witness :
  exists w',
    send_career_reply_email Demo.cfg (JStr "ann@x.com") JNull (JStr "Lee") (JStr "Developer")
      Demo.world
    = (Ok false, w') /\
    mail_calls w' = mail_calls Demo.world /\ outbox w' = outbox Demo.world.
Proof.
  apply (send_career_reply_email_needs_text Demo.cfg (JStr "ann@x.com") JNull (JStr "Lee")
           (JStr "Developer") Demo.world).
  left. intros s. discriminate.
Defined.

(** The three requests of the example: the second is refused for its
    phone number, and the store holds the records of the first and the
    third. *)
Example three_requests_served :
  let run := serve_applications Demo.cfg Demo.three_requests Demo.world in
  option_map (List.map status) (match fst run with Ok rs => Some rs | Raise _ => None end)
  = Some [200; 400; 200]%Z /\
  option_map (List.map (field "email")) (stored_applications Demo.cfg (snd run))
  = Some [Some (JStr "ann@x.com"); Some (JStr "bob@y.org")].
Proof. vm_compute. split; reflexivity. Qed.

End MoreExamples.
